(** * find-unreferenced-yaml: a shallow embedding of scripts/find-unreferenced-yaml.py

    The script scans a tree of Kustomize manifests, extracts from every
    [kustomization.yaml] the set of local files it references, lists the
    sibling YAML files that are not referenced, and classifies each of them.

    Modelling conventions.
    - A Python [str] is a [string]; one character of the model is one code
      point below 256 (so [is_space] and [lower] follow Python's tables on
      that range).
    - A [pathlib.Path] is the list of its components below the file-system
      root; all paths of the script are absolute.
    - A Python [set] of [str] is a [gset string].
    - The file system and the YAML loader are inputs of the model: a record
      of oracles ([Env]).
    - Code that mutates the set [referenced] and may raise is written in a
      small state-and-exception monad, so that the set built before an
      exception is the one the caller sees. *)

From Stdlib Require Import Ascii String ZArith List Permutation Sorted.
From stdpp Require Import base gmap sets list strings pretty.

Local Open Scope list_scope.

(** ** Python string primitives *)

Module PyStr.

(** [s.startswith(p)] *)
Definition startswith (s p : string) : bool := String.prefix p s.

(** [needle in hay] *)
Fixpoint contains (needle hay : string) : bool :=
  String.prefix needle hay ||
  match hay with
  | EmptyString => false
  | String _ rest => contains needle rest
  end.

(** [c in s] for a single character *)
Fixpoint has_char (c : ascii) (s : string) : bool :=
  match s with
  | EmptyString => false
  | String a rest => Ascii.eqb a c || has_char c rest
  end.

(** [s.rfind(c)]: index of the last occurrence, [-1] when there is none *)
Fixpoint rfind (c : ascii) (s : string) : Z :=
  match s with
  | EmptyString => (-1)%Z
  | String a rest =>
      let i := rfind c rest in
      if (0 <=? i)%Z then (i + 1)%Z
      else if Ascii.eqb a c then 0%Z else (-1)%Z
  end.

(** [s[n:]] for a natural [n] *)
Fixpoint drop (n : nat) (s : string) : string :=
  match n, s with
  | O, _ => s
  | S _, EmptyString => EmptyString
  | S m, String _ rest => drop m rest
  end.

(** [s[i:]] for [0 <= i] *)
Definition slice_from (i : Z) (s : string) : string := drop (Z.to_nat i) s.

Definition len (s : string) : Z := Z.of_nat (String.length s).

(** [str.lower] on one code point below 256: A-Z and the accented
    capitals 0xC0-0xDE (0xD7, the multiplication sign, excepted). *)
Definition lower_char (c : ascii) : ascii :=
  let n := N_of_ascii c in
  if ((65 <=? n) && (n <=? 90))%N then ascii_of_N (n + 32)
  else if ((192 <=? n) && (n <=? 222) && negb (n =? 215))%N then ascii_of_N (n + 32)
  else c.

Fixpoint lower (s : string) : string :=
  match s with
  | EmptyString => EmptyString
  | String a rest => String (lower_char a) (lower rest)
  end.

(** [any(p in s for p in patterns)] *)
Definition any_in (patterns : list string) (s : string) : bool :=
  existsb (fun p => contains p s) patterns.

End PyStr.

(** ** Paths *)

(** A path is the list of its components; [/a/b/c.yaml] is ["a"; "b"; "c.yaml"]. *)
Definition Path := list string.

Module PyPath.

(** [os.path.basename]: [i = p.rfind('/') + 1; return p[i:]] *)
Definition basename (p : string) : string :=
  let i := (PyStr.rfind "/"%char p + 1)%Z in
  PyStr.slice_from i p.

(** [directory / filename] for a single component *)
Definition joinpath (d : Path) (filename : string) : Path := d ++ [filename].

(** [path.parent] *)
Definition parent (p : Path) : Path := removelast p.

(** [path.name] *)
Definition name (p : Path) : string := List.last p EmptyString.

(** [str(path)] *)
Definition to_str (p : Path) : string :=
  match p with
  | [] => "/"
  | _ => fold_right (fun c acc => "/" +:+ c +:+ acc) EmptyString p
  end.

(** [path.suffix]:
    [i = name.rfind('.'); name[i:] if 0 < i < len(name) - 1 else ''] *)
Definition suffix (p : Path) : string :=
  let nm := name p in
  let i := PyStr.rfind "."%char nm in
  if ((0 <? i) && (i <? PyStr.len nm - 1))%Z then PyStr.slice_from i nm
  else EmptyString.

(** [path.relative_to(root)]: [None] stands for the [ValueError] raised
    when [root] is not a prefix of [path]. *)
Fixpoint relative_to (p root : Path) : option Path :=
  match root, p with
  | [], _ => Some p
  | r :: root', c :: p' => if String.eqb r c then relative_to p' root' else None
  | _ :: _, [] => None
  end.

End PyPath.

(** ** The environment: file system and YAML loader *)

(** The result of [path.read_text(encoding='utf-8')]: the text, or the
    message of the exception raised. *)
Inductive read_result :=
| ReadOk (content : string)
| ReadErr (e : string).

#[local] Set Warnings "-register-all".

(** A value built by [yaml.safe_load]. [YOther] stands for an object of
    any other type the loader builds (float, bytes, date, datetime, set,
    tuple): it is not a [str], a [list] or a [dict], calling
    [.startswith('http')] on it raises, and it is described by its truth
    value and by the elements it yields when iterated ([None] when it is
    not iterable). The keys of a [dict] are values too; an entry is found
    under a [str] key only when its key is that [str]. *)
Inductive yaml :=
| YNone
| YBool (b : bool)
| YInt (n : Z)
| YStr (s : string)
| YList (items : list yaml)
| YDict (entries : list (yaml * yaml))
| YOther (truth : bool) (elems : option (list yaml)).

(** The result of [yaml.safe_load(content)]. *)
Inductive load_result :=
| Loaded (data : yaml)
| LoadYAMLError
| LoadOtherError (e : string).

(** Exceptions caught by [except Exception] in [get_referenced_files]. *)
Inductive exn :=
| ReadError (e : string)        (* raised by [read_text] *)
| LoaderError (e : string)      (* raised by [safe_load], not a [YAMLError] *)
| NoStartswith (v : yaml)       (* [v.startswith('http')] on a non-[str] *)
| NotIterable (v : yaml).       (* [for _ in v] on a non-iterable *)

(** Lines written to [sys.stderr]. *)
Inductive diagnostic :=
| ErrorReading (path : Path) (e : exn)     (* "Error reading {path}: {e}" *)
| ManifestsNotFound (path : Path).
    (* "Error: manifests directory not found at {path}" *)

(** The calls the script makes outside every [try]: an exception that one
    of them raises is caught nowhere, and ends the run. *)
Inductive call :=
| CallExists (path : Path)                 (* [path.exists()] *)
| CallRglob (root : Path) (name : string)  (* the iteration of [root.rglob(name)] *)
| CallIterdir (directory : Path)           (* [directory.iterdir()] *)
| CallIsFile (path : Path)                 (* [path.is_file()] *)
| CallPrint (text : string)                (* [print(text)] *)
| CallPrintErr (line : diagnostic).        (* [print(..., file=sys.stderr)] *)

(** What the script observes of its environment in one run. Reading and
    loading report their own failures, which the script catches. Every
    other call returns what the fields say unless [env_raises] says that
    it raises; a call is known by its arguments, and the first call that
    raises ends the run. *)
Record Env := {
  (** [path.exists()] *)
  env_exists : Path -> bool;
  (** [path.is_file()] *)
  env_is_file : Path -> bool;
  (** [path.read_text(encoding='utf-8')] *)
  env_read_text : Path -> read_result;
  (** names of the entries yielded by [directory.iterdir()], in the order
      the operating system lists them *)
  env_iterdir : Path -> list string;
  (** [root.rglob(name)]: the directories, relative to [root], in which an
      entry called [name] was found, in traversal order; the path yielded
      for a directory [d] is [root / d / name]. When the iteration raises,
      these are the paths yielded before it did. *)
  env_rglob : Path -> string -> list Path;
  (** [yaml.safe_load] *)
  env_safe_load : string -> load_result;
  (** whether the call raises, in this run, an exception that nothing
      catches *)
  env_raises : call -> bool
}.

(** ** Regular expressions: the fragment of [re] the script uses

    A backtracking matcher over a subject [T] and positions in it, as
    [re] works: [exec r st] lists the states in which [r] can finish from
    [st], in the order backtracking tries them, so the head of the list is
    the match [re] reports. Repetition is greedy and applies to character
    classes only, which is all the script's pattern needs. *)

Module Re.

Inductive regex :=
| Bol                               (* [^] under [re.MULTILINE] *)
| Eol                               (* [$] under [re.MULTILINE] *)
| Eps                               (* the empty pattern *)
| Cls (p : ascii -> bool)           (* one character of a class *)
| Star (p : ascii -> bool)          (* [class*], greedy *)
| Seq (r1 r2 : regex)
| Alt (r1 r2 : regex)               (* [r1|r2] *)
| Group (r : regex).                (* capturing group 1 *)

Definition Lit (c : ascii) : regex := Cls (Ascii.eqb c).
Definition Plus (p : ascii -> bool) : regex := Seq (Cls p) (Star p).
(** [(?:r)?], greedy *)
Definition Opt (r : regex) : regex := Alt r Eps.
Fixpoint Lits (s : string) : regex :=
  match s with
  | EmptyString => Eps
  | String c rest => Seq (Lit c) (Lits rest)
  end.

Definition newline : ascii := "010"%char.

(** [\s] on code points below 256 *)
Definition is_space (c : ascii) : bool :=
  let n := N_of_ascii c in
  (((9 <=? n) && (n <=? 13)) || ((28 <=? n) && (n <=? 32)) ||
   (n =? 133) || (n =? 160))%N.

(** [.] without [re.DOTALL] *)
Definition dot (c : ascii) : bool := negb (Ascii.eqb c newline).

Record mstate := { pos : nat; group1 : option (nat * nat) }.

Section Engine.
Variable T : list ascii.

Definition at_bol (i : nat) : bool :=
  match i with
  | O => true
  | S j => match T !! j with Some c => Ascii.eqb c newline | None => false end
  end.

Definition at_eol (i : nat) : bool :=
  match T !! i with Some c => Ascii.eqb c newline | None => true end.

(** Positions at which [class*] can stop when started at [i], where
    [suf] is the subject from [i] on; longest first. *)
Fixpoint star_run (p : ascii -> bool) (suf : list ascii) (i : nat) : list nat :=
  match suf with
  | c :: rest => if p c then star_run p rest (S i) ++ [i] else [i]
  | [] => [i]
  end.

Fixpoint exec (r : regex) (st : mstate) : list mstate :=
  match r with
  | Bol => if at_bol (pos st) then [st] else []
  | Eol => if at_eol (pos st) then [st] else []
  | Eps => [st]
  | Cls p =>
      match T !! pos st with
      | Some c => if p c then [{| pos := S (pos st); group1 := group1 st |}] else []
      | None => []
      end
  | Star p =>
      map (fun j => {| pos := j; group1 := group1 st |})
          (star_run p (drop (pos st) T) (pos st))
  | Seq r1 r2 => flat_map (exec r2) (exec r1 st)
  | Alt r1 r2 => exec r1 st ++ exec r2 st
  | Group r1 =>
      map (fun st' => {| pos := pos st'; group1 := Some (pos st, pos st') |})
          (exec r1 st)
  end.

(** [pattern.match(T, i)]: the first way to match from position [i] *)
Definition match_at (r : regex) (i : nat) : option mstate :=
  head (exec r {| pos := i; group1 := None |}).

(** The search loop of [finditer]: candidate start positions in
    increasing order; a position below [next_ok] lies inside the
    previous match. After a match the search resumes at its end (one
    further when the match is empty). *)
Fixpoint scan (r : regex) (starts : list nat) (next_ok : nat) : list mstate :=
  match starts with
  | [] => []
  | i :: rest =>
      if (i <? next_ok)%nat then scan r rest next_ok
      else match match_at r i with
           | Some m => m :: scan r rest (Nat.max (pos m) (S i))
           | None => scan r rest next_ok
           end
  end.

Definition finditer (r : regex) : list mstate :=
  scan r (seq 0 (S (length T))) 0.

(** [match.group(1)]; [None] when the group did not take part *)
Definition group (m : mstate) : option (list ascii) :=
  match group1 m with
  | Some (a, b) => Some (take (b - a) (drop a T))
  | None => None
  end.

End Engine.

End Re.

(** ** Python values: truth, iteration, dictionary access *)

Module Py.

(** [bool(v)] *)
Definition truthy (v : yaml) : bool :=
  match v with
  | YNone => false
  | YBool b => b
  | YInt n => negb (n =? 0)%Z
  | YStr s => negb (String.eqb s EmptyString)
  | YList items => match items with [] => false | _ => true end
  | YDict entries => match entries with [] => false | _ => true end
  | YOther truth _ => truth
  end.

Fixpoint chars (s : string) : list yaml :=
  match s with
  | EmptyString => []
  | String c rest => YStr (String c EmptyString) :: chars rest
  end.

(** The elements [for x in v] runs over; [None] is a [TypeError]. *)
Definition iterate (v : yaml) : option (list yaml) :=
  match v with
  | YStr s => Some (chars s)
  | YList items => Some items
  | YDict entries => Some (map fst entries)
  | YOther _ elems => elems
  | YNone | YBool _ | YInt _ => None
  end.

(** [d[key]] for a [str] key present in [d]; [None] when [key not in d] *)
Fixpoint dict_get (key : string) (entries : list (yaml * yaml)) : option yaml :=
  match entries with
  | [] => None
  | (YStr k, v) :: rest => if String.eqb k key then Some v else dict_get key rest
  | _ :: rest => dict_get key rest
  end.

End Py.

(** ** A state-and-exception monad for the code that fills [referenced] *)

Inductive outcome (A : Type) :=
| Done (a : A)
| Raised (e : exn).
Arguments Done {A} a.
Arguments Raised {A} e.

(** A computation reads and mutates the set [referenced]; when it raises,
    the set keeps what was added before. *)
Definition M (A : Type) : Type := gset string -> gset string * outcome A.

Definition ret {A} (a : A) : M A := fun refs => (refs, Done a).
Definition raise {A} (e : exn) : M A := fun refs => (refs, Raised e).
Definition bind {A B} (m : M A) (k : A -> M B) : M B :=
  fun refs =>
    match m refs with
    | (refs', Done a) => k a refs'
    | (refs', Raised e) => (refs', Raised e)
    end.
(** [referenced.add(s)] *)
Definition add (s : string) : M unit := fun refs => ({[ s ]} ∪ refs, Done tt).

Notation "m >> k" := (bind m (fun _ => k)) (at level 65, right associativity).

(** [for x in l: body(x)] *)
Fixpoint for_each {A} (l : list A) (body : A -> M unit) : M unit :=
  match l with
  | [] => ret tt
  | x :: rest => body x >> for_each rest body
  end.

(** ** Extraction of the referenced files *)

Module KustomizationParser.

Definition FILE_REFERENCE_FIELDS : list string :=
  ["resources"; "patches"; "patchesStrategicMerge"; "patchesJson6902";
   "configurations"; "crds"; "openapi"; "generators"; "transformers";
   "components"; "configMapGenerator"; "secretGenerator"].

(** [_add_local_file(path, referenced)]; [path] may be any value when it
    comes from a ['path'] key. *)
Definition _add_local_file (path : yaml) : M unit :=
  if Py.truthy path then
    match path with
    | YStr s =>
        if negb (PyStr.startswith s "http") then
          if negb (PyStr.has_char "/"%char s) || PyStr.startswith s "./"
          then add (PyPath.basename s)
          else ret tt
        else ret tt
    | _ => raise (NoStartswith path)
    end
  else ret tt.

(** [_extract_file_reference(item, referenced)] *)
Definition _extract_file_reference (item : yaml) : M unit :=
  match item with
  | YStr s =>
      if negb (PyStr.startswith s "http") then _add_local_file item else ret tt
  | YDict entries =>
      match Py.dict_get "files" entries with
      | Some files =>
          match Py.iterate files with
          | Some elems =>
              for_each elems (fun file =>
                match file with
                | YStr _ => _add_local_file file
                | _ => ret tt
                end)
          | None => raise (NotIterable files)
          end
      | None =>
          match Py.dict_get "path" entries with
          | Some path => _add_local_file path
          | None => ret tt
          end
      end
  | _ => ret tt
  end.

(** [_parse_yaml_references(data, referenced)], [data] a [dict] *)
Definition _parse_yaml_references (data : list (yaml * yaml)) : M unit :=
  for_each FILE_REFERENCE_FIELDS (fun field =>
    match Py.dict_get field data with
    | Some v =>
        if Py.truthy v then
          match v with
          | YList items => for_each items _extract_file_reference
          | _ => ret tt
          end
        else ret tt
    | None => ret tt
    end) >>
  match Py.dict_get "patches" data with
  | Some (YList patches) =>
      for_each patches (fun patch =>
        match patch with
        | YDict entries =>
            match Py.dict_get "path" entries with
            | Some path => _add_local_file path
            | None => ret tt
            end
        | _ => ret tt
        end)
  | _ => ret tt
  end.

(** [[^/\s#]] *)
Definition name_char (c : ascii) : bool :=
  negb (Ascii.eqb c "/"%char || Re.is_space c || Ascii.eqb c "#"%char).

(** The pattern of the script, compiled with [re.MULTILINE]; written
    here with blanks between its parts:
    ^  \s*  -  \s*  ( [^/\s#]+  \.  (yaml|yml) )  \s*  (?: #  .* )?  $ *)
Definition pattern : Re.regex :=
  Re.Seq Re.Bol
 (Re.Seq (Re.Star Re.is_space)
 (Re.Seq (Re.Lit "-"%char)
 (Re.Seq (Re.Star Re.is_space)
 (Re.Seq (Re.Group
            (Re.Seq (Re.Plus name_char)
            (Re.Seq (Re.Lit "."%char)
                    (Re.Alt (Re.Lits "yaml") (Re.Lits "yml")))))
 (Re.Seq (Re.Star Re.is_space)
 (Re.Seq (Re.Opt (Re.Seq (Re.Lit "#"%char) (Re.Star Re.dot)))
         Re.Eol)))))).

(** [_parse_regex_references(content, referenced)]. The group of the
    pattern takes part in every match, so [match.group(1)] is a string. *)
Definition _parse_regex_references (content : string) : M unit :=
  let T := list_ascii_of_string content in
  for_each (Re.finditer T pattern) (fun m =>
    match Re.group T m with
    | Some g => add (string_of_list_ascii g)
    | None => ret tt
    end).

(** [get_referenced_files()]: the set returned and the lines printed to
    [sys.stderr]. *)
Definition get_referenced_files (env : Env) (kustomization_path : Path)
  : gset string * list diagnostic :=
  let referenced : gset string := ∅ in
  let result :=
    match env_read_text env kustomization_path with
    | ReadErr e => (referenced, Raised (ReadError e))
    | ReadOk content =>
        match env_safe_load env content with
        | Loaded (YDict data) => _parse_yaml_references data referenced
        | Loaded _ => (referenced, Done tt)
        | LoadYAMLError => _parse_regex_references content referenced
        | LoadOtherError e => (referenced, Raised (LoaderError e))
        end
    end in
  match result with
  | (refs, Done _) => (refs, [])
  | (refs, Raised e) => (refs, [ErrorReading kustomization_path e])
  end.

(** Whether an exception escapes [get_referenced_files()]: the one
    statement outside its [try] is the [print] of the handler. *)
Definition get_referenced_files_raises (env : Env) (kustomization_path : Path)
  : bool :=
  match (get_referenced_files env kustomization_path).2 with
  | [] => false
  | line :: _ => env_raises env (CallPrintErr line)
  end.

End KustomizationParser.

(** ** Ordering of paths and [sorted] *)

Module PySort.

(** [p < q] on paths: the lists of components are compared as Python
    compares lists, the components as Python compares [str]. *)
Fixpoint path_ltb (p q : Path) : bool :=
  match p, q with
  | [], [] => false
  | [], _ :: _ => true
  | _ :: _, [] => false
  | a :: p', b :: q' =>
      if String.eqb a b then path_ltb p' q' else String.ltb a b
  end.

Fixpoint insert (x : Path) (l : list Path) : list Path :=
  match l with
  | [] => [x]
  | y :: rest => if path_ltb x y then x :: y :: rest else y :: insert x rest
  end.

(** [sorted(l)]: a stable sort that only uses [<] *)
Definition sorted (l : list Path) : list Path :=
  fold_left (fun acc x => insert x acc) l [].

End PySort.

(** ** Classification of unreferenced files *)

Inductive FileStatus := SAFE_TO_REMOVE | NEEDS_REVIEW.

Record AnalysisResult := {
  filepath : Path;
  status : FileStatus;
  reason : string
}.

Module UnreferencedFileAnalyzer.

Definition SAFE_PATTERNS : list string :=
  ["job-"; "-job.yaml"; "postgres-setup.yaml"; "vault-secrets-init.yaml";
   "authelia-db-"; "fix-pool-size.yaml"; "job.yaml"].

Definition IMPORTANT_MARKERS : list string :=
  ["IMPORTANT"; "DO NOT DELETE"; "KEEP"].

Definition TEST_PATTERNS : list string :=
  ["test"; "example"; "sample"; ".bak"; ".old"].

(** [self.manifests_dir] *)
Definition manifests_dir (project_root : Path) : Path :=
  PyPath.joinpath project_root "manifests".

(** The condition under which the loop over [directory.iterdir()] keeps
    [file]: [file.is_file() and file.suffix in ('.yaml', '.yml') and
    file.name != 'kustomization.yaml'] *)
Definition yaml_sibling (env : Env) (file : Path) : bool :=
  env_is_file env file &&
  (String.eqb (PyPath.suffix file) ".yaml" ||
   String.eqb (PyPath.suffix file) ".yml") &&
  negb (String.eqb (PyPath.name file) "kustomization.yaml").

(** [_find_unreferenced_in_directory(directory)]: what the call returns
    when it returns, with the lines the parser printed to [sys.stderr] *)
Definition _find_unreferenced_in_directory (env : Env) (directory : Path)
  : list Path * list diagnostic :=
  let kustomization_path := PyPath.joinpath directory "kustomization.yaml" in
  if negb (env_exists env kustomization_path) then ([], [])
  else
    let yaml_files :=
      map PyPath.name
        (List.filter (fun file => yaml_sibling env file)
                (map (PyPath.joinpath directory) (env_iterdir env directory))) in
    let '(referenced, diags) :=
      KustomizationParser.get_referenced_files env kustomization_path in
    let unreferenced :=
      map (PyPath.joinpath directory)
          (List.filter (fun filename => bool_decide (filename ∉ referenced))
                       yaml_files) in
    (unreferenced, diags).

(** Whether an exception escapes [_find_unreferenced_in_directory]:
    from [exists], from [iterdir], from one of the [is_file] tests of the
    loop, or from the parser. *)
Definition _find_unreferenced_in_directory_raises (env : Env) (directory : Path)
  : bool :=
  let kustomization_path := PyPath.joinpath directory "kustomization.yaml" in
  env_raises env (CallExists kustomization_path) ||
  (env_exists env kustomization_path &&
   (env_raises env (CallIterdir directory) ||
    existsb (fun name => env_raises env (CallIsFile (PyPath.joinpath directory name)))
            (env_iterdir env directory) ||
    KustomizationParser.get_referenced_files_raises env kustomization_path)).

(** [find_all_unreferenced()]: what the call returns when it returns *)
Definition find_all_unreferenced (env : Env) (project_root : Path)
  : list Path * list diagnostic :=
  let root := manifests_dir project_root in
  let per_directory :=
    map (fun d =>
           let kustomization_path :=
             PyPath.joinpath (root ++ d) "kustomization.yaml" in
           let directory := PyPath.parent kustomization_path in
           _find_unreferenced_in_directory env directory)
        (env_rglob env root "kustomization.yaml") in
  (PySort.sorted (concat (map fst per_directory)),
   concat (map snd per_directory)).

(** The loop of [find_all_unreferenced] over the directories that [rglob]
    yields: the lines written to [sys.stderr], and whether an exception
    escaped. The loop stops at the first directory in which one does. *)
Fixpoint scan_raises (env : Env) (directories : list Path)
  : list diagnostic * bool :=
  match directories with
  | [] => ([], false)
  | directory :: rest =>
      if _find_unreferenced_in_directory_raises env directory then ([], true)
      else
        let '(diags, raised) := scan_raises env rest in
        ((_find_unreferenced_in_directory env directory).2 ++ diags, raised)
  end.

(** Whether an exception escapes [find_all_unreferenced()], from the loop
    or from the iteration of [rglob] itself, and the lines written to
    [sys.stderr] until then. *)
Definition find_all_unreferenced_raises (env : Env) (project_root : Path)
  : list diagnostic * bool :=
  let root := manifests_dir project_root in
  let directories :=
    map (fun d => PyPath.parent (PyPath.joinpath (root ++ d) "kustomization.yaml"))
        (env_rglob env root "kustomization.yaml") in
  let '(diags, raised) := scan_raises env directories in
  (diags, raised || env_raises env (CallRglob root "kustomization.yaml")).

(** [analyze_file(filepath)]; its whole body stands in a [try] that
    catches every [Exception]. *)
Definition analyze_file (env : Env) (fp : Path) : AnalysisResult :=
  match env_read_text env fp with
  | ReadErr e =>
      {| filepath := fp; status := NEEDS_REVIEW;
         reason := "Error reading file: " +:+ e |}
  | ReadOk content =>
      if PyStr.any_in IMPORTANT_MARKERS content then
        {| filepath := fp; status := NEEDS_REVIEW;
           reason := "Contains important markers" |}
      else if PyStr.contains "kind: Job" content &&
              (PyStr.contains "job-" (PyPath.name fp) ||
               PyStr.contains "-job" (PyPath.name fp)) then
        {| filepath := fp; status := SAFE_TO_REMOVE;
           reason := "Old Job file (likely replaced by workflow)" |}
      else if PyStr.any_in SAFE_PATTERNS (PyPath.to_str fp) then
        {| filepath := fp; status := SAFE_TO_REMOVE;
           reason := "Matches old job pattern" |}
      else if PyStr.any_in TEST_PATTERNS (PyStr.lower (PyPath.name fp)) then
        {| filepath := fp; status := SAFE_TO_REMOVE;
           reason := "Test/example/backup file" |}
      else
        {| filepath := fp; status := NEEDS_REVIEW;
           reason := "Unknown file - manual review needed" |}
  end.

End UnreferencedFileAnalyzer.

(** ** The program *)

(** What a run leaves behind: the exit status, the texts passed to
    [print] and the lines the script wrote to [sys.stderr] (the traceback
    the interpreter adds for an uncaught exception is not listed). *)
Record run_result := {
  exit_code : Z;
  stdout : list string;
  stderr : list diagnostic
}.

Module Main.

Definition NL : string := String "010"%char EmptyString.
(** U+2713 and U+26A0, given by their UTF-8 encoding *)
Definition CHECK_MARK : string :=
  String "226"%char (String "156"%char (String "147"%char EmptyString)).
Definition WARNING_SIGN : string :=
  String "226"%char (String "154"%char (String "160"%char EmptyString)).

(** [str(p)] for a relative path *)
Definition rel_str (p : Path) : string :=
  match p with
  | [] => "."
  | c :: rest => fold_left (fun acc d => acc +:+ "/" +:+ d) rest c
  end.

(** Printing code that may stop on an uncaught exception: the texts
    printed so far, and the value unless an exception escaped. *)
Definition W (A : Type) : Type := (list string * option A)%type.
Definition wret {A} (a : A) : W A := ([], Some a).
Definition wbind {A B} (m : W A) (k : A -> W B) : W B :=
  match m with
  | (out, Some a) => let '(out', b) := k a in (out ++ out', b)
  | (out, None) => (out, None)
  end.
(** [print(s)] *)
Definition print (env : Env) (s : string) : W unit :=
  if env_raises env (CallPrint s) then ([], None) else ([s], Some tt).
(** [str(result.filepath.relative_to(project_root))] *)
Definition rel (project_root : Path) (r : AnalysisResult) : W string :=
  ([], rel_str <$> PyPath.relative_to (filepath r) project_root).

Notation "'do' x <- m ; k" := (wbind m (fun x => k))
  (at level 10, x name, m at level 100, k at level 200).
Notation "m ;; k" := (wbind m (fun _ => k)).

Fixpoint wfor {A} (l : list A) (body : A -> W unit) : W unit :=
  match l with
  | [] => wret tt
  | x :: rest => body x ;; wfor rest body
  end.

(** [' '.join(f'"{r.filepath.relative_to(project_root)}"' for r in l)] *)
Fixpoint join_quoted (project_root : Path) (l : list AnalysisResult) : W string :=
  match l with
  | [] => wret EmptyString
  | r :: rest =>
      do p <- rel project_root r;
      do tail <- join_quoted project_root rest;
      let quoted := String "034"%char (p +:+ String "034"%char EmptyString) in
      wret (match rest with [] => quoted | _ => quoted +:+ " " +:+ tail end)
  end.

Definition is_safe (r : AnalysisResult) : bool :=
  match status r with SAFE_TO_REMOVE => true | NEEDS_REVIEW => false end.

(** The part of [main] after the analysis: display and summary. *)
Definition report (env : Env) (project_root : Path) (results : list AnalysisResult)
  : W unit :=
  print env (NL +:+ "=== Unreferenced YAML Files Analysis ===" +:+ NL) ;;
  wfor results (fun result =>
    do rel_path <- rel project_root result;
    (if is_safe result
     then print env (CHECK_MARK +:+ " SAFE TO REMOVE: " +:+ rel_path) ;;
          print env ("  Reason: " +:+ reason result)
     else print env (WARNING_SIGN +:+ " NEEDS REVIEW: " +:+ rel_path) ;;
          print env ("  Reason: " +:+ reason result)) ;;
    print env EmptyString) ;;
  let safe_to_remove := List.filter (fun r => is_safe r) results in
  let needs_review := List.filter (fun r => negb (is_safe r)) results in
  print env (NL +:+ "Summary:") ;;
  print env ("- Safe to remove: " +:+ pretty (length safe_to_remove) +:+ " files") ;;
  print env ("- Needs review: " +:+ pretty (length needs_review) +:+ " files") ;;
  match safe_to_remove with
  | [] => wret tt
  | _ => print env (NL +:+ "Files safe to remove:") ;;
         wfor safe_to_remove (fun result =>
           do p <- rel project_root result; print env ("  " +:+ p))
  end ;;
  match needs_review with
  | [] => wret tt
  | _ => print env (NL +:+ "Files needing review:") ;;
         wfor needs_review (fun result =>
           do p <- rel project_root result; print env ("  " +:+ p))
  end ;;
  match safe_to_remove with
  | [] => wret tt
  | _ => print env (NL +:+ "To remove safe files, run:") ;;
         do files_to_remove <- join_quoted project_root safe_to_remove;
         print env ("  rm " +:+ files_to_remove)
  end.

(** [analyzer.find_all_unreferenced()] as [main] calls it *)
Definition scan (env : Env) (project_root : Path) : W (list Path) :=
  ([],
   if (UnreferencedFileAnalyzer.find_all_unreferenced_raises env project_root).2
   then None
   else Some (UnreferencedFileAnalyzer.find_all_unreferenced env project_root).1).

(** [main()], for the project root the script derives from its own
    location. [sys.exit(1)] and an exception that escapes both end the run
    with status 1. *)
Definition main (env : Env) (project_root : Path) : run_result :=
  let manifests_dir := PyPath.joinpath project_root "manifests" in
  if env_raises env (CallExists manifests_dir) then
    {| exit_code := 1; stdout := []; stderr := [] |}
  else if negb (env_exists env manifests_dir) then
    {| exit_code := 1; stdout := [];
       stderr := if env_raises env (CallPrintErr (ManifestsNotFound manifests_dir))
                 then [] else [ManifestsNotFound manifests_dir] |}
  else
    let scanning := "Scanning for unreferenced YAML files..." in
    let '(out, finished) :=
      print env scanning ;;
      do unreferenced_files <- scan env project_root;
      match unreferenced_files with
      | [] => print env "No unreferenced files found!"
      | _ =>
          report env project_root
            (map (UnreferencedFileAnalyzer.analyze_file env) unreferenced_files)
      end in
    {| exit_code := match finished with Some _ => 0 | None => 1 end;
       stdout := out;
       stderr := if env_raises env (CallPrint scanning) then []
                 else (UnreferencedFileAnalyzer.find_all_unreferenced_raises
                         env project_root).1 |}.

End Main.

(** ** Vocabulary of the statements *)

(** [needle] occurs in [hay] as a literal substring. *)
Definition Substring (needle hay : string) : Prop :=
  exists before after, hay = before +:+ needle +:+ after.

(** The Job rule of [analyze_file]: the content declares a Job and the
    file name follows a job naming convention. *)
Definition job_rule (content : string) (fp : Path) : Prop :=
  Substring "kind: Job" content /\
  (Substring "job-" (PyPath.name fp) \/ Substring "-job" (PyPath.name fp)).

(** Declarative reading of the regular expressions. *)

Module ReSpec.
Import Re.

Section Semantics.
Variable T : list ascii.

(** Every position from [i] up to [j] (excluded) holds a character of
    the class [p]. *)
Definition run (p : ascii -> bool) (i j : nat) : Prop :=
  (i <= j)%nat /\
  forall k, (i <= k < j)%nat -> exists c, T !! k = Some c /\ p c = true.

(** [sem r st st']: [r] can consume the subject from [st] to [st']. *)
Fixpoint sem (r : regex) (st st' : mstate) : Prop :=
  match r with
  | Bol => at_bol T (pos st) = true /\ st' = st
  | Eol => at_eol T (pos st) = true /\ st' = st
  | Eps => st' = st
  | Cls p =>
      (exists c, T !! pos st = Some c /\ p c = true) /\
      st' = {| pos := S (pos st); group1 := group1 st |}
  | Star p =>
      run p (pos st) (pos st') /\ group1 st' = group1 st
  | Seq r1 r2 => exists mid, sem r1 st mid /\ sem r2 mid st'
  | Alt r1 r2 => sem r1 st st' \/ sem r2 st st'
  | Group r1 =>
      exists e, sem r1 st e /\
                st' = {| pos := pos e; group1 := Some (pos st, pos e) |}
  end.

(** The state in which a match attempt at position [i] starts. *)
Definition start (i : nat) : mstate := {| pos := i; group1 := None |}.

(** The characters [w] stand in the subject from position [i] on. *)
Definition occurs_at (w : list ascii) (i : nat) : Prop :=
  take (length w) (drop i T) = w.

End Semantics.

End ReSpec.

(** Lines of a text. *)

Module Line.

(** Every character of [s] satisfies [p]. *)
Fixpoint all_chars (p : ascii -> bool) (s : string) : Prop :=
  match s with
  | EmptyString => True
  | String c rest => p c = true /\ all_chars p rest
  end.

(** White space other than a line break. *)
Definition blank (c : ascii) : bool :=
  Re.is_space c && negb (Ascii.eqb c Re.newline).

(** [before] is empty or ends with a line break: a line starts after it. *)
Definition starts_line_after (before : string) : Prop :=
  before = EmptyString \/ exists t, before = t +:+ Main.NL.

(** [after] is empty or starts with a line break: a line ends before it. *)
Definition ends_line_before (after : string) : Prop :=
  after = EmptyString \/ exists t, after = Main.NL +:+ t.

(** A trailing comment: nothing, or [#] followed by text on the same line. *)
Definition comment (s : string) : Prop :=
  s = EmptyString \/ exists t, s = "#" +:+ t /\ all_chars Re.dot t.

(** A list-item line naming [stem.ext]: indentation, a dash, at least one
    blank, the name, then blanks and an optional comment. *)
Definition list_item (line stem ext : string) : Prop :=
  exists indent gap trail remark : string,
    line = indent +:+ "-" +:+ gap +:+ (stem +:+ "." +:+ ext) +:+ trail +:+ remark /\
    all_chars blank indent /\
    all_chars blank gap /\ gap <> EmptyString /\
    all_chars KustomizationParser.name_char stem /\ stem <> EmptyString /\
    (ext = "yaml" \/ ext = "yml") /\
    all_chars blank trail /\
    comment remark.

End Line.

(** Invariants of the set [referenced]. *)

(** Every element of the set satisfies [Q]. *)
Definition all_refs (Q : string -> Prop) (refs : gset string) : Prop :=
  forall x, x ∈ refs -> Q x.

(** Running [m] keeps [all_refs Q], whether it finishes or raises. *)
Definition preserves (Q : string -> Prop) {A} (m : M A) : Prop :=
  forall refs, all_refs Q refs -> all_refs Q (m refs).1.

(** The name has no path separator. *)
Definition no_slash (x : string) : Prop := PyStr.has_char "/"%char x = false.

(** The order [sorted] puts paths in: [p] is not after [q]. *)
Definition path_le (p q : Path) : Prop := PySort.path_ltb q p = false.

(** Two observations of one directory tree: the same files with the same
    content, listed in possibly different orders by [iterdir] and [rglob]. *)
Definition same_tree (env env' : Env) : Prop :=
  (forall p, env_exists env p = env_exists env' p) /\
  (forall p, env_is_file env p = env_is_file env' p) /\
  (forall p, env_read_text env p = env_read_text env' p) /\
  (forall s, env_safe_load env s = env_safe_load env' s) /\
  (forall p, Permutation (env_iterdir env p) (env_iterdir env' p)) /\
  (forall r n, Permutation (env_rglob env r n) (env_rglob env' r n)).

(** The result is about a file below [project_root]. *)
Definition under_root (project_root : Path) (r : AnalysisResult) : Prop :=
  exists rel_path, filepath r = project_root ++ rel_path.

(** Sample inputs, used to run the statements on concrete data. *)

Module Examples.

(** An environment in which every path exists and is a regular file, and
    no call raises. *)
Definition sample_env (read : Path -> read_result) (load : string -> load_result)
    (listing : Path -> list string) (dirs : list Path) : Env :=
  {| env_exists := fun _ => true;
     env_is_file := fun _ => true;
     env_read_text := read;
     env_iterdir := listing;
     env_rglob := fun _ _ => dirs;
     env_safe_load := load;
     env_raises := fun _ => false |}.

Definition project_root : Path := ["srv"; "homelab"].
Definition app_dir : Path := ["srv"; "homelab"; "manifests"; "app"].
Definition kustomization : Path :=
  ["srv"; "homelab"; "manifests"; "app"; "kustomization.yaml"].

(** A kustomization file that is not valid YAML. *)
Definition malformed : string :=
  "resources:" +:+ Main.NL +:+ "  - sidecar.yaml" +:+ Main.NL +:+ "  bad: [".

Definition env_malformed : Env :=
  sample_env (fun _ => ReadOk malformed) (fun _ => LoadYAMLError)
             (fun _ => []) [].

(** A kustomization file whose resource list names [httpd-config.yaml]. *)
Definition httpd_doc : yaml :=
  YDict [(YStr "resources", YList [YStr "httpd-config.yaml"])].

Definition env_httpd : Env :=
  sample_env (fun _ => ReadOk "resources: [httpd-config.yaml]")
             (fun _ => Loaded httpd_doc) (fun _ => []) [].

(** The same reference in a file on which the loader fails. *)
Definition env_httpd_fallback : Env :=
  sample_env (fun _ => ReadOk ("resources: [" +:+ Main.NL +:+ "- httpd-config.yaml"))
             (fun _ => LoadYAMLError) (fun _ => []) [].

(** A resource list with a reference that is relative to the directory. *)
Definition env_relative : Env :=
  sample_env (fun _ => ReadOk "resources: [./httpd.yaml]")
             (fun _ => Loaded (YDict [(YStr "resources", YList [YStr "./httpd.yaml"])]))
             (fun _ => []) [].

(** A document that parses to a list, not to a mapping. *)
Definition env_top_level_list : Env :=
  sample_env (fun _ => ReadOk "- a.yaml")
             (fun _ => Loaded (YList [YStr "a.yaml"])) (fun _ => []) [].

(** A directory whose kustomization file cannot be read. *)
Definition env_unreadable : Env :=
  sample_env (fun _ => ReadErr "[Errno 13] Permission denied")
             (fun _ => LoadYAMLError)
             (fun _ => ["kustomization.yaml"; "deployment.yaml"; "notes.txt"])
             [["app"]].

(** A Job manifest that carries a marker, under a name that follows the
    job and test conventions. *)
Definition env_marked : Env :=
  sample_env (fun _ => ReadOk "kind: Job # KEEP") (fun _ => LoadYAMLError)
             (fun _ => []) [].
Definition job_test_file : Path :=
  ["srv"; "homelab"; "manifests"; "app"; "job-test.yaml"].

(** A plain manifest under a test name. *)
Definition env_plain : Env :=
  sample_env (fun _ => ReadOk "kind: ConfigMap") (fun _ => LoadYAMLError)
             (fun _ => []) [].
Definition config_test_file : Path :=
  ["srv"; "homelab"; "manifests"; "app"; "Config-Test.yaml"].

(** A small tree: one application directory with a kustomization file that
    references [deployment.yaml], an old Job and a test file beside it. *)
Definition tree_read (p : Path) : read_result :=
  if bool_decide (p = app_dir ++ ["kustomization.yaml"])
  then ReadOk "resources: [deployment.yaml]"
  else if bool_decide (p = app_dir ++ ["old-job.yaml"]) then ReadOk "kind: Job"
  else ReadOk "kind: ConfigMap".
Definition tree_load (s : string) : load_result :=
  Loaded (YDict [(YStr "resources", YList [YStr "deployment.yaml"])]).
Definition env_tree : Env :=
  sample_env tree_read tree_load
    (fun p => if bool_decide (p = app_dir)
              then ["kustomization.yaml"; "old-job.yaml"; "deployment.yaml";
                    "config-test.yaml"; "README.md"]
              else [])
    [["app"]].
(** The same tree, listed in another order. *)
Definition env_tree_reordered : Env :=
  sample_env tree_read tree_load
    (fun p => if bool_decide (p = app_dir)
              then ["config-test.yaml"; "README.md"; "deployment.yaml";
                    "old-job.yaml"; "kustomization.yaml"]
              else [])
    [["app"]].

End Examples.

(** Vocabulary of the further properties. *)

(** The tests a plain string passes before its basename is recorded:
    it does not begin with [http], is not empty, and has no [/] or
    begins with [./]. *)
Definition accepted (s : string) : bool :=
  negb (PyStr.startswith s "http") && negb (String.eqb s EmptyString) &&
  (negb (PyStr.has_char "/"%char s) || PyStr.startswith s "./").

(** Every element of the list is a plain string. *)
Definition plain_strings (items : list yaml) : Prop :=
  Forall (fun v => exists s, v = YStr s) items.

(** Running [m] never takes a name out of the set [referenced]. *)
Definition keeps {A} (m : M A) : Prop :=
  forall refs x, x ∈ refs -> x ∈ (m refs).1.

(** No call of the run raises. *)
Definition nothing_raises (env : Env) : Prop :=
  forall c, env_raises env c = false.

(** No element of the list is a mapping. *)
Definition no_mappings (items : list yaml) : Prop :=
  Forall (fun v => forall entries, v <> YDict entries) items.

(** [str(p.relative_to(project_root))] for a path below [project_root] *)
Definition shown (project_root p : Path) : string :=
  Main.rel_str (drop (length project_root) p).

(** [f'"{s}"'] *)
Definition quoted (s : string) : string :=
  String "034"%char (s +:+ String "034"%char EmptyString).

(** The lines the first loop of [main] prints about one result. *)
Definition status_lines (project_root : Path) (r : AnalysisResult) : list string :=
  [(if Main.is_safe r then Main.CHECK_MARK +:+ " SAFE TO REMOVE: "
    else Main.WARNING_SIGN +:+ " NEEDS REVIEW: ") +:+ shown project_root (filepath r);
   "  Reason: " +:+ reason r;
   EmptyString].

(** Further sample inputs. *)

Module Samples.

(** A manifest without markers, in a directory whose name follows the
    legacy job convention. *)
Definition legacy_dir_file : Path :=
  ["srv"; "homelab"; "manifests"; "job-runner"; "deployment.yaml"].

(** A resource list that mixes file names, a number, a reference through
    a directory and a URL, beside a field the parser does not know. *)
Definition mixed_resources : list yaml :=
  [YStr "deployment.yaml"; YInt 42; YStr "./base/service.yaml";
   YStr "https://example.com/crd.yaml"].
Definition mixed_doc : list (yaml * yaml) :=
  [(YStr "resources", YList mixed_resources); (YStr "namePrefix", YStr "dev-")].
Definition env_mixed : Env :=
  Examples.sample_env (fun _ => ReadOk "resources: [deployment.yaml, 42, ...]")
                      (fun _ => Loaded (YDict mixed_doc)) (fun _ => []) [].

(** A resource list whose third entry has a number for its [path]. *)
Definition broken_entry_doc : list (yaml * yaml) :=
  [(YStr "resources",
    YList [YStr "deployment.yaml"; YDict [(YStr "path", YStr "service.yaml")];
           YDict [(YStr "path", YInt 5)]; YStr "config.yaml"]);
   (YStr "configurations", YList [YStr "settings.yaml"])].
Definition env_broken_entry : Env :=
  Examples.sample_env
    (fun _ => ReadOk "resources: [deployment.yaml, {path: service.yaml}, {path: 5}, ...]")
    (fun _ => Loaded (YDict broken_entry_doc)) (fun _ => []) [].

(** A generator entry whose [files] value is a list, one whose value is a
    number, and one whose value is a single string. *)
Definition generator_entry : list (yaml * yaml) :=
  [(YStr "name", YStr "settings");
   (YStr "files", YList [YStr "app.properties"; YInt 3; YStr "./conf/extra.properties"]);
   (YStr "path", YStr "ignored.yaml")].
Definition generator_entry_number : list (yaml * yaml) :=
  [(YStr "name", YStr "settings"); (YStr "files", YInt 3)].
Definition generator_entry_string : list (yaml * yaml) :=
  [(YStr "name", YStr "settings"); (YStr "files", YStr "a/b")].

(** A patch with a target. *)
Definition patch_entry : list (yaml * yaml) :=
  [(YStr "path", YStr "patch.yaml");
   (YStr "target", YDict [(YStr "kind", YStr "Deployment")])].
Definition patch_doc : list (yaml * yaml) :=
  [(YStr "patches", YList [YDict patch_entry])].
Definition env_patch : Env :=
  Examples.sample_env (fun _ => ReadOk "patches: [{path: patch.yaml, target: ...}]")
                      (fun _ => Loaded (YDict patch_doc)) (fun _ => []) [].

(** The malformed kustomization file of the examples, in a directory that
    also holds [sidecar.yaml]. *)
Definition env_malformed_tree : Env :=
  Examples.sample_env (fun _ => ReadOk Examples.malformed) (fun _ => LoadYAMLError)
    (fun p => if bool_decide (p = Examples.app_dir)
              then ["kustomization.yaml"; "sidecar.yaml"]
              else [])
    [["app"]].

(** A kustomization file that names [sidecar.yaml] and holds a date that
    does not exist: the loader raises [ValueError], which is no
    [YAMLError]. *)
Definition impossible_date : string :=
  "resources:" +:+ Main.NL +:+ "  - sidecar.yaml" +:+ Main.NL +:+ "  - 2001-13-45".
Definition env_impossible_date : Env :=
  Examples.sample_env (fun _ => ReadOk impossible_date)
                      (fun _ => LoadOtherError "month must be in 1..12")
                      (fun _ => []) [].

(** A kustomization file that is not valid YAML and names its file
    through the directory. *)
Definition malformed_dotted : string :=
  "resources:" +:+ Main.NL +:+ "  - ./sidecar.yaml" +:+ Main.NL +:+ "  bad: [".
Definition env_malformed_dotted : Env :=
  Examples.sample_env (fun _ => ReadOk malformed_dotted) (fun _ => LoadYAMLError)
                      (fun _ => []) [].





(** A tree in which the kustomization file references every YAML file
    beside it. *)
Definition env_clean : Env :=
  Examples.sample_env Examples.tree_read Examples.tree_load
    (fun p => if bool_decide (p = Examples.app_dir)
              then ["kustomization.yaml"; "deployment.yaml"; "README.md"]
              else [])
    [["app"]].

End Samples.

(** * Facts about the string primitives *)

Section StringFacts.

Lemma str_app_cons (c : ascii) (s t : string) :
  String c s +:+ t = String c (s +:+ t).
Proof. reflexivity. Qed.

Lemma str_app_nil_r (s : string) : s +:+ EmptyString = s.
Proof. induction s as [|c s IH]; [done|]. by rewrite str_app_cons, IH. Qed.

Lemma str_app_assoc (s t u : string) : (s +:+ t) +:+ u = s +:+ t +:+ u.
Proof. induction s as [|c s IH]; [done|]. by rewrite !str_app_cons, IH. Qed.

Lemma prefix_iff (p s : string) :
  String.prefix p s = true <-> exists rest, s = p +:+ rest.
Proof.
  revert s. induction p as [|c p IH]; intros [|d s]; simpl.
  - split; [intros _; by exists EmptyString | done].
  - split; [intros _; by exists (String d s) | done].
  - split; [done | intros [rest Hr]; discriminate].
  - destruct (ascii_dec c d) as [->|Hne].
    + rewrite IH. split; intros [rest Hr]; exists rest.
      * by rewrite Hr.
      * by injection Hr.
    + split; [done|]. intros [rest Hr]. injection Hr as Hc _. congruence.
Qed.

Lemma contains_iff (needle hay : string) :
  PyStr.contains needle hay = true <-> Substring needle hay.
Proof.
  unfold Substring. split.
  - induction hay as [|c hay IH]; cbn [PyStr.contains].
    + rewrite orb_false_r, prefix_iff. intros [rest Hr].
      exists EmptyString, rest. exact Hr.
    + rewrite orb_true_iff, prefix_iff. intros [[rest Hr]|Hc].
      * exists EmptyString, rest. exact Hr.
      * destruct (IH Hc) as (b & a & Hba). exists (String c b), a.
        change (String c b +:+ needle +:+ a) with (String c (b +:+ needle +:+ a)).
        by f_equal.
  - intros (b & a & ->). induction b as [|c b IH].
    + assert (String.prefix needle (needle +:+ a) = true) as Hp
        by (apply prefix_iff; by exists a).
      change (EmptyString +:+ needle +:+ a) with (needle +:+ a).
      destruct (needle +:+ a); cbn [PyStr.contains]; by rewrite Hp.
    + change (String c b +:+ needle +:+ a) with (String c (b +:+ needle +:+ a)).
      cbn [PyStr.contains]. rewrite IH. apply orb_true_r.
Qed.

Lemma contains_false_iff (needle hay : string) :
  PyStr.contains needle hay = false <-> ~ Substring needle hay.
Proof.
  rewrite <- contains_iff. destruct (PyStr.contains needle hay); naive_solver.
Qed.

Lemma any_in_iff (patterns : list string) (s : string) :
  PyStr.any_in patterns s = true <-> exists p, In p patterns /\ Substring p s.
Proof.
  unfold PyStr.any_in. rewrite existsb_exists.
  split; intros (p & Hin & Hp); exists p; split; auto; by apply contains_iff.
Qed.

Lemma any_in_false_iff (patterns : list string) (s : string) :
  PyStr.any_in patterns s = false <-> forall p, In p patterns -> ~ Substring p s.
Proof.
  split.
  - intros Hf p Hin Hs.
    assert (PyStr.any_in patterns s = true) by (apply any_in_iff; eauto).
    congruence.
  - intros Hall. destruct (PyStr.any_in patterns s) eqn:E; [|done].
    apply any_in_iff in E as (p & Hin & Hs). by destruct (Hall p Hin).
Qed.

End StringFacts.

(** * Classification *)

Section Classification.
Import UnreferencedFileAnalyzer.

Variable env : Env.

(** C1. A readable file whose content contains [IMPORTANT],
    [DO NOT DELETE] or [KEEP] as a literal substring is classified
    needs-review with the reason about important markers, whatever its
    name, its path and the rest of its content are: no later rule (Job
    rule, legacy path pattern, test/example/backup name) is consulted. *)
Theorem important_markers_dominate (fp : Path) (content marker : string) :
  env_read_text env fp = ReadOk content ->
  In marker ["IMPORTANT"; "DO NOT DELETE"; "KEEP"] ->
  Substring marker content ->
  analyze_file env fp =
    {| filepath := fp; status := NEEDS_REVIEW;
       reason := "Contains important markers" |}.
Proof.
  intros Hread Hin Hsub. unfold analyze_file. rewrite Hread.
  assert (PyStr.any_in IMPORTANT_MARKERS content = true) as ->; [|done].
  apply any_in_iff. by exists marker.
Qed.

(** C4. A readable file whose lower-cased name contains [test],
    [example], [sample], [.bak] or [.old], whose content has none of the
    important markers and which does not match the Job rule, is
    classified safe-to-remove. *)
Theorem test_patterns_safe_to_remove (fp : Path) (content pattern : string) :
  env_read_text env fp = ReadOk content ->
  In pattern ["test"; "example"; "sample"; ".bak"; ".old"] ->
  Substring pattern (PyStr.lower (PyPath.name fp)) ->
  (forall marker, In marker ["IMPORTANT"; "DO NOT DELETE"; "KEEP"] ->
                  ~ Substring marker content) ->
  ~ job_rule content fp ->
  status (analyze_file env fp) = SAFE_TO_REMOVE.
Proof.
  intros Hread Hin Hsub Hmark _. unfold analyze_file. rewrite Hread.
  assert (PyStr.any_in IMPORTANT_MARKERS content = false) as ->
    by by apply any_in_false_iff.
  assert (PyStr.any_in TEST_PATTERNS (PyStr.lower (PyPath.name fp)) = true) as ->
    by (apply any_in_iff; by exists pattern).
  by repeat case_match.
Qed.

(** C8. [analyze_file] returns a result for every path; when the file
    cannot be read the result is needs-review and its reason is
    [Error reading file: ] followed by the text of the read error, so
    that text occurs in the reason. *)
Theorem unreadable_file_needs_review (fp : Path) (e : string) :
  env_read_text env fp = ReadErr e ->
  analyze_file env fp =
    {| filepath := fp; status := NEEDS_REVIEW;
       reason := "Error reading file: " +:+ e |} /\
  Substring e (reason (analyze_file env fp)).
Proof.
  intros Hread. unfold analyze_file. rewrite Hread. split; [done|].
  exists "Error reading file: ", EmptyString. cbn [reason].
  by rewrite str_app_nil_r.
Qed.

End Classification.

Lemma important_markers_dominate_witness :
  UnreferencedFileAnalyzer.analyze_file Examples.env_marked Examples.job_test_file =
    {| filepath := Examples.job_test_file; status := NEEDS_REVIEW;
       reason := "Contains important markers" |}.
Proof.
  apply (important_markers_dominate Examples.env_marked Examples.job_test_file
           "kind: Job # KEEP" "KEEP").
  - reflexivity.
  - simpl. tauto.
  - by exists "kind: Job # ", EmptyString.
Defined.

Lemma test_patterns_safe_to_remove_witness :
  status (UnreferencedFileAnalyzer.analyze_file Examples.env_plain
            Examples.config_test_file) = SAFE_TO_REMOVE.
Proof.
  apply (test_patterns_safe_to_remove Examples.env_plain Examples.config_test_file
           "kind: ConfigMap" "test").
  - reflexivity.
  - simpl. tauto.
  - by exists "config-", ".yaml".
  - intros marker Hin. apply contains_false_iff.
    simpl in Hin. destruct Hin as [<-|[<-|[<-|[]]]]; reflexivity.
  - intros [Hjob _]. apply contains_iff in Hjob. by vm_compute in Hjob.
Defined.

Lemma unreadable_file_needs_review_witness :
  UnreferencedFileAnalyzer.analyze_file Examples.env_unreadable Examples.job_test_file =
    {| filepath := Examples.job_test_file; status := NEEDS_REVIEW;
       reason := "Error reading file: [Errno 13] Permission denied" |} /\
  Substring "[Errno 13] Permission denied"
    (reason (UnreferencedFileAnalyzer.analyze_file Examples.env_unreadable
               Examples.job_test_file)).
Proof.
  apply (unreadable_file_needs_review Examples.env_unreadable Examples.job_test_file
           "[Errno 13] Permission denied").
  reflexivity.
Defined.

(** * The regular-expression engine and the pattern of the script *)

#[local] Set Warnings "-clear-no-such-hyp".

Import Re ReSpec KustomizationParser.

Section EngineFacts.

Variable T : list ascii.

Lemma star_run_iff (p : ascii -> bool) (suf : list ascii) (i j : nat) :
  In j (star_run p suf i) <->
  (i <= j)%nat /\
  forall k, (i <= k < j)%nat -> exists c, suf !! (k - i)%nat = Some c /\ p c = true.
Proof.
  revert i. induction suf as [|c suf IH]; intros i; simpl.
  - split.
    + intros [<-|[]]. split; [lia|]. intros k Hk. lia.
    + intros [Hle Hall]. left. destruct (decide (i = j)) as [|Hne]; [done|].
      destruct (Hall i) as (c & Hc & _); [lia|]. by rewrite lookup_nil in Hc.
  - destruct (p c) eqn:Hp.
    + rewrite in_app_iff, IH. simpl. split.
      * intros [[Hle Hall]|[<-|[]]].
        -- split; [lia|]. intros k Hk. destruct (decide (k = i)) as [->|Hne].
           ++ exists c. by rewrite Nat.sub_diag.
           ++ destruct (Hall k) as (c' & Hc' & Hp'); [lia|]. exists c'.
              split; [|done]. by replace (k - i)%nat with (S (k - S i)) by lia.
        -- split; [lia|]. intros k Hk. lia.
      * intros [Hle Hall]. destruct (decide (i = j)) as [|Hne]; [by right; left|].
        left. split; [lia|]. intros k Hk.
        destruct (Hall k) as (c' & Hc' & Hp'); [lia|]. exists c'.
        split; [|done]. by replace (k - i)%nat with (S (k - S i)) in Hc' by lia.
    + simpl. split.
      * intros [<-|[]]. split; [lia|]. intros k Hk. lia.
      * intros [Hle Hall]. left. destruct (decide (i = j)) as [|Hne]; [done|].
        destruct (Hall i) as (c' & Hc' & Hp'); [lia|].
        rewrite Nat.sub_diag in Hc'. simpl in Hc'. congruence.
Qed.

Lemma star_run_drop (p : ascii -> bool) (i j : nat) :
  In j (star_run p (drop i T) i) <-> run T p i j.
Proof.
  rewrite star_run_iff. unfold run. split; intros [Hle Hall]; (split; [done|]);
    intros k Hk; destruct (Hall k Hk) as (c & Hc & Hp); exists c; (split; [|done]).
  - rewrite lookup_drop in Hc. by replace (i + (k - i))%nat with k in Hc by lia.
  - rewrite lookup_drop. by replace (i + (k - i))%nat with k by lia.
Qed.

Lemma exec_sem (r : regex) (st st' : mstate) :
  In st' (exec T r st) <-> sem T r st st'.
Proof.
  revert st st'. induction r as [| | |p|p|r1 IH1 r2 IH2|r1 IH1 r2 IH2|r1 IH1];
    intros st st'; simpl.
  - destruct (at_bol T (pos st)); simpl; naive_solver.
  - destruct (at_eol T (pos st)); simpl; naive_solver.
  - naive_solver.
  - destruct (T !! pos st) as [c|] eqn:E; [destruct (p c) eqn:Hp|]; simpl.
    + split; [intros [<-|[]]; split; [by exists c | done] | intros [_ ->]; by left].
    + split; [done | intros [(c' & Hc' & Hp') _]; congruence].
    + split; [done | intros [(c' & Hc' & _) _]; discriminate].
  - rewrite in_map_iff. setoid_rewrite star_run_drop. split.
    + by intros (j & <- & Hrun).
    + intros [Hrun Hg]. exists (pos st'). split; [|done].
      destruct st'; simpl in *; by subst.
  - rewrite in_flat_map. by setoid_rewrite IH1; setoid_rewrite IH2.
  - by rewrite in_app_iff, IH1, IH2.
  - rewrite in_map_iff. setoid_rewrite IH1. naive_solver.
Qed.


Lemma sem_Lit (c : ascii) (st st' : mstate) :
  sem T (Lit c) st st' <->
  T !! pos st = Some c /\ st' = {| pos := S (pos st); group1 := group1 st |}.
Proof.
  unfold Lit. cbn [sem]. split.
  - intros [(c' & Hc' & Heq) ->]. apply Ascii.eqb_eq in Heq as ->. done.
  - intros [Hc ->]. split; [|done]. exists c. split; [done|]. apply Ascii.eqb_refl.
Qed.

Lemma sem_Plus (p : ascii -> bool) (st st' : mstate) :
  sem T (Plus p) st st' <->
  (exists c, T !! pos st = Some c /\ p c = true) /\
  run T p (S (pos st)) (pos st') /\ group1 st' = group1 st.
Proof.
  unfold Plus. cbn [sem]. split.
  - intros (mid & [Hc ->] & Hrun & Hg). done.
  - intros (Hc & Hrun & Hg). eexists. split; [split; [done|reflexivity]|]. done.
Qed.

Lemma sem_Opt (r : regex) (st st' : mstate) :
  sem T (Opt r) st st' <-> sem T r st st' \/ st' = st.
Proof. reflexivity. Qed.

Lemma sem_Lit_Star (c : ascii) (p : ascii -> bool) (st st' : mstate) :
  sem T (Seq (Lit c) (Star p)) st st' <->
  T !! pos st = Some c /\ run T p (S (pos st)) (pos st') /\ group1 st' = group1 st.
Proof.
  cbn [sem]. setoid_rewrite sem_Lit. split.
  - by intros (mid & [Hc ->] & Hrun & Hg).
  - intros (Hc & Hrun & Hg). eexists. split; [split; [done|reflexivity]|]. done.
Qed.

Lemma run_cons (p : ascii -> bool) (a b : nat) (c : ascii) :
  T !! a = Some c -> p c = true -> run T p (S a) b -> run T p a b.
Proof.
  intros Hc Hp [Hle Hall]. split; [lia|]. intros k Hk.
  destruct (decide (k = a)) as [->|Hne]; [by exists c|]. apply Hall. lia.
Qed.

Lemma run_snoc (p : ascii -> bool) (a b : nat) (c : ascii) :
  run T p a b -> T !! b = Some c -> p c = true -> run T p a (S b).
Proof.
  intros [Hle Hall] Hc Hp. split; [lia|]. intros k Hk.
  destruct (decide (k = b)) as [->|Hne]; [by exists c|]. apply Hall. lia.
Qed.

Lemma run_le (p : ascii -> bool) (a b : nat) : run T p a b -> (a <= b)%nat.
Proof. by intros [Hle _]. Qed.

Lemma pattern_sound (i : nat) (m : mstate) :
  sem T pattern (start i) m ->
  exists d a b c1,
    at_bol T i = true /\ run T is_space i d /\ T !! d = Some "-"%char /\
    run T is_space (S d) a /\ run T name_char a b /\ (S a < b)%nat /\
    run T is_space b c1 /\
    (pos m = c1 \/ (T !! c1 = Some "#"%char /\ run T dot (S c1) (pos m))) /\
    at_eol T (pos m) = true /\ group1 m = Some (a, b).
Proof.
  unfold pattern. cbn [sem Lits].
  repeat setoid_rewrite sem_Lit. setoid_rewrite sem_Plus. setoid_rewrite sem_Opt.
  intros (s1 & [Hbol ->] & s2 & [Hsp1 Hg1] & s3 & [Hdash ->] & s4 & [Hsp2 Hg2]
          & s5 & (gE & Hgrp & ->) & s6 & [Hsp3 Hg3] & s7 & Hopt & Heol & ->).
  destruct Hgrp as (s8 & ((c0 & Hc0 & Hp0) & Hrun & Hg8) & s9 & [Hdot ->] & Hext).
  cbn [pos group1] in *.
  assert (run T name_char (pos s4) (S (pos s8))) as Hname
    by (eapply run_snoc; [by eapply run_cons| exact Hdot | reflexivity]).
  pose proof (run_le _ _ _ Hrun) as Hle.
  assert (run T name_char (pos s4) (pos gE) /\ (S (pos s4) < pos gE)%nat) as [Hgr Hlt].
  { destruct Hext as [Hext|Hext].
    - destruct Hext as (t1 & [Hy ->] & t2 & [Ha ->] & t3 & [Hm ->] & t4 & [Hl ->] & ->).
      cbn [pos] in *. split; [|lia].
      eapply run_snoc; [|exact Hl|done]. eapply run_snoc; [|exact Hm|done].
      eapply run_snoc; [|exact Ha|done]. eapply run_snoc; [|exact Hy|done]. done.
    - destruct Hext as (t1 & [Hy ->] & t2 & [Hm ->] & t3 & [Hl ->] & ->).
      cbn [pos] in *. split; [|lia].
      eapply run_snoc; [|exact Hl|done]. eapply run_snoc; [|exact Hm|done].
      eapply run_snoc; [|exact Hy|done]. done. }
  exists (pos s2), (pos s4), (pos gE), (pos s6).
  refine (conj Hbol (conj Hsp1 (conj Hdash (conj Hsp2 (conj Hgr (conj Hlt
          (conj Hsp3 (conj _ (conj Heol _))))))))).
  - destruct Hopt as [(Hhash & Hdots & _)%sem_Lit_Star | -> ];
      [right; by split | by left].
  - destruct Hopt as [(Hhash & Hdots & Hg)%sem_Lit_Star | -> ]; congruence.
Qed.

Lemma occurs_at_lookup (w : list ascii) (i j : nat) (c : ascii) :
  occurs_at T w i -> w !! j = Some c -> T !! (i + j)%nat = Some c.
Proof.
  unfold occurs_at. intros Hw Hj. rewrite <- Hw in Hj.
  apply lookup_take_Some in Hj as [Hj _]. by rewrite lookup_drop in Hj.
Qed.

Lemma pattern_complete (i d a b' b c1 e : nat) (ext : list ascii) :
  at_bol T i = true -> run T is_space i d -> T !! d = Some "-"%char ->
  run T is_space (S d) a ->
  (exists c, T !! a = Some c /\ name_char c = true) ->
  run T name_char (S a) b' -> T !! b' = Some "."%char ->
  occurs_at T ext (S b') ->
  ext = list_ascii_of_string "yaml" \/ ext = list_ascii_of_string "yml" ->
  b = (S b' + length ext)%nat ->
  run T is_space b c1 ->
  (e = c1 \/ (T !! c1 = Some "#"%char /\ run T dot (S c1) e)) ->
  at_eol T e = true ->
  sem T pattern (start i) {| pos := e; group1 := Some (a, b) |}.
Proof.
  intros Hbol Hsp1 Hdash Hsp2 Hfirst Hname Hdot Hocc Hext -> Hsp3 Hopt Heol.
  unfold pattern. cbn [sem Lits].
  repeat setoid_rewrite sem_Lit. setoid_rewrite sem_Plus. setoid_rewrite sem_Opt.
  exists (start i). split; [done|].
  exists {| pos := d; group1 := None |}. split; [done|].
  eexists. split; [split; [exact Hdash | reflexivity]|].
  exists {| pos := a; group1 := None |}. split; [done|]. cbn [pos group1].
  exists {| pos := S b' + length ext; group1 := Some (a, S b' + length ext)%nat |}.
  split.
  { exists {| pos := S b' + length ext; group1 := None |}. split; [|done].
    exists {| pos := b'; group1 := None |}. split; [done|].
    eexists. split; [split; [exact Hdot | reflexivity]|]. cbn [pos group1].
    assert (forall j c, ext !! j = Some c -> T !! (S b' + j)%nat = Some c) as Hl
      by (intros j c; by apply occurs_at_lookup).
    destruct Hext as [->| ->]; [left|right]; cbn [length list_ascii_of_string].
    - pose proof (Hl 0%nat _ eq_refl) as H0. pose proof (Hl 1%nat _ eq_refl) as H1.
      pose proof (Hl 2%nat _ eq_refl) as H2. pose proof (Hl 3%nat _ eq_refl) as H3.
      replace (S b' + 0)%nat with (S b') in H0 by lia.
      replace (S b' + 1)%nat with (S (S b')) in H1 by lia.
      replace (S b' + 2)%nat with (S (S (S b'))) in H2 by lia.
      replace (S b' + 3)%nat with (S (S (S (S b')))) in H3 by lia.
      replace (S b' + 4)%nat with (S (S (S (S (S b'))))) by lia.
      repeat (eexists; split; [split; [eassumption | reflexivity]|]; cbn [pos group1]).
      reflexivity.
    - pose proof (Hl 0%nat _ eq_refl) as H0. pose proof (Hl 1%nat _ eq_refl) as H1.
      pose proof (Hl 2%nat _ eq_refl) as H2.
      replace (S b' + 0)%nat with (S b') in H0 by lia.
      replace (S b' + 1)%nat with (S (S b')) in H1 by lia.
      replace (S b' + 2)%nat with (S (S (S b'))) in H2 by lia.
      replace (S b' + 3)%nat with (S (S (S (S b')))) by lia.
      repeat (eexists; split; [split; [eassumption | reflexivity]|]; cbn [pos group1]).
      reflexivity. }
  exists {| pos := c1; group1 := Some (a, S b' + length ext)%nat |}. split; [done|].
  exists {| pos := e; group1 := Some (a, S b' + length ext)%nat |}. split; [|done].
  destruct Hopt as [->|[Hhash Hdots]]; [by right|left].
  by apply sem_Lit_Star.
Qed.


Lemma match_at_sem (r : regex) (i : nat) (m : mstate) :
  match_at T r i = Some m -> sem T r (start i) m.
Proof.
  unfold match_at. intros Hh. apply exec_sem. fold (start i) in Hh.
  destruct (exec T r (start i)) as [|m' l]; simplify_eq/=. by left.
Qed.

Lemma match_at_none (r : regex) (i : nat) :
  match_at T r i = None -> forall m, ~ sem T r (start i) m.
Proof.
  unfold match_at. intros Hh m Hsem%exec_sem. fold (start i) in Hh.
  destruct (exec T r (start i)) as [|m' l]; simplify_eq/=. done.
Qed.

Lemma match_nonempty (i : nat) (m : mstate) :
  sem T pattern (start i) m -> (i < pos m)%nat.
Proof.
  intros (d' & a & b & c1 & Hb & Hsp1 & Hd' & Hsp2 & Hnm & Hlt & Hsp3
          & Hopt & Heol & Hg)%pattern_sound.
  pose proof (run_le _ _ _ Hsp1). pose proof (run_le _ _ _ Hsp2).
  pose proof (run_le _ _ _ Hsp3).
  destruct Hopt as [->|[_ Hdots%run_le]]; lia.
Qed.

Lemma run_at (p : ascii -> bool) (i j k : nat) :
  run T p i j -> (i <= k < j)%nat -> exists c, T !! k = Some c /\ p c = true.
Proof. intros [_ Hall]. apply Hall. Qed.

Lemma at_bol_newline (i : nat) :
  at_bol T (S i) = true -> T !! i = Some newline.
Proof.
  cbn [at_bol]. destruct (T !! i) as [c|]; [|done].
  intros Heq. apply Ascii.eqb_eq in Heq. by subst.
Qed.

Lemma at_eol_cases (i : nat) :
  at_eol T i = true -> T !! i = None \/ T !! i = Some newline.
Proof.
  unfold at_eol. destruct (T !! i) as [c|]; [|by left].
  intros Heq. apply Ascii.eqb_eq in Heq. subst. by right.
Qed.

End EngineFacts.

Lemma blank_props (c : ascii) :
  Line.blank c = true ->
  is_space c = true /\ c <> newline /\ c <> "#"%char /\ c <> "-"%char.
Proof.
  unfold Line.blank. intros [Hs Hn]%andb_true_iff. split; [done|].
  split; [|split]; intros ->; by vm_compute in Hs, Hn.
Qed.

Lemma name_char_not_space (c : ascii) : name_char c = true -> is_space c = false.
Proof.
  unfold name_char. rewrite negb_true_iff, !orb_false_iff. tauto.
Qed.

Section ItemLine.
Variable T : list ascii.
Variables p d a0 b0 : nat.
Hypothesis Hbol : at_bol T p = true.
Hypothesis Hindent : run T Line.blank p d.
Hypothesis Hdash : T !! d = Some "-"%char.
Hypothesis Hgap : run T is_space (S d) a0.
Hypothesis Hgap_ne : (S d < a0)%nat.
Hypothesis Hname : run T name_char a0 b0.
Hypothesis Hname_ne : (a0 < b0)%nat.
Hypothesis Hend :
  T !! b0 = None \/ exists c, T !! b0 = Some c /\ name_char c = false.

Ltac char_clash :=
  simplify_eq;
  try match goal with H : _ = true |- _ => by vm_compute in H end.

Ltac at_pos H k :=
  let c := fresh "c" in let Hc := fresh "Hc" in let Hp := fresh "Hp" in
  destruct (run_at T _ _ _ k H) as (c & Hc & Hp); [lia|].

Lemma earlier_match_stops_before (s : nat) (m : mstate) :
  (s <= p)%nat -> sem T pattern (start s) m ->
  group1 m = Some (a0, b0) \/ (pos m <= p)%nat.
Proof.
  intros Hs (d' & a & b & c1 & Hb & Hsp1 & Hd' & Hsp2 & Hnm & Hlt & Hsp3
             & Hopt & Heol & Hg)%pattern_sound.
  destruct Hindent as [Hpd Hblank].
  pose proof (run_le T _ _ _ Hsp1). pose proof (run_le T _ _ _ Hsp2).
  pose proof (run_le T _ _ _ Hsp3). pose proof (run_le T _ _ _ Hgap).
  assert (d' <= d)%nat as Hd'd.
  { destruct (decide (d' <= d)%nat) as [|Hn]; [done|]. exfalso.
    at_pos Hsp1 d. by simplify_eq. }
  destruct (decide (d' = d)) as [->|Hne].
  - left. assert (a = a0) as ->.
    { destruct (decide (a0 < a)%nat).
      { exfalso. at_pos Hsp2 a0. at_pos Hname a0. simplify_eq.
        apply name_char_not_space in Hp0. congruence. }
      destruct (decide (a < a0)%nat); [|lia].
      exfalso. at_pos Hgap a. at_pos Hnm a. simplify_eq.
      apply name_char_not_space in Hp0. congruence. }
    assert (b = b0) as ->; [|done].
    destruct (decide (b0 < b)%nat).
    { exfalso. at_pos Hnm b0. destruct Hend as [?|(c' & ? & ?)]; simplify_eq.
      congruence. }
    destruct (decide (b < b0)%nat); [|lia]. exfalso.
    at_pos Hname b. assert (c1 = b) as ->.
    { destruct (decide (b < c1)%nat); [|destruct Hsp3; lia].
      at_pos Hsp3 b. simplify_eq. apply name_char_not_space in Hp. congruence. }
    destruct Hopt as [Hpm|[Hhash _]].
    + rewrite Hpm in Heol. apply at_eol_cases in Heol as [?|?]; simplify_eq.
    + simplify_eq.
  - right. assert (d' < p)%nat as Hd'p.
    { destruct (decide (d' < p)%nat); [done|]. exfalso.
      destruct (Hblank d') as (c & Hc & Hbl); [lia|]. char_clash. }
    destruct p as [|q]; [lia|]. pose proof (at_bol_newline T q Hbol) as Hnl.
    assert (a < q)%nat as Haq.
    { at_pos Hnm a. destruct (decide (d < a)%nat).
      { exfalso. at_pos Hsp2 d. char_clash. }
      destruct (decide (a = d)) as [->|].
      { exfalso. at_pos Hnm (S d). at_pos Hgap (S d). simplify_eq.
        apply name_char_not_space in Hp0. congruence. }
      destruct (decide (S q <= a)%nat).
      { exfalso. destruct (Hblank a) as (c' & Hc' & Hbl); [lia|]. simplify_eq.
        apply blank_props in Hbl as [Hsp _]. apply name_char_not_space in Hp.
        congruence. }
      destruct (decide (a = q)) as [->|]; [|lia]. exfalso. char_clash. }
    assert (b <= q)%nat as Hbq.
    { destruct (decide (b <= q)%nat); [done|]. exfalso. at_pos Hnm q.
      char_clash. }
    assert (c1 <= d)%nat as Hc1d.
    { destruct (decide (c1 <= d)%nat); [done|]. exfalso. at_pos Hsp3 d.
      char_clash. }
    assert (forall k, (S q <= k <= d)%nat ->
              exists c, T !! k = Some c /\ c <> newline /\ c <> "#"%char) as Hzone.
    { intros k Hk. destruct (decide (k = d)) as [->|].
      - exists "-"%char. by split.
      - destruct (Hblank k) as (c & Hc & Hbl); [lia|]. exists c.
        apply blank_props in Hbl. naive_solver. }
    destruct Hopt as [Hpm|[Hhash Hdots]].
    + rewrite Hpm. destruct (decide (c1 <= S q)%nat); [done|]. exfalso.
      destruct (Hzone c1) as (c & Hc & Hn1 & _); [lia|].
      rewrite Hpm in Heol. apply at_eol_cases in Heol as [?|?]; simplify_eq.
    + pose proof (run_le T _ _ _ Hdots). assert (c1 < q)%nat.
      { destruct (decide (S q <= c1)%nat).
        { exfalso. destruct (Hzone c1) as (c & Hc & _ & Hn2); [lia|]. simplify_eq. }
        destruct (decide (c1 = q)) as [->|]; [|lia]. simplify_eq. }
      destruct (decide (pos m <= S q)%nat); [done|]. exfalso.
      at_pos Hdots q. char_clash.
Qed.

Hypothesis Hcomplete : exists m, sem T pattern (start p) m.

Lemma scan_finds_item (n s next_ok : nat) :
  (s <= p)%nat -> (next_ok <= p)%nat -> (p < s + n)%nat ->
  exists m, In m (scan T pattern (seq s n) next_ok) /\ group1 m = Some (a0, b0).
Proof.
  revert s next_ok. induction n as [|n IH]; intros s next_ok Hs Hok Hn; [lia|].
  cbn [seq scan]. destruct (s <? next_ok)%nat eqn:Hlt.
  { apply Nat.ltb_lt in Hlt. apply IH; lia. }
  destruct (match_at T pattern s) as [m|] eqn:Hm.
  - pose proof (match_at_sem T _ _ _ Hm) as Hsem.
    pose proof (match_nonempty T _ _ Hsem) as Hpos.
    destruct (earlier_match_stops_before s m Hs Hsem) as [Hg|Hle].
    + exists m. split; [by left | done].
    + destruct (IH (S s) (Nat.max (pos m) (S s))) as (m' & Hin & Hg'); [lia..|].
      exists m'. split; [by right | done].
  - destruct (decide (s = p)) as [->|Hne].
    + destruct Hcomplete as [m Hsem]. by destruct (match_at_none T _ _ Hm m).
    + apply IH; lia.
Qed.

Lemma finditer_finds_item :
  exists m, In m (finditer T pattern) /\ group1 m = Some (a0, b0).
Proof.
  unfold finditer. pose proof (run_le T _ _ _ Hindent).
  apply scan_finds_item; [lia..|].
  apply lookup_lt_Some in Hdash. lia.
Qed.

End ItemLine.

(** From the text of a line to positions in the subject. *)

Section Segments.
Variable T : list ascii.

Lemma run_segment (p : ascii -> bool) (A W B : list ascii) :
  T = A ++ W ++ B -> Forall (fun c => p c = true) W ->
  run T p (length A) (length A + length W).
Proof.
  intros -> HW. split; [lia|]. intros k Hk.
  rewrite lookup_app_r by lia. rewrite lookup_app_l by lia.
  destruct (lookup_lt_is_Some_2 W (k - length A)) as [c Hc]; [lia|].
  exists c. split; [done|]. by eapply (Forall_lookup_1 _ _ _ _ HW).
Qed.

Lemma lookup_segment (A B : list ascii) (c : ascii) :
  T = A ++ c :: B -> T !! length A = Some c.
Proof. intros ->. by rewrite list_lookup_middle. Qed.

Lemma lookup_segment_end (A : list ascii) : T = A -> T !! length A = None.
Proof. intros ->. by apply lookup_ge_None. Qed.

Lemma occurs_at_segment (A W B : list ascii) :
  T = A ++ W ++ B -> occurs_at T W (length A).
Proof.
  intros ->. unfold occurs_at. by rewrite drop_app_length, take_app_length.
Qed.

Lemma run_tail (p : ascii -> bool) (a b : nat) :
  (a < b)%nat -> run T p a b -> run T p (S a) b.
Proof. intros Hab [_ Hall]. split; [lia|]. intros k Hk. apply Hall. lia. Qed.

Lemma run_weaken (p q : ascii -> bool) (a b : nat) :
  (forall c, p c = true -> q c = true) -> run T p a b -> run T q a b.
Proof.
  intros Hpq [Hle Hall]. split; [done|]. intros k Hk.
  destruct (Hall k Hk) as (c & Hc & Hp). exists c. auto.
Qed.

End Segments.

Lemma la_app (s t : string) :
  list_ascii_of_string (s +:+ t) = list_ascii_of_string s ++ list_ascii_of_string t.
Proof. induction s as [|c s IH]; [done|]. rewrite str_app_cons. simpl. by rewrite IH. Qed.

Lemma all_chars_Forall (p : ascii -> bool) (s : string) :
  Line.all_chars p s -> Forall (fun c => p c = true) (list_ascii_of_string s).
Proof.
  induction s as [|c s IH]; simpl; [by constructor|].
  intros [Hc Hs]. constructor; auto.
Qed.

Ltac norm_app :=
  repeat (progress (rewrite <- ?app_assoc; cbn [app])); reflexivity.
Ltac solve_len := repeat (progress (rewrite ?length_app; cbn [length])); lia.

Section SegmentsAt.
Variable T : list ascii.

Lemma run_segment_at (p : ascii -> bool) (A W B : list ascii) (i j : nat) :
  T = A ++ W ++ B -> Forall (fun c => p c = true) W ->
  i = length A -> j = (length A + length W)%nat -> run T p i j.
Proof. intros HT HW -> ->. by eapply run_segment. Qed.

Lemma lookup_segment_at (A B : list ascii) (c : ascii) (i : nat) :
  T = A ++ c :: B -> i = length A -> T !! i = Some c.
Proof. intros HT ->. by eapply lookup_segment. Qed.

Lemma occurs_at_segment_at (A W B : list ascii) (i : nat) :
  T = A ++ W ++ B -> i = length A -> occurs_at T W i.
Proof. intros HT ->. by eapply occurs_at_segment. Qed.

End SegmentsAt.

Lemma blank_is_space (c : ascii) : Line.blank c = true -> is_space c = true.
Proof. by intros [? _]%blank_props. Qed.

Lemma Forall_blank_space (l : list ascii) :
  Forall (fun c => Line.blank c = true) l -> Forall (fun c => is_space c = true) l.
Proof. intros H. eapply Forall_impl; [exact H|]. intros c. apply blank_is_space. Qed.

Lemma finditer_list_item (pre line post stem ext : string) :
  Line.starts_line_after pre -> Line.ends_line_before post ->
  Line.list_item line stem ext ->
  let T := list_ascii_of_string (pre +:+ line +:+ post) in
  exists m, In m (finditer T pattern) /\
            group T m = Some (list_ascii_of_string (stem +:+ "." +:+ ext)).
Proof.
  intros Hpre Hpost
    (indent & gap & trail & remark & -> & Hind & Hgap & Hgne & Hstem & Hsne
     & Hext & Htrail & Hrem) T.
  apply all_chars_Forall in Hind, Hgap, Hstem, Htrail.
  set (P := list_ascii_of_string pre) in *.
  set (I := list_ascii_of_string indent) in *.
  set (G := list_ascii_of_string gap) in *.
  set (St := list_ascii_of_string stem) in *.
  set (E := list_ascii_of_string ext) in *.
  set (R := list_ascii_of_string trail) in *.
  set (C := list_ascii_of_string remark) in *.
  set (Q := list_ascii_of_string post) in *.
  assert (T = P ++ I ++ "-"%char :: G ++ St ++ "."%char :: E ++ R ++ C ++ Q) as HT.
  { subst T. rewrite !la_app. cbn [list_ascii_of_string]. norm_app. }
  assert (Forall (fun c => name_char c = true) E) as HE.
  { subst E. destruct Hext as [-> | ->]; repeat constructor. }
  assert (E = list_ascii_of_string "yaml" \/ E = list_ascii_of_string "yml") as HE'.
  { subst E. destruct Hext as [-> | ->]; auto. }
  assert (0 < length G)%nat as HGne.
  { subst G. destruct gap; [done|]. simpl. lia. }
  assert (0 < length St)%nat as HSne.
  { subst St. destruct stem; [done|]. simpl. lia. }
  assert (P = [] \/ exists P', P = P' ++ [newline]) as HP.
  { subst P. destruct Hpre as [->|[t ->]]; [by left|right].
    exists (list_ascii_of_string t). by rewrite la_app. }
  assert (Q = [] \/ exists Q', Q = newline :: Q') as HQ.
  { subst Q. destruct Hpost as [->|[t ->]]; [by left|right].
    exists (list_ascii_of_string t). by rewrite la_app. }
  assert (C = [] \/ exists C', C = "#"%char :: C' /\
                                Forall (fun c => dot c = true) C') as HC.
  { subst C. destruct Hrem as [->|(t & -> & Ht)]; [by left|right].
    exists (list_ascii_of_string t). rewrite la_app. split; [done|].
    by apply all_chars_Forall. }
  assert (list_ascii_of_string (stem +:+ "." +:+ ext) = St ++ "."%char :: E) as HN.
  { by rewrite !la_app. }
  rewrite HN. clear HN Hpre Hpost Hrem Hext Hgne Hsne.
  clearbody T P I G St E R C Q.
  set (p := length P). set (d := (p + length I)%nat).
  set (a0 := (S d + length G)%nat). set (b' := (a0 + length St)%nat).
  set (b0 := (S b' + length E)%nat). set (c1 := (b0 + length R)%nat).
  set (e := (c1 + length C)%nat).
  assert (at_bol T p = true) as Hbol.
  { destruct HP as [->|[P' ->]]; [done|]. subst p. rewrite length_app.
    cbn [length]. replace (length P' + 1)%nat with (S (length P')) by lia.
    cbn [at_bol].
    rewrite (lookup_segment_at T P'
               (I ++ "-"%char :: G ++ St ++ "."%char :: E ++ R ++ C ++ Q)
               newline (length P')); [done| |done].
    rewrite HT. norm_app. }
  assert (run T Line.blank p d) as Hrun_indent.
  { eapply (run_segment_at T _ P I); [rewrite HT; norm_app|done|done|done]. }
  assert (T !! d = Some "-"%char) as Hdash.
  { eapply (lookup_segment_at T (P ++ I)); [rewrite HT; norm_app|]. subst d p. solve_len. }
  assert (run T is_space (S d) a0) as Hrun_gap.
  { eapply (run_segment_at T _ (P ++ I ++ ["-"%char]) G);
      [rewrite HT; norm_app|by apply Forall_blank_space| |]; subst a0 d p; solve_len. }
  assert (run T name_char a0 b') as Hrun_stem.
  { eapply (run_segment_at T _ (P ++ I ++ "-"%char :: G) St);
      [rewrite HT; norm_app|done| |]; subst b' a0 d p; solve_len. }
  assert (T !! b' = Some "."%char) as Hdot.
  { eapply (lookup_segment_at T (P ++ I ++ "-"%char :: G ++ St));
      [rewrite HT; norm_app|]. subst b' a0 d p. solve_len. }
  assert (occurs_at T E (S b')) as Hocc_ext.
  { eapply (occurs_at_segment_at T (P ++ I ++ "-"%char :: G ++ St ++ ["."%char]) E);
      [rewrite HT; norm_app|]. subst b' a0 d p. solve_len. }
  assert (run T name_char (S b') b0) as Hrun_ext.
  { eapply (run_segment_at T _ (P ++ I ++ "-"%char :: G ++ St ++ ["."%char]) E);
      [rewrite HT; norm_app|done| |]; subst b0 b' a0 d p; solve_len. }
  assert (occurs_at T (St ++ "."%char :: E) a0) as Hocc_name.
  { eapply (occurs_at_segment_at T (P ++ I ++ "-"%char :: G) (St ++ "."%char :: E));
      [rewrite HT; norm_app|]. subst a0 d p. solve_len. }
  assert (run T is_space b0 c1) as Hrun_trail.
  { eapply (run_segment_at T _ (P ++ I ++ "-"%char :: G ++ St ++ "."%char :: E) R);
      [rewrite HT; norm_app|by apply Forall_blank_space| |];
      subst c1 b0 b' a0 d p; solve_len. }
  assert (run T name_char a0 b0) as Hrun_name.
  { eapply (run_segment_at T _ (P ++ I ++ "-"%char :: G) (St ++ "."%char :: E));
      [rewrite HT; norm_app| | |]; [|subst a0 d p; solve_len
                                    |subst b0 b' a0 d p; solve_len].
    apply Forall_app. split; [done|]. by constructor. }
  assert (T !! b0 = None \/ exists c, T !! b0 = Some c /\ name_char c = false) as Hend.
  { assert (length (P ++ I ++ "-"%char :: G ++ St ++ "."%char :: E) = b0) as Hlen
      by (subst b0 b' a0 d p; solve_len).
    assert (forall c X, R ++ C ++ Q = c :: X -> T !! b0 = Some c) as Hnext.
    { intros c X HX. eapply (lookup_segment_at T _ X); [|by symmetry].
      rewrite HT, <- HX. norm_app. }
    destruct R as [|r R'].
    - destruct HC as [->|(C' & -> & _)].
      + destruct HQ as [->|[Q' ->]].
        * left. apply lookup_ge_None. rewrite HT. rewrite <- Hlen. solve_len.
        * right. exists newline. split; [by eapply Hnext|done].
      + right. exists "#"%char. split; [by eapply Hnext|done].
    - right. exists r. split; [by eapply Hnext|].
      apply Forall_cons in Htrail as [Hr%blank_is_space _].
      unfold name_char. rewrite Hr. by rewrite orb_true_r. }
  assert (exists m, sem T pattern (start p) m) as Hcomplete.
  { exists {| pos := e; group1 := Some (a0, b0) |}.
    refine (pattern_complete T p d a0 b' b0 c1 e E Hbol _ Hdash Hrun_gap _ _ Hdot
              Hocc_ext HE' eq_refl Hrun_trail _ _).
    - eapply run_weaken; [|exact Hrun_indent]. apply blank_is_space.
    - apply (run_at T _ _ _ a0 Hrun_stem). subst b'. lia.
    - apply run_tail; [subst b'; lia | done].
    - destruct HC as [->|(C' & -> & HC')]; [left; subst e; simpl; lia | right].
      split.
      + eapply (lookup_segment_at T (P ++ I ++ "-"%char :: G ++ St ++ "."%char :: E ++ R));
          [rewrite HT; norm_app|]. subst c1 b0 b' a0 d p. solve_len.
      + eapply (run_segment_at T _
                  (P ++ I ++ "-"%char :: G ++ St ++ "."%char :: E ++ R ++ ["#"%char]) C');
          [rewrite HT; norm_app|done| |]; subst e c1 b0 b' a0 d p; solve_len.
    - assert (length (P ++ I ++ "-"%char :: G ++ St ++ "."%char :: E ++ R ++ C) = e)
        as Hlen by (subst e c1 b0 b' a0 d p; solve_len).
      unfold at_eol. destruct HQ as [->|[Q' ->]].
      + rewrite (proj2 (lookup_ge_None T e)); [done|].
        rewrite HT, <- Hlen. solve_len.
      + rewrite (lookup_segment_at T
                   (P ++ I ++ "-"%char :: G ++ St ++ "."%char :: E ++ R ++ C) Q' newline e);
          [done| |done]. rewrite HT. norm_app. }
  destruct (finditer_finds_item T p d a0 b0) as (m & Hin & Hg); try done.
  { subst a0. lia. }
  { subst b0 b'. lia. }
  exists m. split; [done|]. unfold group. rewrite Hg. f_equal.
  replace (b0 - a0)%nat with (length (St ++ "."%char :: E))
    by (subst b0 b'; solve_len).
  exact Hocc_name.
Qed.

(** * The reference set *)

Section MonadFacts.
Variable Q : string -> Prop.

Lemma preserves_ret {A} (a : A) : preserves Q (ret a).
Proof. by intros refs H. Qed.

Lemma preserves_raise {A} (e : exn) : preserves Q (@raise A e).
Proof. by intros refs H. Qed.

Lemma preserves_add (s : string) : Q s -> preserves Q (add s).
Proof.
  intros Hs refs H x. cbn. rewrite elem_of_union, elem_of_singleton.
  intros [->|Hx]; auto.
Qed.

Lemma preserves_bind {A B} (m : M A) (k : A -> M B) :
  preserves Q m -> (forall a, preserves Q (k a)) -> preserves Q (bind m k).
Proof.
  intros Hm Hk refs H. unfold bind. specialize (Hm refs H).
  destruct (m refs) as [refs' [a|e]]; cbn in *; [by apply Hk | done].
Qed.

Lemma preserves_for_each {A} (l : list A) (body : A -> M unit) :
  (forall x, preserves Q (body x)) -> preserves Q (for_each l body).
Proof.
  intros Hbody. induction l as [|x l IH]; cbn [for_each].
  - apply preserves_ret.
  - apply preserves_bind; auto.
Qed.

End MonadFacts.

Lemma for_each_add_spec {A} (f : A -> option string) (l : list A)
    (body : A -> M unit) (refs : gset string) :
  (forall m, body m = match f m with Some g => add g | None => ret tt end) ->
  exists refs', for_each l body refs = (refs', Done tt) /\
    forall x, x ∈ refs' <-> x ∈ refs \/ exists m, In m l /\ f m = Some x.
Proof.
  intros Hbody. revert refs. induction l as [|m l IH]; intros refs; cbn [for_each].
  - exists refs. split; [done|]. intros x. split; [auto|]. by intros [?|(m & [] & _)].
  - unfold bind. rewrite Hbody. destruct (f m) as [g|] eqn:Hf; cbn.
    + destruct (IH ({[g]} ∪ refs)) as (refs' & -> & Hiff). exists refs'.
      split; [done|]. intros x. rewrite Hiff, elem_of_union, elem_of_singleton.
      split.
      * intros [[->|Hx]|(m' & Hin & Hm')]; eauto 6.
      * intros [Hx|(m' & [<-|Hin] & Hm')]; [auto| |eauto].
        left. left. congruence.
    + destruct (IH refs) as (refs' & -> & Hiff). exists refs'.
      split; [done|]. intros x. rewrite Hiff. split.
      * intros [Hx|(m' & Hin & Hm')]; eauto 6.
      * intros [Hx|(m' & [<-|Hin] & Hm')]; [auto|congruence|eauto].
Qed.

(** What the fallback adds: the text of group 1 of every match. *)
Lemma parse_regex_references_spec (content : string) (refs : gset string) :
  exists refs', _parse_regex_references content refs = (refs', Done tt) /\
    forall x, x ∈ refs' <->
      x ∈ refs \/
      exists m, In m (finditer (list_ascii_of_string content) pattern) /\
                group (list_ascii_of_string content) m = Some (list_ascii_of_string x).
Proof.
  unfold _parse_regex_references.
  set (T := list_ascii_of_string content).
  destruct (for_each_add_spec (fun m => string_of_list_ascii <$> group T m)
              (finditer T pattern)
              (fun m => match group T m with
                        | Some g => add (string_of_list_ascii g)
                        | None => ret tt
                        end) refs) as (refs' & Heq & Hiff).
  { intros m. by destruct (group T m). }
  exists refs'. split; [done|]. intros x. rewrite Hiff.
  split; (intros [Hx|(m & Hin & Hm)]; [by left|right; exists m; split; [done|]]).
  - destruct (group T m) as [g|]; simplify_eq/=.
    by rewrite list_ascii_of_string_of_list_ascii.
  - rewrite Hm. cbn. by rewrite string_of_list_ascii_of_string.
Qed.

Section Fallback.
Variable env : Env.

(** C5, as the code has it. When the file can be read and
    [yaml.safe_load] raises a [YAMLError], [get_referenced_files] prints
    nothing and returns the set built by the line pattern: exactly the
    texts of group 1 of the matches of the pattern. Every line of the
    content made of indentation, a dash, at least one blank, a bare file
    name [stem.yaml] or [stem.yml] of characters other than [/], white
    space and [#], then blanks and an optional comment, has its file name
    in that set; in particular the line [  - sidecar.yaml] yields
    [sidecar.yaml]. *)
Theorem fallback_on_malformed_yaml (kustomization_path : Path) (content : string) :
  env_read_text env kustomization_path = ReadOk content ->
  env_safe_load env content = LoadYAMLError ->
  exists refs,
    get_referenced_files env kustomization_path = (refs, []) /\
    (forall x, x ∈ refs <->
       exists m, In m (finditer (list_ascii_of_string content) pattern) /\
                 group (list_ascii_of_string content) m
                 = Some (list_ascii_of_string x)) /\
    (forall pre line post stem ext,
       content = pre +:+ line +:+ post ->
       Line.starts_line_after pre -> Line.ends_line_before post ->
       Line.list_item line stem ext ->
       stem +:+ "." +:+ ext ∈ refs) /\
    (forall pre post,
       content = pre +:+ "  - sidecar.yaml" +:+ post ->
       Line.starts_line_after pre -> Line.ends_line_before post ->
       "sidecar.yaml" ∈ refs).
Proof.
  intros Hread Hload. unfold get_referenced_files. rewrite Hread, Hload.
  destruct (parse_regex_references_spec content ∅) as (refs & -> & Hiff).
  exists refs. split; [done|].
  assert (forall x, x ∈ refs <->
            exists m, In m (finditer (list_ascii_of_string content) pattern) /\
                      group (list_ascii_of_string content) m
                      = Some (list_ascii_of_string x)) as Hrefs.
  { intros x. rewrite Hiff. split; [|auto]. intros [Hx|Hm]; [|done].
    by apply not_elem_of_empty in Hx. }
  assert (forall pre line post stem ext,
            content = pre +:+ line +:+ post ->
            Line.starts_line_after pre -> Line.ends_line_before post ->
            Line.list_item line stem ext ->
            stem +:+ "." +:+ ext ∈ refs) as Hitems.
  { intros pre line post stem ext -> Hpre Hpost Hitem. apply Hrefs.
    by apply finditer_list_item. }
  split; [done|]. split; [done|].
  intros pre post Hc Hpre Hpost.
  apply (Hitems pre "  - sidecar.yaml" post "sidecar" "yaml" Hc Hpre Hpost).
  exists "  ", " ", EmptyString, EmptyString.
  repeat split; try done; by left.
Qed.

End Fallback.

Lemma fallback_on_malformed_yaml_witness :
  "sidecar.yaml" ∈ (get_referenced_files Examples.env_malformed Examples.kustomization).1.
Proof.
  destruct (fallback_on_malformed_yaml Examples.env_malformed Examples.kustomization
              Examples.malformed eq_refl eq_refl) as (refs & Heq & _ & _ & Hside).
  rewrite Heq. apply (Hside ("resources:" +:+ Main.NL) (Main.NL +:+ "  bad: [")).
  - reflexivity.
  - right. by exists "resources:".
  - right. by exists "  bad: [".
Defined.

(** C5, as stated, fails, in two ways. The fallback is the handler of
    [yaml.YAMLError] only: where the loader fails with another exception
    (here [ValueError], for a date that does not exist), the parse error
    is printed, the pattern is not tried, and the line [  - sidecar.yaml]
    of the text leaves no name in the set. And on the fallback path a
    list-item line that names its file through the directory,
    [  - ./sidecar.yaml], matches nothing: the set is empty. *)
Lemma fallback_is_not_applied_to_every_failure :
  ~ (forall (env : Env) (kustomization_path : Path) (content : string),
       env_read_text env kustomization_path = ReadOk content ->
       (forall data, env_safe_load env content <> Loaded data) ->
       forall pre post,
         content = pre +:+ "  - sidecar.yaml" +:+ post ->
         Line.starts_line_after pre -> Line.ends_line_before post ->
         "sidecar.yaml" ∈ (get_referenced_files env kustomization_path).1) /\
  (get_referenced_files Samples.env_impossible_date Examples.kustomization
     = (∅, [ErrorReading Examples.kustomization
              (LoaderError "month must be in 1..12")])) /\
  (env_safe_load Samples.env_malformed_dotted Samples.malformed_dotted = LoadYAMLError /\
   Samples.malformed_dotted
     = ("resources:" +:+ Main.NL) +:+ "  - ./sidecar.yaml" +:+ (Main.NL +:+ "  bad: [") /\
   get_referenced_files Samples.env_malformed_dotted Examples.kustomization = (∅, [])).
Proof.
  split; [|split; [by vm_compute | repeat split; by vm_compute]].
  intros H.
  assert ("sidecar.yaml" ∈ (get_referenced_files Samples.env_impossible_date
                              Examples.kustomization).1) as Hin.
  { apply (H Samples.env_impossible_date Examples.kustomization
             Samples.impossible_date eq_refl)
      with (pre := "resources:" +:+ Main.NL) (post := Main.NL +:+ "  - 2001-13-45").
    - done.
    - reflexivity.
    - right. by exists "resources:".
    - right. by exists "  - 2001-13-45". }
  by vm_compute in Hin.
Qed.

Section NoSeparator.

Lemma rfind_spec (c : ascii) (s : string) :
  (-1 <= PyStr.rfind c s)%Z /\
  ((PyStr.rfind c s < 0)%Z -> PyStr.has_char c s = false) /\
  ((0 <= PyStr.rfind c s)%Z ->
   PyStr.has_char c (PyStr.drop (Z.to_nat (PyStr.rfind c s + 1)) s) = false).
Proof.
  induction s as [|a s (IH1 & IH2 & IH3)]; cbn [PyStr.rfind PyStr.has_char].
  - split; [lia|]. split; [done|lia].
  - destruct (0 <=? PyStr.rfind c s)%Z eqn:Hi.
    + apply Z.leb_le in Hi. split; [lia|]. split; [lia|]. intros _.
      replace (Z.to_nat (PyStr.rfind c s + 1 + 1))
        with (S (Z.to_nat (PyStr.rfind c s + 1))) by lia.
      cbn [PyStr.drop]. by apply IH3.
    + apply Z.leb_gt in Hi. destruct (Ascii.eqb a c) eqn:Hac.
      * split; [lia|]. split; [lia|]. intros _. cbn. by apply IH2.
      * split; [lia|]. split; [|lia]. intros _. cbn. by apply IH2.
Qed.

Lemma basename_no_slash (s : string) : no_slash (PyPath.basename s).
Proof.
  unfold no_slash, PyPath.basename, PyStr.slice_from.
  destruct (rfind_spec "/"%char s) as (H1 & H2 & H3).
  destruct (decide (PyStr.rfind "/"%char s < 0)%Z) as [Hneg|Hpos].
  - replace (PyStr.rfind "/"%char s + 1)%Z with 0%Z by lia. cbn. by apply H2.
  - apply H3. lia.
Qed.

Lemma add_local_file_no_slash (path : yaml) : preserves no_slash (_add_local_file path).
Proof.
  unfold _add_local_file. destruct (Py.truthy path); [|apply preserves_ret].
  destruct path; try apply preserves_raise.
  repeat case_match; try apply preserves_ret.
  apply preserves_add, basename_no_slash.
Qed.

Lemma extract_file_reference_no_slash (item : yaml) :
  preserves no_slash (_extract_file_reference item).
Proof.
  unfold _extract_file_reference. destruct item; try apply preserves_ret.
  - case_match; [apply add_local_file_no_slash | apply preserves_ret].
  - repeat case_match; try apply preserves_ret; try apply preserves_raise;
      try apply add_local_file_no_slash.
    apply preserves_for_each. intros file.
    destruct file; try apply preserves_ret. apply add_local_file_no_slash.
Qed.

Lemma parse_yaml_references_no_slash (data : list (yaml * yaml)) :
  preserves no_slash (_parse_yaml_references data).
Proof.
  unfold _parse_yaml_references. apply preserves_bind.
  - apply preserves_for_each. intros field.
    repeat case_match; try apply preserves_ret.
    apply preserves_for_each, extract_file_reference_no_slash.
  - intros _. repeat case_match; try apply preserves_ret.
    apply preserves_for_each. intros patch.
    repeat case_match; try apply preserves_ret. apply add_local_file_no_slash.
Qed.

Lemma scan_sound (T : list ascii) (r : regex) (starts : list nat) (next_ok : nat)
    (m : mstate) :
  In m (scan T r starts next_ok) -> exists i, match_at T r i = Some m.
Proof.
  revert next_ok. induction starts as [|i starts IH]; intros next_ok; cbn [scan];
    [done|].
  destruct (i <? next_ok)%nat; [apply IH|].
  destruct (match_at T r i) as [m'|] eqn:Hm; [|apply IH].
  intros [<-|Hin]; [by exists i | by eapply IH].
Qed.

Lemma finditer_group_name_chars (T : list ascii) (m : mstate) (g : list ascii) :
  In m (finditer T pattern) -> group T m = Some g ->
  Forall (fun c => name_char c = true) g.
Proof.
  intros [i Hi%match_at_sem]%scan_sound Hg.
  apply pattern_sound in Hi
    as (d & a & b & c1 & _ & _ & _ & _ & Hrun & _ & _ & _ & _ & Hg1).
  unfold group in Hg. rewrite Hg1 in Hg. simplify_eq.
  apply Forall_lookup_2. intros k c Hk.
  apply lookup_take_Some in Hk as [Hk Hlt]. rewrite lookup_drop in Hk.
  destruct (run_at T _ _ _ (a + k)%nat Hrun) as (c' & Hc' & Hp); [lia|].
  by simplify_eq.
Qed.

Lemma name_chars_no_slash (g : list ascii) :
  Forall (fun c => name_char c = true) g -> no_slash (string_of_list_ascii g).
Proof.
  unfold no_slash. induction 1 as [|c g Hc _ IH]; [done|].
  cbn [string_of_list_ascii PyStr.has_char]. rewrite IH, orb_false_r.
  unfold name_char in Hc. rewrite negb_true_iff, !orb_false_iff in Hc. tauto.
Qed.

Lemma parse_regex_references_no_slash (content : string) :
  preserves no_slash (_parse_regex_references content).
Proof.
  intros refs Hrefs x.
  destruct (parse_regex_references_spec content refs) as (refs' & -> & Hiff).
  cbn. rewrite Hiff. intros [Hx|(m & Hin & Hg)]; [by apply Hrefs|].
  rewrite <- (string_of_list_ascii_of_string x).
  by eapply name_chars_no_slash, finditer_group_name_chars.
Qed.

Lemma get_referenced_files_no_slash (env : Env) (kustomization_path : Path) :
  all_refs no_slash (get_referenced_files env kustomization_path).1.
Proof.
  assert (all_refs no_slash ∅) as Hempty
    by (intros x Hx; by apply not_elem_of_empty in Hx).
  unfold get_referenced_files.
  destruct (env_read_text env kustomization_path) as [content|e]; [|done].
  destruct (env_safe_load env content) as [data| |e]; [| |done].
  - destruct data; try done.
    pose proof (parse_yaml_references_no_slash entries ∅ Hempty) as H.
    by destruct (_parse_yaml_references entries ∅) as [refs [[]|e]].
  - pose proof (parse_regex_references_no_slash content ∅ Hempty) as H.
    by destruct (_parse_regex_references content ∅) as [refs [[]|e]].
Qed.

Lemma no_slash_not_prefixed (x p : string) :
  PyStr.has_char "/"%char p = true -> no_slash x -> PyStr.startswith x p = false.
Proof.
  unfold no_slash, PyStr.startswith. intros Hp Hx.
  destruct (String.prefix p x) eqn:Hpre; [|done].
  apply prefix_iff in Hpre as [rest ->]. exfalso.
  induction p as [|c p IH]; [done|].
  rewrite str_app_cons in Hx. cbn [PyStr.has_char] in *.
  apply orb_false_iff in Hx as [Hc Hx]. rewrite Hc in Hp. auto.
Qed.

(** C2, as the code has it. Every name in the set returned by
    [get_referenced_files] is free of the path separator [/], on the
    structured path and on the fallback path alike; such a name cannot
    begin with [http://] or [https://], so it is never an HTTP(S) URL. *)
Theorem referenced_names_are_not_urls (env : Env) (kustomization_path : Path)
    (x : string) :
  x ∈ (get_referenced_files env kustomization_path).1 ->
  PyStr.has_char "/"%char x = false /\
  PyStr.startswith x "http://" = false /\
  PyStr.startswith x "https://" = false.
Proof.
  intros Hx. apply get_referenced_files_no_slash in Hx.
  split; [done|]. split; by apply no_slash_not_prefixed.
Qed.

End NoSeparator.

Section ParserCases.

(** C2, as stated, fails: a name in the reference set may begin with the
    four letters [http]. The structured path turns [./httpd.yaml] into
    [httpd.yaml], and the fallback pattern takes [httpd-config.yaml] as it
    stands. *)
Lemma referenced_name_may_start_with_http :
  ~ (forall (env : Env) (kustomization_path : Path) (x : string),
       x ∈ (get_referenced_files env kustomization_path).1 ->
       PyStr.has_char "/"%char x = false /\ PyStr.startswith x "http" = false).
Proof.
  intros H.
  assert ("httpd.yaml" ∈ (get_referenced_files Examples.env_relative
                            Examples.kustomization).1) as Hin
    by by vm_compute.
  apply H in Hin as [_ Hhttp]. by vm_compute in Hhttp.
Qed.

Lemma fallback_name_may_start_with_http :
  "httpd-config.yaml" ∈ (get_referenced_files Examples.env_httpd_fallback
                           Examples.kustomization).1 /\
  PyStr.startswith "httpd-config.yaml" "http" = true.
Proof. split; by vm_compute. Qed.

Lemma referenced_names_are_not_urls_witness :
  "httpd.yaml" ∈ (get_referenced_files Examples.env_relative Examples.kustomization).1 /\
  PyStr.has_char "/"%char "httpd.yaml" = false /\
  PyStr.startswith "httpd.yaml" "http://" = false /\
  PyStr.startswith "httpd.yaml" "https://" = false.
Proof.
  assert ("httpd.yaml" ∈ (get_referenced_files Examples.env_relative
                            Examples.kustomization).1) as Hin
    by (vm_compute; reflexivity).
  split; [exact Hin|].
  exact (referenced_names_are_not_urls Examples.env_relative Examples.kustomization
           "httpd.yaml" Hin).
Defined.

(** C3, at the failing input. A resource list whose only entry is the
    plain string [httpd-config.yaml], a bare local file name and not a
    URL, yields the empty reference set: [_extract_file_reference] drops
    every string that begins with the letters [http]. The fallback path
    keeps the same name. *)
Theorem httpd_config_reference_is_dropped :
  get_referenced_files Examples.env_httpd Examples.kustomization = (∅, []) /\
  "httpd-config.yaml" ∈ (get_referenced_files Examples.env_httpd_fallback
                           Examples.kustomization).1.
Proof. split; by vm_compute. Qed.

(** What [_extract_file_reference] does with a plain string: it is added,
    as its basename, exactly when it is not empty, does not begin with
    the letters [http], and either has no [/] or begins with [./]. *)
Lemma extract_plain_string (s : string) (refs : gset string) :
  _extract_file_reference (YStr s) refs =
    (if negb (PyStr.startswith s "http") && negb (String.eqb s EmptyString) &&
        (negb (PyStr.has_char "/"%char s) || PyStr.startswith s "./")
     then {[ PyPath.basename s ]} ∪ refs else refs, Done tt).
Proof.
  unfold _extract_file_reference, _add_local_file. cbn [Py.truthy].
  destruct (PyStr.startswith s "http"); [done|]. cbn [negb andb].
  destruct (String.eqb s EmptyString); [done|]. cbn [negb andb].
  by destruct (negb (PyStr.has_char "/"%char s) || PyStr.startswith s "./").
Qed.

Variable env : Env.

(** C10. When the file can be read and [yaml.safe_load] returns a value
    that is not a mapping (a list, a scalar, [None]), the reference set is
    empty and nothing is printed; the line pattern is not applied, whatever
    the content is. *)
Theorem non_mapping_document_yields_empty (kustomization_path : Path)
    (content : string) (data : yaml) :
  env_read_text env kustomization_path = ReadOk content ->
  env_safe_load env content = Loaded data ->
  (forall entries, data <> YDict entries) ->
  get_referenced_files env kustomization_path = (∅, []).
Proof.
  intros Hread Hload Hnd. unfold get_referenced_files. rewrite Hread, Hload.
  destruct data; try done. by destruct (Hnd entries).
Qed.

(** The fallback is used on a [YAMLError] only: on every other outcome of
    reading and loading, the result does not depend on the text. *)
Lemma fallback_only_on_yaml_error (kustomization_path : Path) (content : string) :
  env_read_text env kustomization_path = ReadOk content ->
  env_safe_load env content <> LoadYAMLError ->
  get_referenced_files env kustomization_path =
    match env_safe_load env content with
    | Loaded (YDict data) =>
        match _parse_yaml_references data ∅ with
        | (refs, Done _) => (refs, [])
        | (refs, Raised e) => (refs, [ErrorReading kustomization_path e])
        end
    | LoadOtherError e => (∅, [ErrorReading kustomization_path (LoaderError e)])
    | _ => (∅, [])
    end.
Proof.
  intros Hread Hne. unfold get_referenced_files. rewrite Hread.
  destruct (env_safe_load env content) as [[]| |]; done.
Qed.

End ParserCases.

Lemma non_mapping_document_yields_empty_witness :
  get_referenced_files Examples.env_top_level_list Examples.kustomization = (∅, []).
Proof.
  apply (non_mapping_document_yields_empty Examples.env_top_level_list
           Examples.kustomization "- a.yaml" (YList [YStr "a.yaml"]));
    [reflexivity | reflexivity | intros entries; discriminate].
Defined.

(** * The finder *)

Section Finder.
Import UnreferencedFileAnalyzer.

Lemma name_joinpath (d : Path) (n : string) : PyPath.name (PyPath.joinpath d n) = n.
Proof. unfold PyPath.name, PyPath.joinpath. apply last_last. Qed.

Lemma parent_joinpath (d : Path) (n : string) :
  PyPath.parent (PyPath.joinpath d n) = d.
Proof. unfold PyPath.parent, PyPath.joinpath. apply removelast_last. Qed.


End Finder.


(** * Sorting *)

Section Sorting.
Import PySort.

Lemma str_ltb_leb (a b : string) : String.ltb a b = negb (String.leb b a).
Proof.
  unfold String.ltb, String.leb. rewrite (String.compare_antisym a b).
  by destruct (String.compare b a).
Qed.

Lemma str_ltb_irrefl (a : string) : String.ltb a a = false.
Proof.
  rewrite str_ltb_leb. apply negb_false_iff. apply Is_true_true.
  change (String.le a a). reflexivity.
Qed.

Lemma str_ltb_trans (a b c : string) :
  String.ltb a b = true -> String.ltb b c = true -> String.ltb a c = true.
Proof.
  rewrite !str_ltb_leb, !negb_true_iff. intros Hba Hcb.
  destruct (String.leb c a) eqn:Hca; [|done]. exfalso.
  destruct (String.leb_total a b) as [Hab|Hab]; [|congruence].
  assert (String.le c b) as Hle.
  { transitivity a; by apply Is_true_true. }
  apply Is_true_true in Hle. unfold String.le in Hle. congruence.
Qed.

Lemma str_ltb_total (a b : string) :
  String.ltb a b = false -> String.ltb b a = false -> a = b.
Proof.
  rewrite !str_ltb_leb, !negb_false_iff. intros Hba Hab.
  by apply String.leb_antisym.
Qed.

Lemma path_ltb_irrefl (p : Path) : path_ltb p p = false.
Proof.
  induction p as [|a p IH]; [done|]. cbn [path_ltb]. by rewrite String.eqb_refl.
Qed.

Lemma path_ltb_trans (p q r : Path) :
  path_ltb p q = true -> path_ltb q r = true -> path_ltb p r = true.
Proof.
  revert q r. induction p as [|a p IH]; intros [|b q] [|c r]; cbn [path_ltb];
    try done.
  destruct (String.eqb_spec a b) as [->|Hab].
  - destruct (String.eqb_spec b c) as [->|Hbc]; [apply IH | done].
  - destruct (String.eqb_spec b c) as [->|Hbc].
    + intros Hlt _. destruct (String.eqb_spec a c) as [->|_]; done.
    + intros H1 H2. pose proof (str_ltb_trans _ _ _ H1 H2) as H3.
      destruct (String.eqb_spec a c) as [->|_]; [|done].
      pose proof (str_ltb_trans _ _ _ H1 H2) as H4.
      pose proof (str_ltb_trans _ _ _ H2 H1) as H5.
      rewrite str_ltb_irrefl in H5. done.
Qed.

Lemma path_ltb_total (p q : Path) :
  path_ltb p q = false -> path_ltb q p = false -> p = q.
Proof.
  revert q. induction p as [|a p IH]; intros [|b q]; cbn [path_ltb]; try done.
  rewrite (String.eqb_sym b a).
  destruct (String.eqb_spec a b) as [->|Hab].
  - intros H1 H2. f_equal. by apply IH.
  - intros H1 H2. by destruct Hab; apply str_ltb_total.
Qed.

Lemma path_ltb_asym (p q : Path) : path_ltb p q = true -> path_ltb q p = false.
Proof.
  intros Hpq. destruct (path_ltb q p) eqn:Hqp; [|done].
  pose proof (path_ltb_trans _ _ _ Hpq Hqp) as H.
  by rewrite path_ltb_irrefl in H.
Qed.

Lemma insert_perm (x : Path) (l : list Path) : Permutation (insert x l) (x :: l).
Proof.
  induction l as [|y l IH]; cbn [insert]; [done|].
  destruct (path_ltb x y); [done|]. rewrite IH. apply perm_swap.
Qed.

Lemma sorted_perm (l : list Path) : Permutation (sorted l) l.
Proof.
  unfold sorted.
  assert (forall acc, Permutation (fold_left (fun acc x => insert x acc) l acc)
                                  (l ++ acc)) as H.
  { induction l as [|x l IH]; intros acc; cbn [fold_left]; [done|].
    rewrite IH, insert_perm. cbn [app]. symmetry. apply Permutation_middle. }
  rewrite H. by rewrite app_nil_r.
Qed.

Lemma insert_sorted (x : Path) (l : list Path) :
  StronglySorted path_le l -> StronglySorted path_le (insert x l).
Proof.
  induction 1 as [|y l Hs IH Hy]; cbn [insert].
  - repeat constructor.
  - destruct (path_ltb x y) eqn:Hxy.
    + constructor; [by constructor|]. constructor.
      * by apply path_ltb_asym.
      * eapply Forall_impl; [exact Hy|]. intros z Hz. unfold path_le in *.
        destruct (path_ltb z x) eqn:Hzx; [|done].
        by rewrite (path_ltb_trans _ _ _ Hzx Hxy) in Hz.
    + constructor; [done|].
      eapply Permutation_Forall; [symmetry; apply insert_perm|].
      by constructor.
Qed.

Lemma sorted_sorted (l : list Path) : StronglySorted path_le (sorted l).
Proof.
  unfold sorted.
  assert (forall acc, StronglySorted path_le acc ->
            StronglySorted path_le (fold_left (fun acc x => insert x acc) l acc)) as H.
  { induction l as [|x l IH]; intros acc Hacc; cbn [fold_left]; [done|].
    by apply IH, insert_sorted. }
  apply H. constructor.
Qed.

Lemma sorted_unique (l1 l2 : list Path) :
  StronglySorted path_le l1 -> StronglySorted path_le l2 ->
  Permutation l1 l2 -> l1 = l2.
Proof.
  intros H1. revert l2. induction H1 as [|x l1 Hs1 IH Hx]; intros l2 H2 Hp.
  - by apply Permutation_nil in Hp.
  - destruct H2 as [|y l2 Hs2 Hy].
    { symmetry in Hp. by apply Permutation_nil in Hp. }
    assert (x = y) as ->.
    { assert (In x (y :: l2)) as Hin1
        by (eapply Permutation_in; [exact Hp | by left]).
      assert (In y (x :: l1)) as Hin2
        by (eapply Permutation_in; [symmetry; exact Hp | by left]).
      destruct Hin1 as [->|Hin1]; [done|]. destruct Hin2 as [->|Hin2]; [done|].
      rewrite Forall_forall in Hx, Hy.
      apply path_ltb_total.
      - apply (Hy x). by apply list_elem_of_In.
      - apply (Hx y). by apply list_elem_of_In. }
    f_equal. apply IH; [done|]. by apply Permutation_cons_inv in Hp.
Qed.

Lemma sorted_of_perm (l1 l2 : list Path) :
  Permutation l1 l2 -> sorted l1 = sorted l2.
Proof.
  intros Hp. apply sorted_unique; try apply sorted_sorted.
  by rewrite !sorted_perm.
Qed.

(** The order is that of [pathlib]: by component, not by the text of the
    whole path. *)
Example path_order_is_by_component :
  path_ltb ["a"; "b"] ["a-b"; "c"] = true /\
  String.ltb (PyPath.to_str ["a"; "b"]) (PyPath.to_str ["a-b"; "c"]) = false.
Proof. split; reflexivity. Qed.

End Sorting.

(** * The whole scan *)

Section Scan.
Import UnreferencedFileAnalyzer.

Lemma perm_filter {A} (f : A -> bool) (l l' : list A) :
  Permutation l l' -> Permutation (List.filter f l) (List.filter f l').
Proof.
  induction 1 as [|x l l' Hp IH|x y l|l l' l'' Hp1 IH1 Hp2 IH2]; cbn [List.filter].
  - done.
  - destruct (f x); [by constructor | done].
  - destruct (f x), (f y); try done. apply perm_swap.
  - by etransitivity.
Qed.

Lemma perm_filter_ext {A} (f g : A -> bool) (l l' : list A) :
  Permutation l l' -> (forall x, f x = g x) ->
  Permutation (List.filter f l) (List.filter g l').
Proof.
  intros Hp Hfg. rewrite (filter_ext f g Hfg). by apply perm_filter.
Qed.

Lemma perm_concat_map {A B} (f g : A -> list B) (l l' : list A) :
  Permutation l l' -> (forall x, Permutation (f x) (g x)) ->
  Permutation (concat (map f l)) (concat (map g l')).
Proof.
  intros Hp Hfg.
  induction Hp as [|x l l' Hp IH|x y l|l l' l'' Hp1 IH1 Hp2 IH2]; cbn [map concat].
  - done.
  - by apply Permutation_app.
  - rewrite !app_assoc. apply Permutation_app.
    + rewrite (Hfg x), (Hfg y). apply Permutation_app_comm.
    + clear -Hfg. induction l as [|z l IH]; cbn [map concat]; [done|].
      by apply Permutation_app.
  - etransitivity; [exact IH1|]. etransitivity; [|exact IH2].
    clear -Hfg. induction l' as [|z l IH]; cbn [map concat]; [done|].
    apply Permutation_app; [|done]. symmetry. apply Hfg.
Qed.

Lemma get_referenced_files_ext (env env' : Env) (kustomization_path : Path) :
  (forall p, env_read_text env p = env_read_text env' p) ->
  (forall s, env_safe_load env s = env_safe_load env' s) ->
  get_referenced_files env kustomization_path =
  get_referenced_files env' kustomization_path.
Proof.
  intros Hread Hload. unfold get_referenced_files. rewrite <- Hread.
  destruct (env_read_text env kustomization_path); [|done]. by rewrite <- Hload.
Qed.

Lemma yaml_sibling_ext (env env' : Env) (file : Path) :
  (forall p, env_is_file env p = env_is_file env' p) ->
  yaml_sibling env file = yaml_sibling env' file.
Proof. intros H. unfold yaml_sibling. by rewrite H. Qed.

Lemma find_unreferenced_in_directory_perm (env env' : Env) (directory : Path) :
  same_tree env env' ->
  Permutation (_find_unreferenced_in_directory env directory).1
              (_find_unreferenced_in_directory env' directory).1.
Proof.
  intros (Hex & Hfile & Hread & Hload & Hiter & _).
  unfold _find_unreferenced_in_directory. rewrite <- Hex.
  destruct (env_exists env _); cbn [negb]; [|done].
  rewrite <- (get_referenced_files_ext env env' _ Hread Hload).
  destruct (get_referenced_files env _) as [referenced diags]. cbn [fst].
  apply Permutation_map, perm_filter, Permutation_map.
  apply perm_filter_ext; [|intros x; by apply yaml_sibling_ext].
  apply Permutation_map, Hiter.
Qed.

Lemma find_all_unreferenced_perm (env env' : Env) (project_root : Path) :
  same_tree env env' ->
  (find_all_unreferenced env project_root).1 =
  (find_all_unreferenced env' project_root).1.
Proof.
  intros Hsame. unfold find_all_unreferenced. cbn [fst].
  apply sorted_of_perm. rewrite !map_map.
  apply perm_concat_map.
  - apply Hsame.
  - intros d. by apply find_unreferenced_in_directory_perm.
Qed.

Lemma find_unreferenced_in_directory_elem (env : Env) (directory file : Path) :
  In file (_find_unreferenced_in_directory env directory).1 <->
  env_exists env (PyPath.joinpath directory "kustomization.yaml") = true /\
  exists name,
    In name (env_iterdir env directory) /\
    yaml_sibling env (PyPath.joinpath directory name) = true /\
    (name ∉ (get_referenced_files env
               (PyPath.joinpath directory "kustomization.yaml")).1) /\
    file = PyPath.joinpath directory name.
Proof.
  unfold _find_unreferenced_in_directory.
  destruct (env_exists env _); cbn [negb].
  2: { cbn. split; [done | by intros [? _]]. }
  destruct (get_referenced_files env _) as [referenced diags]. cbn [fst].
  rewrite in_map_iff. split.
  - intros (name & <- & Hin). split; [done|]. exists name.
    apply filter_In in Hin as [Hin Hnot]. apply bool_decide_eq_true in Hnot.
    apply in_map_iff in Hin as (f & <- & Hf).
    apply filter_In in Hf as [Hf Hy].
    apply in_map_iff in Hf as (n & <- & Hn).
    rewrite name_joinpath in *. done.
  - intros (_ & name & Hin & Hy & Hnot & ->). exists name. split; [done|].
    apply filter_In. split; [|by apply bool_decide_eq_true].
    apply in_map_iff. exists (PyPath.joinpath directory name).
    split; [apply name_joinpath|]. apply filter_In. split; [|done].
    apply in_map_iff. by exists name.
Qed.

Lemma find_all_unreferenced_elem (env : Env) (project_root file : Path) :
  In file (find_all_unreferenced env project_root).1 <->
  exists d name,
    let directory := manifests_dir project_root ++ d in
    In d (env_rglob env (manifests_dir project_root) "kustomization.yaml") /\
    env_exists env (PyPath.joinpath directory "kustomization.yaml") = true /\
    In name (env_iterdir env directory) /\
    yaml_sibling env (PyPath.joinpath directory name) = true /\
    (name ∉ (get_referenced_files env
               (PyPath.joinpath directory "kustomization.yaml")).1) /\
    file = PyPath.joinpath directory name.
Proof.
  unfold find_all_unreferenced. cbn [fst].
  assert (forall l, In file (PySort.sorted l) <-> In file l) as Hs.
  { intros l. split; apply Permutation_in; [|symmetry]; apply sorted_perm. }
  rewrite Hs, map_map, in_concat. setoid_rewrite in_map_iff. split.
  - intros (l & (d & <- & Hd) & Hin). rewrite parent_joinpath in Hin.
    apply find_unreferenced_in_directory_elem in Hin
      as (Hex & name & Hn & Hy & Hnot & ->).
    by exists d, name.
  - intros (d & name & Hd & Hex & Hn & Hy & Hnot & ->).
    eexists. split; [exists d; split; [reflexivity | done]|].
    rewrite parent_joinpath. apply find_unreferenced_in_directory_elem.
    split; [done|]. by exists name.
Qed.

Lemma find_all_unreferenced_under_root (env : Env) (project_root file : Path) :
  In file (find_all_unreferenced env project_root).1 ->
  exists rel_path, file = project_root ++ rel_path.
Proof.
  intros (d & name & _ & _ & _ & _ & _ & ->)%find_all_unreferenced_elem.
  unfold manifests_dir, PyPath.joinpath. rewrite <- !app_assoc. by eexists.
Qed.

(** C6. The list returned by [find_all_unreferenced] is sorted in the
    order of paths (component by component, each component as a string);
    it holds exactly the files [directory / name] such that [directory]
    is one of the directories in which [rglob] found a
    [kustomization.yaml], that file exists, [name] is an entry of the
    directory that is a regular [.yaml] or [.yml] file other than
    [kustomization.yaml], and [name] is not in the reference set of the
    directory; and it is the same for any two observations of one tree,
    whatever the orders in which [rglob] and [iterdir] list it, so two
    runs over an unmodified tree return the same list. *)
Theorem finder_output_is_sorted_and_deterministic (env : Env) (project_root : Path) :
  let out := (find_all_unreferenced env project_root).1 in
  StronglySorted path_le out /\
  (forall file,
     In file out <->
     exists d name,
       let directory := manifests_dir project_root ++ d in
       In d (env_rglob env (manifests_dir project_root) "kustomization.yaml") /\
       env_exists env (PyPath.joinpath directory "kustomization.yaml") = true /\
       In name (env_iterdir env directory) /\
       yaml_sibling env (PyPath.joinpath directory name) = true /\
       (name ∉ (get_referenced_files env
                  (PyPath.joinpath directory "kustomization.yaml")).1) /\
       file = PyPath.joinpath directory name) /\
  (forall env', same_tree env env' ->
                (find_all_unreferenced env' project_root).1 = out).
Proof.
  intros out. split; [apply sorted_sorted|]. split.
  - intros file. apply find_all_unreferenced_elem.
  - intros env' Hsame. symmetry. by apply find_all_unreferenced_perm.
Qed.


Lemma same_tree_reordered : same_tree Examples.env_tree Examples.env_tree_reordered.
Proof.
  repeat split; try done. intros p. cbn.
  destruct (bool_decide (p = Examples.app_dir)); [|done].
  apply NoDup_Permutation.
  - by apply (bool_decide_unpack _).
  - by apply (bool_decide_unpack _).
  - intros x. rewrite !list_elem_of_In. simpl. tauto.
Qed.

End Scan.


Lemma finder_output_is_sorted_and_deterministic_witness :
  (UnreferencedFileAnalyzer.find_all_unreferenced
     Examples.env_tree_reordered Examples.project_root).1 =
  (UnreferencedFileAnalyzer.find_all_unreferenced
     Examples.env_tree Examples.project_root).1.
Proof.
  destruct (finder_output_is_sorted_and_deterministic Examples.env_tree
              Examples.project_root) as (_ & _ & Hdet).
  apply Hdet. exact same_tree_reordered.
Defined.

(** * The program *)

Section Program.
Import Main UnreferencedFileAnalyzer.

Lemma relative_to_app (root x : Path) : PyPath.relative_to (root ++ x) root = Some x.
Proof.
  induction root as [|r root IH]; cbn [PyPath.relative_to app]; [by destruct x|].
  by rewrite String.eqb_refl.
Qed.

Lemma rel_shown (project_root : Path) (r : AnalysisResult) :
  under_root project_root r ->
  rel project_root r = ([], Some (shown project_root (filepath r))).
Proof.
  intros [x Hx]. unfold rel, shown. rewrite Hx, relative_to_app.
  by rewrite drop_app_length.
Qed.

Lemma wfor_out {A} (l : list A) (body : A -> W unit) (f : A -> list string) :
  Forall (fun x => body x = (f x, Some tt)) l ->
  wfor l body = (concat (map f l), Some tt).
Proof.
  induction 1 as [|x l Hx _ IH]; cbn [wfor map concat]; [done|].
  rewrite Hx, IH. done.
Qed.

Lemma concat_singletons {A B} (f : A -> B) (l : list A) :
  concat (map (fun x => [f x]) l) = map f l.
Proof. induction l as [|x l IH]; [done|]. cbn. by rewrite IH. Qed.

Lemma join_quoted_out (project_root : Path) (l : list AnalysisResult) :
  Forall (under_root project_root) l ->
  join_quoted project_root l
  = ([], Some (String.concat " "
                 (map (fun r => quoted (shown project_root (filepath r))) l))).
Proof.
  induction 1 as [|r l Hr Hl IH]; cbn [join_quoted map String.concat]; [done|].
  rewrite rel_shown, IH by done. cbn. by destruct l.
Qed.

Lemma Forall_filter_under_root (project_root : Path) (f : AnalysisResult -> bool)
    (l : list AnalysisResult) :
  Forall (under_root project_root) l ->
  Forall (under_root project_root) (List.filter f l).
Proof.
  rewrite !Forall_forall. intros H r Hr. apply H.
  apply list_elem_of_In in Hr. apply filter_In in Hr as [Hr _].
  by apply list_elem_of_In.
Qed.

Lemma analyze_file_filepath (env : Env) (fp : Path) :
  filepath (analyze_file env fp) = fp.
Proof. unfold analyze_file. by repeat case_match. Qed.

Variable env : Env.

Lemma results_under_root (project_root : Path) :
  Forall (under_root project_root)
         (map (analyze_file env) (find_all_unreferenced env project_root).1).
Proof.
  apply Forall_forall. intros r Hr.
  apply list_elem_of_In, in_map_iff in Hr as (fp & <- & Hfp).
  unfold under_root. rewrite analyze_file_filepath.
  apply find_all_unreferenced_under_root in Hfp as [x ->]. by exists x.
Qed.

Lemma print_returns (s : string) :
  env_raises env (CallPrint s) = false -> print env s = ([s], Some tt).
Proof. unfold print. by intros ->. Qed.

Lemma print_raises (s : string) :
  env_raises env (CallPrint s) = true -> print env s = ([], None).
Proof. unfold print. by intros ->. Qed.

Lemma listing_out (project_root : Path) (l : list AnalysisResult) :
  nothing_raises env ->
  Forall (under_root project_root) l ->
  wfor l (fun result =>
            wbind (rel project_root result) (fun p => print env ("  " +:+ p)))
  = (map (fun r => "  " +:+ shown project_root (filepath r)) l, Some tt).
Proof.
  intros Hquiet H. rewrite <- concat_singletons. apply wfor_out.
  eapply Forall_impl; [exact H|]. intros r Hr. cbv beta.
  rewrite rel_shown by done. cbn [wbind]. by rewrite print_returns.
Qed.

Lemma report_out (project_root : Path) (results : list AnalysisResult) :
  nothing_raises env ->
  Forall (under_root project_root) results ->
  let safe := List.filter (fun r => is_safe r) results in
  let review := List.filter (fun r => negb (is_safe r)) results in
  let listing := map (fun r => "  " +:+ shown project_root (filepath r)) in
  report env project_root results =
    ((NL +:+ "=== Unreferenced YAML Files Analysis ===" +:+ NL) ::
     (concat (map (status_lines project_root) results) ++
      (NL +:+ "Summary:") ::
      ("- Safe to remove: " +:+ pretty (length safe) +:+ " files") ::
      ("- Needs review: " +:+ pretty (length review) +:+ " files") ::
      (match safe with
       | [] => []
       | _ => (NL +:+ "Files safe to remove:") :: listing safe
       end ++
       (match review with
        | [] => []
        | _ => (NL +:+ "Files needing review:") :: listing review
        end ++
        match safe with
        | [] => []
        | _ => [NL +:+ "To remove safe files, run:";
                "  rm " +:+ String.concat " "
                  (map (fun r => quoted (shown project_root (filepath r))) safe)]
        end))),
     Some tt).
Proof.
  intros Hquiet H safe review listing. unfold report. fold safe. fold review.
  pose proof (Forall_filter_under_root project_root (fun r => is_safe r) _ H) as Hs.
  pose proof (Forall_filter_under_root project_root (fun r => negb (is_safe r)) _ H)
    as Hn.
  fold safe in Hs. fold review in Hn.
  rewrite (wfor_out results _ (status_lines project_root)).
  2: { eapply Forall_impl; [exact H|]. intros r Hr. cbv beta.
       rewrite rel_shown by done. cbn [wbind]. unfold status_lines.
       destruct (is_safe r); by rewrite !print_returns. }
  rewrite (listing_out _ safe Hquiet Hs), (listing_out _ review Hquiet Hn),
    (join_quoted_out _ safe Hs).
  subst listing. cbv beta. unfold print. rewrite !Hquiet.
  destruct safe, review; cbn [wbind wret]; rewrite ?Hquiet; reflexivity.
Qed.

Lemma scan_raises_quiet (directories : list Path) :
  nothing_raises env ->
  scan_raises env directories =
    (concat (map (fun directory => (_find_unreferenced_in_directory env directory).2)
                 directories), false).
Proof.
  intros Hquiet. induction directories as [|d l IH]; [done|].
  cbn [scan_raises map concat].
  assert (_find_unreferenced_in_directory_raises env d = false) as ->.
  { unfold _find_unreferenced_in_directory_raises, get_referenced_files_raises.
    rewrite !Hquiet. cbn [orb].
    assert (existsb (fun name => env_raises env (CallIsFile (PyPath.joinpath d name)))
                    (env_iterdir env d) = false) as ->.
    { induction (env_iterdir env d) as [|n ns IHn]; [done|]. cbn. by rewrite Hquiet. }
    cbn [orb]. destruct (get_referenced_files env _).2; [|rewrite Hquiet];
      by rewrite andb_false_r. }
  by rewrite IH.
Qed.

Lemma find_all_unreferenced_raises_quiet (project_root : Path) :
  nothing_raises env ->
  find_all_unreferenced_raises env project_root =
    ((find_all_unreferenced env project_root).2, false).
Proof.
  intros Hquiet. unfold find_all_unreferenced_raises, find_all_unreferenced.
  rewrite scan_raises_quiet by done. rewrite Hquiet. cbn [orb snd].
  by rewrite !map_map.
Qed.

(** A run in which nothing raises, with a [manifests] directory. *)
Lemma main_quiet (project_root : Path) :
  nothing_raises env ->
  env_exists env (manifests_dir project_root) = true ->
  main env project_root =
    {| exit_code := 0;
       stdout :=
         "Scanning for unreferenced YAML files..." ::
         match (find_all_unreferenced env project_root).1 with
         | [] => ["No unreferenced files found!"]
         | files => (report env project_root (map (analyze_file env) files)).1
         end;
       stderr := (find_all_unreferenced env project_root).2 |}.
Proof.
  intros Hquiet Hex. unfold main. fold (manifests_dir project_root).
  rewrite Hex, !Hquiet. cbn [negb]. unfold scan.
  rewrite find_all_unreferenced_raises_quiet by done. cbn [fst snd].
  rewrite print_returns by done. cbn [wbind].
  pose proof (results_under_root project_root) as Hunder.
  destruct (find_all_unreferenced env project_root).1 as [|file files].
  - by rewrite print_returns.
  - by rewrite (report_out _ _ Hquiet Hunder).
Qed.


End Program.



(** * Further properties of the classifier *)

Section ClassifierTable.
Import UnreferencedFileAnalyzer.

Lemma job_rule_iff (content : string) (fp : Path) :
  PyStr.contains "kind: Job" content &&
  (PyStr.contains "job-" (PyPath.name fp) || PyStr.contains "-job" (PyPath.name fp))
  = true <-> job_rule content fp.
Proof.
  unfold job_rule. by rewrite andb_true_iff, orb_true_iff, !contains_iff.
Qed.

Lemma substring_trans (a b c : string) :
  Substring a b -> Substring b c -> Substring a c.
Proof.
  intros (p1 & q1 & ->) (p2 & q2 & ->). exists (p2 +:+ p1), (q1 +:+ q2).
  by rewrite !str_app_assoc.
Qed.

Lemma component_in_path_text (c : string) (fp : Path) :
  In c fp -> Substring c (PyPath.to_str fp).
Proof.
  intros Hin. assert (fp <> []) as Hne by (by destruct fp).
  unfold PyPath.to_str. destruct fp as [|c0 fp0]; [done|].
  set (fp := c0 :: fp0) in *. clearbody fp. clear Hne c0 fp0.
  induction fp as [|d fp IH]; [done|]. cbn [fold_right].
  destruct Hin as [->|Hin].
  - by exists "/", (fold_right (fun c acc => "/" +:+ c +:+ acc) EmptyString fp).
  - destruct (IH Hin) as (p1 & q1 & Heq). exists ("/" +:+ d +:+ p1), q1.
    rewrite Heq. by rewrite !str_app_assoc.
Qed.

Variable env : Env.

(** X1. The decision table of [analyze_file]: a file is classified
    safe-to-remove exactly when it can be read, its content has none of
    the important markers, and one of the three removal rules applies
    (the Job rule, a legacy pattern in the text of the path, a test
    pattern in the lower-cased name). In every other case, unreadable
    files included, it is needs-review. *)
Theorem safe_to_remove_iff (fp : Path) :
  status (analyze_file env fp) = SAFE_TO_REMOVE <->
  exists content,
    env_read_text env fp = ReadOk content /\
    (forall marker, In marker IMPORTANT_MARKERS -> ~ Substring marker content) /\
    (job_rule content fp \/
     (exists pat, In pat SAFE_PATTERNS /\ Substring pat (PyPath.to_str fp)) \/
     (exists pat, In pat TEST_PATTERNS /\
                  Substring pat (PyStr.lower (PyPath.name fp)))).
Proof.
  unfold analyze_file. destruct (env_read_text env fp) as [content|e].
  2: { split; [done|]. by intros (c & Hc & _). }
  destruct (PyStr.any_in IMPORTANT_MARKERS content) eqn:Hm.
  { split; [done|]. intros (c & [= <-] & Hno & _).
    apply any_in_iff in Hm as (m & Hin & Hs). by destruct (Hno m Hin). }
  pose proof (proj1 (any_in_false_iff _ _) Hm) as Hno.
  destruct (PyStr.contains "kind: Job" content && _) eqn:Hj.
  { split; [|done]. intros _. exists content. apply job_rule_iff in Hj. auto. }
  destruct (PyStr.any_in SAFE_PATTERNS (PyPath.to_str fp)) eqn:Hs.
  { split; [|done]. intros _. exists content. apply any_in_iff in Hs. auto. }
  destruct (PyStr.any_in TEST_PATTERNS (PyStr.lower (PyPath.name fp))) eqn:Ht.
  { split; [|done]. intros _. exists content. apply any_in_iff in Ht. auto. }
  split; [done|]. intros (c & [= <-] & _ & [Hjob|[Hsafe|Htest]]).
  - apply job_rule_iff in Hjob. congruence.
  - apply any_in_iff in Hsafe. congruence.
  - apply any_in_iff in Htest. congruence.
Qed.

(** X2. The legacy patterns are looked for in the text of the whole
    path: when any component of the path, a directory name included,
    contains one of them, a readable file without markers is classified
    safe-to-remove; unless the Job rule applies first, the reason given
    is the one of the legacy rule. *)
Theorem legacy_pattern_in_any_component (fp : Path) (content component pat : string) :
  env_read_text env fp = ReadOk content ->
  (forall marker, In marker IMPORTANT_MARKERS -> ~ Substring marker content) ->
  In component fp -> In pat SAFE_PATTERNS -> Substring pat component ->
  status (analyze_file env fp) = SAFE_TO_REMOVE /\
  (~ job_rule content fp ->
   analyze_file env fp =
     {| filepath := fp; status := SAFE_TO_REMOVE;
        reason := "Matches old job pattern" |}).
Proof.
  intros Hread Hno Hc Hpat Hsub.
  assert (PyStr.any_in SAFE_PATTERNS (PyPath.to_str fp) = true) as Hs.
  { apply any_in_iff. exists pat. split; [done|].
    eapply substring_trans; [exact Hsub|]. by apply component_in_path_text. }
  pose proof (proj2 (any_in_false_iff _ _) Hno) as Hm.
  unfold analyze_file. rewrite Hread, Hm, Hs. split.
  - by case_match.
  - intros Hnj. case_match eqn:Hj; [|done]. by apply job_rule_iff in Hj.
Qed.

End ClassifierTable.

Lemma legacy_pattern_in_any_component_witness :
  status (UnreferencedFileAnalyzer.analyze_file Examples.env_plain
            Samples.legacy_dir_file) = SAFE_TO_REMOVE /\
  UnreferencedFileAnalyzer.analyze_file Examples.env_plain Samples.legacy_dir_file =
    {| filepath := Samples.legacy_dir_file; status := SAFE_TO_REMOVE;
       reason := "Matches old job pattern" |}.
Proof.
  destruct (legacy_pattern_in_any_component Examples.env_plain
              Samples.legacy_dir_file "kind: ConfigMap" "job-runner" "job-")
    as [Hstatus Hreason].
  - reflexivity.
  - intros marker Hin. apply contains_false_iff.
    simpl in Hin. destruct Hin as [<-|[<-|[<-|[]]]]; reflexivity.
  - simpl. tauto.
  - simpl. tauto.
  - by exists EmptyString, "runner".
  - split; [exact Hstatus|]. apply Hreason.
    intros [Hjob _]. apply contains_iff in Hjob. by vm_compute in Hjob.
Defined.

(** * Further properties of the reference extractor *)

Section MonadLaws.

Lemma for_each_app {A} (l1 l2 : list A) (body : A -> M unit) (refs : gset string) :
  for_each (l1 ++ l2) body refs =
  bind (for_each l1 body) (fun _ => for_each l2 body) refs.
Proof.
  revert refs. induction l1 as [|x l1 IH]; intros refs; cbn [app for_each].
  - reflexivity.
  - unfold bind. destruct (body x refs) as [refs1 [[]|e]]; [|done].
    rewrite IH. reflexivity.
Qed.

Lemma for_each_union {A} (l : list A) (body : A -> M unit)
    (P : A -> string -> Prop) :
  (forall m refs, In m l ->
     exists refs', body m refs = (refs', Done tt) /\
                   forall x, x ∈ refs' <-> x ∈ refs \/ P m x) ->
  forall refs,
    exists refs', for_each l body refs = (refs', Done tt) /\
                  forall x, x ∈ refs' <-> x ∈ refs \/ exists m, In m l /\ P m x.
Proof.
  induction l as [|m l IH]; intros Hbody refs; cbn [for_each].
  - exists refs. split; [done|]. intros x. split; [auto|].
    by intros [?|(m & [] & _)].
  - destruct (Hbody m refs (or_introl eq_refl)) as (refs1 & Hm & H1).
    destruct (IH (fun m' r Hin => Hbody m' r (or_intror Hin)) refs1)
      as (refs2 & Hl & H2).
    exists refs2. unfold bind. rewrite Hm, Hl. split; [done|].
    intros x. rewrite H2, H1. split.
    + intros [[Hx|Hp]|(m' & Hin & Hp)].
      * by left.
      * right. exists m. split; [by left | done].
      * right. exists m'. split; [by right | done].
    + intros [Hx|(m' & [<-|Hin] & Hp)].
      * by left; left.
      * by left; right.
      * right. by exists m'.
Qed.

Lemma keeps_ret {A} (a : A) : keeps (ret a).
Proof. by intros refs x H. Qed.

Lemma keeps_raise {A} (e : exn) : keeps (@raise A e).
Proof. by intros refs x H. Qed.

Lemma keeps_add (s : string) : keeps (add s).
Proof. intros refs x H. cbn. set_solver. Qed.

Lemma keeps_bind {A B} (m : M A) (k : A -> M B) :
  keeps m -> (forall a, keeps (k a)) -> keeps (bind m k).
Proof.
  intros Hm Hk refs x Hx. unfold bind. specialize (Hm refs x Hx).
  destruct (m refs) as [refs' [a|e]]; cbn in *; [by apply Hk | done].
Qed.

Lemma keeps_for_each {A} (l : list A) (body : A -> M unit) :
  (forall x, keeps (body x)) -> keeps (for_each l body).
Proof.
  intros Hbody. induction l as [|x l IH]; cbn [for_each].
  - apply keeps_ret.
  - apply keeps_bind; auto.
Qed.

Lemma add_local_file_keeps (path : yaml) : keeps (_add_local_file path).
Proof.
  unfold _add_local_file. destruct (Py.truthy path); [|apply keeps_ret].
  destruct path; try apply keeps_raise.
  repeat case_match; try apply keeps_ret. apply keeps_add.
Qed.

Lemma extract_file_reference_keeps (item : yaml) :
  keeps (_extract_file_reference item).
Proof.
  unfold _extract_file_reference. destruct item; try apply keeps_ret.
  - case_match; [apply add_local_file_keeps | apply keeps_ret].
  - repeat case_match; try apply keeps_ret; try apply keeps_raise;
      try apply add_local_file_keeps.
    apply keeps_for_each. intros file.
    destruct file; try apply keeps_ret. apply add_local_file_keeps.
Qed.

End MonadLaws.

Section Basename.

Lemma rfind_absent (c : ascii) (s : string) :
  PyStr.has_char c s = false -> PyStr.rfind c s = (-1)%Z.
Proof.
  induction s as [|a s IH]; cbn [PyStr.has_char PyStr.rfind]; [done|].
  intros [Ha Hs]%orb_false_iff. rewrite (IH Hs), Ha. done.
Qed.

Lemma rfind_last (c : ascii) (pre t : string) :
  PyStr.has_char c t = false ->
  PyStr.rfind c (pre +:+ String c t) = Z.of_nat (String.length pre).
Proof.
  intros Ht. induction pre as [|a pre IH].
  - change (EmptyString +:+ String c t) with (String c t).
    cbn [PyStr.rfind]. rewrite (rfind_absent _ _ Ht). cbn.
    by rewrite Ascii.eqb_refl.
  - rewrite str_app_cons. cbn [PyStr.rfind String.length]. rewrite IH.
    destruct (0 <=? Z.of_nat (String.length pre))%Z eqn:E; [lia|].
    apply Z.leb_gt in E. lia.
Qed.

Lemma str_drop_app_length (pre t : string) :
  PyStr.drop (String.length pre) (pre +:+ t) = t.
Proof.
  induction pre as [|a pre IH]; [by destruct t|].
  rewrite str_app_cons. cbn [String.length PyStr.drop]. exact IH.
Qed.

Lemma basename_bare (s : string) :
  PyStr.has_char "/"%char s = false -> PyPath.basename s = s.
Proof.
  intros Hs. unfold PyPath.basename, PyStr.slice_from.
  rewrite (rfind_absent _ _ Hs). cbn. by destruct s.
Qed.

Lemma basename_after_separator (pre name : string) :
  PyStr.has_char "/"%char name = false ->
  PyPath.basename (pre +:+ "/" +:+ name) = name.
Proof.
  intros Hn. unfold PyPath.basename, PyStr.slice_from.
  change ("/" +:+ name) with (String "/"%char name).
  rewrite (rfind_last _ pre name Hn).
  replace (Z.to_nat (Z.of_nat (String.length pre) + 1))
    with (String.length (pre +:+ "/")).
  - rewrite <- (str_drop_app_length (pre +:+ "/") name) at 2.
    by rewrite str_app_assoc.
  - clear. induction pre as [|a pre IH]; [done|].
    rewrite str_app_cons. cbn [String.length]. lia.
Qed.

End Basename.

Section Extractor.

Lemma add_local_file_plain (s : string) (refs : gset string) :
  _add_local_file (YStr s) refs =
  (if accepted s then {[ PyPath.basename s ]} ∪ refs else refs, Done tt).
Proof.
  unfold _add_local_file, accepted. cbn [Py.truthy].
  destruct (String.eqb s EmptyString); cbn [negb andb].
  { by rewrite andb_false_r. }
  rewrite andb_true_r.
  destruct (PyStr.startswith s "http"); [done|]. cbn [negb andb].
  by destruct (negb (PyStr.has_char "/"%char s) || PyStr.startswith s "./").
Qed.

Lemma extract_plain (s : string) (refs : gset string) :
  _extract_file_reference (YStr s) refs =
  (if accepted s then {[ PyPath.basename s ]} ∪ refs else refs, Done tt).
Proof.
  unfold _extract_file_reference.
  destruct (PyStr.startswith s "http") eqn:Hh; cbn [negb].
  - unfold accepted. by rewrite Hh.
  - apply add_local_file_plain.
Qed.

Lemma extract_other (v : yaml) (refs : gset string) :
  (forall s, v <> YStr s) -> (forall entries, v <> YDict entries) ->
  _extract_file_reference v refs = (refs, Done tt).
Proof.
  intros Hs Hd. destruct v; try done; [by destruct (Hs s) | by destruct (Hd entries)].
Qed.

Lemma extract_scalars (items : list yaml) (refs : gset string) :
  no_mappings items ->
  exists refs',
    for_each items _extract_file_reference refs = (refs', Done tt) /\
    forall x, x ∈ refs' <->
      x ∈ refs \/
      exists s, In (YStr s) items /\ accepted s = true /\ x = PyPath.basename s.
Proof.
  intros Hscalars.
  destruct (for_each_union items _extract_file_reference
              (fun v x => exists s, v = YStr s /\ accepted s = true /\
                                    x = PyPath.basename s)) with (refs := refs)
    as (refs' & Heq & Hiff).
  { intros v r Hin. unfold no_mappings in Hscalars.
    rewrite Forall_forall in Hscalars.
    pose proof (Hscalars v (proj2 (list_elem_of_In _ _) Hin)) as Hv.
    destruct v as [| | |s| |entries|];
      try (exists r; split; [done|]; intros x; split; [auto|];
           by intros [?|(s' & ? & _)]).
    2: { by destruct (Hv entries). }
    rewrite extract_plain. destruct (accepted s) eqn:Hacc.
    - eexists. split; [done|]. intros x.
      rewrite elem_of_union, elem_of_singleton. split.
      + intros [->|Hx]; [right; by exists s | by left].
      + intros [Hx|(s' & [= <-] & _ & ->)]; auto.
    - eexists. split; [done|]. intros x. split; [auto|].
      intros [Hx|(s' & [= <-] & Hacc' & _)]; [done | congruence]. }
  exists refs'. split; [done|]. intros x. rewrite Hiff. split.
  - intros [Hx|(v & Hin & s & -> & Hacc & ->)]; [by left | right; by exists s].
  - intros [Hx|(s & Hin & Hacc & ->)]; [by left|]. right. exists (YStr s).
    split; [done|]. by exists s.
Qed.

Lemma plain_no_mappings (items : list yaml) : plain_strings items -> no_mappings items.
Proof.
  unfold plain_strings, no_mappings. intros H. eapply Forall_impl; [exact H|].
  by intros v [s ->] entries.
Qed.

Lemma extract_strings (items : list yaml) (refs : gset string) :
  plain_strings items ->
  exists refs',
    for_each items _extract_file_reference refs = (refs', Done tt) /\
    forall x, x ∈ refs' <->
      x ∈ refs \/
      exists s, In (YStr s) items /\ accepted s = true /\ x = PyPath.basename s.
Proof. intros H. by apply extract_scalars, plain_no_mappings. Qed.

End Extractor.

Section StructuredPath.

Lemma parse_yaml_references_keeps (data : list (yaml * yaml)) :
  keeps (_parse_yaml_references data).
Proof.
  unfold _parse_yaml_references. apply keeps_bind.
  - apply keeps_for_each. intros field.
    repeat case_match; try apply keeps_ret.
    apply keeps_for_each, extract_file_reference_keeps.
  - intros _. repeat case_match; try apply keeps_ret.
    apply keeps_for_each. intros patch.
    repeat case_match; try apply keeps_ret. apply add_local_file_keeps.
Qed.

Lemma for_each_skip {A} (l : list A) (body : A -> M unit) (refs : gset string) :
  (forall m r, In m l -> body m r = (r, Done tt)) ->
  for_each l body refs = (refs, Done tt).
Proof.
  intros Hbody. induction l as [|m l IH]; cbn [for_each]; [done|].
  unfold bind. rewrite Hbody by (by left). apply IH.
  intros m' r Hin. apply Hbody. by right.
Qed.

Lemma truthy_list (items : list yaml) (v : yaml) :
  In v items -> Py.truthy (YList items) = true.
Proof. by destruct items. Qed.

Variable env : Env.

(** X3. For a document whose recognised fields, where they hold a list,
    hold no mapping, [get_referenced_files] prints nothing and returns
    exactly the basenames of the strings of those lists that pass the
    tests of the extractor (not beginning with [http], not empty, without
    [/] or beginning with [./]). Fields that hold something else than a
    list, and elements that are neither strings nor mappings, add
    nothing. *)
Theorem document_without_mappings (kustomization_path : Path) (content : string)
    (data : list (yaml * yaml)) :
  env_read_text env kustomization_path = ReadOk content ->
  env_safe_load env content = Loaded (YDict data) ->
  (forall field items,
     In field FILE_REFERENCE_FIELDS ->
     Py.dict_get field data = Some (YList items) -> no_mappings items) ->
  exists refs,
    get_referenced_files env kustomization_path = (refs, []) /\
    forall x, x ∈ refs <->
      exists field items s,
        In field FILE_REFERENCE_FIELDS /\
        Py.dict_get field data = Some (YList items) /\
        In (YStr s) items /\ accepted s = true /\ x = PyPath.basename s.
Proof.
  intros Hread Hload Hdoc. unfold get_referenced_files. rewrite Hread, Hload.
  unfold _parse_yaml_references, bind.
  match goal with |- context [for_each FILE_REFERENCE_FIELDS ?b ∅] =>
    destruct (for_each_union FILE_REFERENCE_FIELDS b
                (fun field x => exists items s,
                   Py.dict_get field data = Some (YList items) /\
                   In (YStr s) items /\ accepted s = true /\
                   x = PyPath.basename s)) with (refs := (∅ : gset string))
      as (refs & Heq & Hiff)
  end.
  { intros field r Hfield.
    destruct (Py.dict_get field data) as [v|] eqn:Hget.
    2: { exists r. split; [done|]. intros x. split; [auto|].
         by intros [?|(items & s & ? & _)]. }
    destruct v as [| | | |items| |];
      try (exists r; split; [destruct (Py.truthy _); reflexivity|]; intros x;
           split; [auto|]; by intros [?|(its & s' & ? & _)]).
    destruct items as [|v items].
    { exists r. split; [done|]. intros x. split; [auto|].
      intros [?|(items & s & [= <-] & [] & _)]. done. }
    cbn [Py.truthy].
    destruct (extract_scalars (v :: items) r (Hdoc _ _ Hfield Hget))
      as (refs' & Heq & Hiff).
    exists refs'. split; [done|]. intros x. rewrite Hiff. split.
    - intros [Hx|(s & Hin & Hacc & ->)]; [by left|]. right. by exists (v :: items), s.
    - intros [Hx|(items' & s & [= <-] & Hin & Hacc & ->)]; [by left|].
      right. by exists s. }
  rewrite Heq.
  assert (match Py.dict_get "patches" data with
          | Some (YList patches) =>
              for_each patches (fun patch =>
                match patch with
                | YDict entries =>
                    match Py.dict_get "path" entries with
                    | Some path => _add_local_file path
                    | None => ret tt
                    end
                | _ => ret tt
                end)
          | _ => ret tt
          end refs = (refs, Done tt)) as ->.
  { destruct (Py.dict_get "patches" data) as [[| | | |patches| |]|] eqn:Hp; try done.
    apply for_each_skip. intros m r Hin.
    assert (no_mappings patches) as Hscalars.
    { apply (Hdoc "patches"); [|done]. simpl. tauto. }
    unfold no_mappings in Hscalars. rewrite Forall_forall in Hscalars.
    pose proof (Hscalars m (proj2 (list_elem_of_In _ _) Hin)) as Hm.
    destruct m; try done. by destruct (Hm entries). }
  exists refs. split; [done|]. intros x. rewrite Hiff. split.
  - intros [Hx|(field & Hf & items & s & H)]; [by apply not_elem_of_empty in Hx|].
    exists field, items, s. tauto.
  - intros (field & items & s & Hf & H). right. exists field. split; [done|].
    by exists items, s.
Qed.

(** X4. In the resource list, an entry that is a mapping without a
    [files] key, whose [path] is neither empty nor a string, stops the
    extraction, provided the entries that stand before it were extracted
    without error: one line about the error is printed, and the set
    returned is the one those earlier entries had recorded (for plain
    strings, the basenames of the strings that pass the tests of the
    extractor). What follows the entry in the list, and every other field
    of the document, is not looked at. *)
Theorem malformed_entry_stops_extraction (kustomization_path : Path)
    (content : string) (data : list (yaml * yaml))
    (before after : list yaml) (entries : list (yaml * yaml)) (v : yaml)
    (refs : gset string) :
  env_read_text env kustomization_path = ReadOk content ->
  env_safe_load env content = Loaded (YDict data) ->
  Py.dict_get "resources" data
    = Some (YList (before ++ YDict entries :: after)) ->
  for_each before _extract_file_reference ∅ = (refs, Done tt) ->
  Py.dict_get "files" entries = None ->
  Py.dict_get "path" entries = Some v ->
  Py.truthy v = true -> (forall s, v <> YStr s) ->
  get_referenced_files env kustomization_path
    = (refs, [ErrorReading kustomization_path (NoStartswith v)]) /\
  (plain_strings before ->
   forall x, x ∈ refs <->
     exists s, In (YStr s) before /\ accepted s = true /\ x = PyPath.basename s).
Proof.
  intros Hread Hload Hres Hbefore Hfiles Hpath Htruthy Hnostr. split.
  - unfold get_referenced_files. rewrite Hread, Hload.
    assert (_parse_yaml_references data ∅ = (refs, Raised (NoStartswith v))) as ->;
      [|done].
    unfold _parse_yaml_references, FILE_REFERENCE_FIELDS.
    cbn [for_each]. unfold bind at 1 2. rewrite Hres.
    rewrite (truthy_list _ (YDict entries)) by (apply in_elt).
    rewrite for_each_app. unfold bind at 1. rewrite Hbefore.
    cbn [for_each]. unfold bind at 1.
    assert (_extract_file_reference (YDict entries) refs
            = (refs, Raised (NoStartswith v))) as ->; [|done].
    unfold _extract_file_reference. rewrite Hfiles, Hpath.
    unfold _add_local_file. rewrite Htruthy.
    destruct v; try done. by destruct (Hnostr s).
  - intros Hplain x.
    destruct (extract_strings before ∅ Hplain) as (refs' & Heq & Hiff).
    rewrite Hbefore in Heq. injection Heq as <-. rewrite Hiff. split; [|auto].
    intros [Hx|H]; [by apply not_elem_of_empty in Hx | done].
Qed.

End StructuredPath.

Lemma document_without_mappings_witness :
  exists refs,
    get_referenced_files Samples.env_mixed Examples.kustomization = (refs, []) /\
    forall x, x ∈ refs <->
      exists field items s,
        In field FILE_REFERENCE_FIELDS /\
        Py.dict_get field Samples.mixed_doc = Some (YList items) /\
        In (YStr s) items /\ accepted s = true /\ x = PyPath.basename s.
Proof.
  apply (document_without_mappings Samples.env_mixed Examples.kustomization
           "resources: [deployment.yaml, 42, ...]" Samples.mixed_doc).
  - reflexivity.
  - reflexivity.
  - intros field items Hfield Hget. simpl in Hfield.
    repeat (destruct Hfield as [<-|Hfield]; [vm_compute in Hget; simplify_eq|]);
      [|done].
    repeat constructor; by intros entries.
Defined.

Lemma malformed_entry_stops_extraction_witness :
  get_referenced_files Samples.env_broken_entry Examples.kustomization
    = ({[ "service.yaml" ]} ∪ ({[ "deployment.yaml" ]} ∪ ∅),
       [ErrorReading Examples.kustomization (NoStartswith (YInt 5))]).
Proof.
  apply (malformed_entry_stops_extraction Samples.env_broken_entry
           Examples.kustomization "resources: [deployment.yaml, {path: service.yaml}, {path: 5}, ...]"
           Samples.broken_entry_doc
           [YStr "deployment.yaml"; YDict [(YStr "path", YStr "service.yaml")]]
           [YStr "config.yaml"]
           [(YStr "path", YInt 5)] (YInt 5)).
  - reflexivity.
  - reflexivity.
  - reflexivity.
  - by vm_compute.
  - reflexivity.
  - reflexivity.
  - reflexivity.
  - intros s. discriminate.
Defined.

Section EdgeCases.

Lemma accepted_single_char (c : ascii) :
  accepted (String c EmptyString) = negb (Ascii.eqb c "/"%char).
Proof.
  by destruct c as [[] [] [] [] [] [] [] []].
Qed.

Lemma chars_elem (s : string) (v : yaml) :
  In v (Py.chars s) <->
  exists c, In c (list_ascii_of_string s) /\ v = YStr (String c EmptyString).
Proof.
  induction s as [|a s IH]; cbn [Py.chars list_ascii_of_string In].
  - split; [done | by intros (c & [] & _)].
  - rewrite IH. split.
    + intros [<-|(c & Hc & ->)]; [exists a | exists c]; auto.
    + intros (c & [<-|Hc] & ->); [by left | right; by exists c].
Qed.

(** X5. A [files] value that is one plain string is run through
    character by character: what is recorded is every character of the
    string other than [/], each as a name of its own, and never the string
    itself when it has two characters or more. *)
Theorem files_string_is_split (entries : list (yaml * yaml)) (s : string)
    (refs : gset string) :
  Py.dict_get "files" entries = Some (YStr s) ->
  exists refs',
    _extract_file_reference (YDict entries) refs = (refs', Done tt) /\
    (forall x, x ∈ refs' <->
       x ∈ refs \/
       exists c, In c (list_ascii_of_string s) /\ c <> "/"%char /\
                 x = String c EmptyString) /\
    ((2 <= String.length s)%nat -> s ∉ refs -> s ∉ refs').
Proof.
  intros Hfiles. unfold _extract_file_reference. rewrite Hfiles.
  cbn [Py.iterate].
  match goal with |- context [for_each (Py.chars s) ?b refs] =>
    destruct (for_each_union (Py.chars s) b
                (fun v x => exists c, v = YStr (String c EmptyString) /\
                                      c <> "/"%char /\ x = String c EmptyString))
      with (refs := refs) as (refs' & Heq & Hiff)
  end.
  { intros v r (c & Hc & ->)%chars_elem. rewrite add_local_file_plain.
    rewrite accepted_single_char.
    destruct (Ascii.eqb_spec c "/"%char) as [->|Hne]; cbn [negb].
    - exists r. split; [done|]. intros x. split; [auto|].
      intros [?|(c & [= <-] & Hne & _)]; done.
    - eexists. split; [done|]. intros x.
      rewrite elem_of_union, elem_of_singleton, basename_bare.
      + split.
        * intros [->|Hx]; [right; by exists c | by left].
        * intros [Hx|(c' & [= <-] & _ & ->)]; auto.
      + cbn. rewrite orb_false_r. by apply Ascii.eqb_neq. }
  exists refs'. split; [done|].
  assert (forall x, x ∈ refs' <->
            x ∈ refs \/
            exists c, In c (list_ascii_of_string s) /\ c <> "/"%char /\
                      x = String c EmptyString) as Hchars.
  { intros x. rewrite Hiff. split.
    - intros [Hx|(v & (c & Hc & ->)%chars_elem & c' & [= <-] & Hne & ->)];
        [by left | right; by exists c].
    - intros [Hx|(c & Hc & Hne & ->)]; [by left|]. right.
      exists (YStr (String c EmptyString)). split; [apply chars_elem; by exists c|].
      by exists c. }
  split; [done|]. intros Hlen Hnot [Hin|(c & _ & _ & ->)]%Hchars; [done|].
  cbn in Hlen. lia.
Qed.

Lemma accepted_relative (rest : string) : accepted ("./" +:+ rest) = true.
Proof.
  unfold accepted.
  assert (PyStr.startswith ("./" +:+ rest) "./" = true) as ->
    by (apply prefix_iff; by exists rest).
  rewrite orb_true_r, andb_true_r.
  change ("./" +:+ rest) with (String "."%char (String "/"%char rest)).
  reflexivity.
Qed.

(** X6. A reference that begins with [./] is recorded under its last
    component, whatever directories it goes through, while a reference
    that has a [/] and does not begin with [./] is not recorded at all. *)
Theorem relative_marker_decides (refs : gset string) :
  (forall dirs name,
     PyStr.has_char "/"%char name = false ->
     _add_local_file (YStr ("./" +:+ dirs +:+ "/" +:+ name)) refs
       = ({[ name ]} ∪ refs, Done tt)) /\
  (forall name,
     PyStr.has_char "/"%char name = false ->
     _add_local_file (YStr ("./" +:+ name)) refs = ({[ name ]} ∪ refs, Done tt)) /\
  (forall s,
     PyStr.has_char "/"%char s = true -> PyStr.startswith s "./" = false ->
     _add_local_file (YStr s) refs = (refs, Done tt)).
Proof.
  split; [|split].
  - intros dirs name Hn. rewrite add_local_file_plain.
    rewrite accepted_relative.
    by rewrite <- str_app_assoc, basename_after_separator.
  - intros name Hn. rewrite add_local_file_plain.
    rewrite accepted_relative.
    change ("./" +:+ name) with ("." +:+ "/" +:+ name).
    by rewrite (basename_after_separator "." name).
  - intros s Hs Hrel. rewrite add_local_file_plain. unfold accepted.
    rewrite Hs, Hrel. cbn. by rewrite !andb_false_r.
Qed.

End EdgeCases.

Lemma files_string_is_split_witness :
  exists refs',
    _extract_file_reference (YDict Samples.generator_entry_string) ∅ = (refs', Done tt) /\
    (forall x, x ∈ refs' <->
       x ∈ (∅ : gset string) \/
       exists c, In c (list_ascii_of_string "a/b") /\ c <> "/"%char /\
                 x = String c EmptyString) /\
    ((2 <= String.length "a/b")%nat -> "a/b" ∉ (∅ : gset string) -> "a/b" ∉ refs').
Proof.
  apply (files_string_is_split Samples.generator_entry_string "a/b" ∅).
  reflexivity.
Defined.

Lemma relative_marker_decides_witness :
  _add_local_file (YStr ("./" +:+ "base/overlays" +:+ "/" +:+ "service.yaml")) ∅
    = ({[ "service.yaml" ]} ∪ ∅, Done tt) /\
  _add_local_file (YStr ("./" +:+ "service.yaml")) ∅
    = ({[ "service.yaml" ]} ∪ ∅, Done tt) /\
  _add_local_file (YStr "base/service.yaml") ∅ = (∅, Done tt).
Proof.
  destruct (relative_marker_decides ∅) as (Hdirs & Hname & Hnot).
  split; [|split].
  - apply (Hdirs "base/overlays" "service.yaml"). reflexivity.
  - apply (Hname "service.yaml"). reflexivity.
  - apply (Hnot "base/service.yaml"); reflexivity.
Defined.

Section EndToEnd.
Import UnreferencedFileAnalyzer.

Lemma joinpath_inj (root d d' : Path) (n n' : string) :
  PyPath.joinpath (root ++ d) n = PyPath.joinpath (root ++ d') n' ->
  d = d' /\ n = n'.
Proof.
  unfold PyPath.joinpath. intros [H1 H2]%app_inj_tail.
  split; [|done]. by apply app_inv_head in H1.
Qed.

Lemma not_reported_when_referenced (env : Env) (project_root d : Path) (x : string) :
  x ∈ (get_referenced_files env
         (PyPath.joinpath (manifests_dir project_root ++ d) "kustomization.yaml")).1 ->
  ~ In (PyPath.joinpath (manifests_dir project_root ++ d) x)
       (find_all_unreferenced env project_root).1.
Proof.
  intros Hx (d' & name & _ & _ & _ & _ & Hnot & Heq)%find_all_unreferenced_elem.
  cbv zeta in *. apply joinpath_inj in Heq as [<- <-]. done.
Qed.

Lemma bind_keeps_result {A B} (m : M A) (k : A -> M B) (refs : gset string)
    (x : string) :
  x ∈ (m refs).1 -> (forall a, keeps (k a)) -> x ∈ (bind m k refs).1.
Proof.
  intros Hx Hk. unfold bind. destruct (m refs) as [refs' [a|e]]; cbn in *;
    [by apply Hk | done].
Qed.

Variable env : Env.

(** X7. A file that the resource list of its directory names is never
    reported: when the kustomization file of a directory loads as a
    mapping whose [resources] list holds plain strings only, every string
    of that list that passes the tests of the extractor keeps the file
    called by its basename in that directory out of the result of
    [find_all_unreferenced], whatever the rest of the document holds. *)
Theorem referenced_resource_is_not_reported (project_root d : Path)
    (content : string) (data : list (yaml * yaml)) (items : list yaml)
    (s : string) :
  let directory := manifests_dir project_root ++ d in
  env_read_text env (PyPath.joinpath directory "kustomization.yaml")
    = ReadOk content ->
  env_safe_load env content = Loaded (YDict data) ->
  Py.dict_get "resources" data = Some (YList items) ->
  plain_strings items ->
  In (YStr s) items -> accepted s = true ->
  ~ In (PyPath.joinpath directory (PyPath.basename s))
       (find_all_unreferenced env project_root).1.
Proof.
  intros directory Hread Hload Hres Hplain Hin Hacc.
  apply not_reported_when_referenced. fold directory.
  unfold get_referenced_files. rewrite Hread, Hload.
  assert (PyPath.basename s ∈ (_parse_yaml_references data ∅).1) as Hs.
  { unfold _parse_yaml_references.
    change FILE_REFERENCE_FIELDS with ("resources" :: tl FILE_REFERENCE_FIELDS).
    cbn [for_each]. apply bind_keeps_result.
    2: { intros _. repeat case_match; try apply keeps_ret.
         apply keeps_for_each. intros patch.
         repeat case_match; try apply keeps_ret. apply add_local_file_keeps. }
    apply bind_keeps_result.
    2: { intros _. apply keeps_for_each. intros field.
         repeat case_match; try apply keeps_ret.
         apply keeps_for_each, extract_file_reference_keeps. }
    rewrite Hres, (truthy_list _ _ Hin).
    destruct (extract_strings items ∅ Hplain) as (refs & -> & Hiff).
    apply Hiff. right. by exists s. }
  by destruct (_parse_yaml_references data ∅) as [refs [[]|e]].
Qed.

(** X8. A file that the fallback pattern finds is never reported: when
    the loader raises a [YAMLError] on the kustomization file of a
    directory, a line of its text made of indentation, a dash, at least
    one blank, a bare name [stem.yaml] or [stem.yml] of characters other
    than [/], white space and [#], then blanks and an optional comment,
    keeps the file of that name in that directory out of the result of
    [find_all_unreferenced]. A name written with a path or between quotes
    is not of that shape. *)
Theorem fallback_reference_is_not_reported (project_root d : Path)
    (pre line post stem ext : string) :
  let directory := manifests_dir project_root ++ d in
  env_read_text env (PyPath.joinpath directory "kustomization.yaml")
    = ReadOk (pre +:+ line +:+ post) ->
  env_safe_load env (pre +:+ line +:+ post) = LoadYAMLError ->
  Line.starts_line_after pre -> Line.ends_line_before post ->
  Line.list_item line stem ext ->
  ~ In (PyPath.joinpath directory (stem +:+ "." +:+ ext))
       (find_all_unreferenced env project_root).1.
Proof.
  intros directory Hread Hload Hpre Hpost Hitem.
  apply not_reported_when_referenced. fold directory.
  unfold get_referenced_files. rewrite Hread, Hload.
  destruct (parse_regex_references_spec (pre +:+ line +:+ post) ∅)
    as (refs & -> & Hiff).
  cbn. apply Hiff. right. by apply finditer_list_item.
Qed.

End EndToEnd.

Lemma referenced_resource_is_not_reported_witness :
  accepted "deployment.yaml" = true /\
  ~ In (PyPath.joinpath Examples.app_dir (PyPath.basename "deployment.yaml"))
       (UnreferencedFileAnalyzer.find_all_unreferenced
          Examples.env_tree Examples.project_root).1.
Proof.
  split; [reflexivity|].
  apply (referenced_resource_is_not_reported Examples.env_tree Examples.project_root
           ["app"] "resources: [deployment.yaml]"
           [(YStr "resources", YList [YStr "deployment.yaml"])]
           [YStr "deployment.yaml"] "deployment.yaml").
  - reflexivity.
  - reflexivity.
  - reflexivity.
  - repeat constructor. by exists "deployment.yaml".
  - by left.
  - reflexivity.
Defined.

Lemma fallback_reference_is_not_reported_witness :
  Line.list_item "  - sidecar.yaml" "sidecar" "yaml" /\
  ~ In (PyPath.joinpath Examples.app_dir ("sidecar" +:+ "." +:+ "yaml"))
       (UnreferencedFileAnalyzer.find_all_unreferenced
          Samples.env_malformed_tree Examples.project_root).1.
Proof.
  assert (Line.list_item "  - sidecar.yaml" "sidecar" "yaml") as Hitem.
  { exists "  ", " ", EmptyString, EmptyString.
    repeat split; try done; by left. }
  split; [exact Hitem|].
  apply (fallback_reference_is_not_reported Samples.env_malformed_tree
           Examples.project_root ["app"] ("resources:" +:+ Main.NL)
           "  - sidecar.yaml" (Main.NL +:+ "  bad: [") "sidecar" "yaml").
  - reflexivity.
  - reflexivity.
  - right. by exists "resources:".
  - right. by exists "  bad: [".
  - exact Hitem.
Defined.

Section FallbackNames.

Lemma pattern_sound_group (T : list ascii) (i : nat) (m : mstate) :
  sem T pattern (start i) m ->
  exists a b' b ext,
    group1 m = Some (a, b) /\ (a < b')%nat /\ run T name_char a b' /\
    T !! b' = Some "."%char /\ occurs_at T (list_ascii_of_string ext) (S b') /\
    b = (S b' + String.length ext)%nat /\ (ext = "yaml" \/ ext = "yml").
Proof.
  unfold pattern. cbn [sem Lits].
  repeat setoid_rewrite sem_Lit. setoid_rewrite sem_Plus. setoid_rewrite sem_Opt.
  intros (s1 & [Hbol ->] & s2 & [Hsp1 Hg1] & s3 & [Hdash ->] & s4 & [Hsp2 Hg2]
          & s5 & (gE & Hgrp & ->) & s6 & [Hsp3 Hg3] & s7 & Hopt & Heol & ->).
  destruct Hgrp as (s8 & ((c0 & Hc0 & Hp0) & Hrun & Hg8) & s9 & [Hdot ->] & Hext).
  cbn [pos group1] in *.
  assert (group1 s7 = Some (pos s4, pos gE)) as Hgroup.
  { destruct Hopt as [(Hhash & Hdots & Hg)%sem_Lit_Star | -> ]; congruence. }
  assert (run T name_char (pos s4) (pos s8)) as Hstem by (by eapply run_cons).
  pose proof (run_le T _ _ _ Hrun) as Hle.
  destruct Hext as [Hext|Hext].
  - destruct Hext as (t1 & [Hy ->] & t2 & [Ha ->] & t3 & [Hm ->] & t4 & [Hl ->] & ->).
    cbn [pos] in *. exists (pos s4), (pos s8), (S (S (S (S (S (pos s8)))))), "yaml".
    refine (conj Hgroup (conj _ (conj Hstem (conj Hdot (conj _ (conj _ _))))));
      [lia| |cbn; lia|by left].
    unfold occurs_at. cbn [length list_ascii_of_string].
    rewrite (drop_S _ _ _ Hy), (drop_S _ _ _ Ha), (drop_S _ _ _ Hm), (drop_S _ _ _ Hl).
    done.
  - destruct Hext as (t1 & [Hy ->] & t2 & [Hm ->] & t3 & [Hl ->] & ->).
    cbn [pos] in *. exists (pos s4), (pos s8), (S (S (S (S (pos s8))))), "yml".
    refine (conj Hgroup (conj _ (conj Hstem (conj Hdot (conj _ (conj _ _))))));
      [lia| |cbn; lia|by right].
    unfold occurs_at. cbn [length list_ascii_of_string].
    rewrite (drop_S _ _ _ Hy), (drop_S _ _ _ Hm), (drop_S _ _ _ Hl).
    done.
Qed.

Lemma group_text_shape (T : list ascii) (a b' : nat) (ext : list ascii) :
  (a <= b')%nat -> T !! b' = Some "."%char -> occurs_at T ext (S b') ->
  take (S b' + length ext - a) (drop a T)
  = take (b' - a) (drop a T) ++ "."%char :: ext.
Proof.
  intros Hab Hdot Hocc. pose proof (lookup_lt_Some _ _ _ Hdot) as Hlt.
  rewrite <- (take_drop (b' - a) (drop a T)) at 1.
  rewrite drop_drop. replace (a + (b' - a))%nat with b' by lia.
  rewrite (drop_S _ _ _ Hdot).
  rewrite <- (take_drop (length ext) (drop (S b') T)). unfold occurs_at in Hocc.
  rewrite Hocc.
  assert (length (take (b' - a) (drop a T)) = (b' - a)%nat) as Hlen.
  { rewrite length_take, length_drop. lia. }
  replace (take (b' - a) (drop a T) ++ "."%char :: ext
           ++ drop (length ext) (drop (S b') T))
    with ((take (b' - a) (drop a T) ++ "."%char :: ext)
          ++ drop (length ext) (drop (S b') T))
    by (by rewrite <- app_assoc).
  apply take_app_length'. rewrite length_app, Hlen. cbn [length]. lia.
Qed.

Lemma string_of_list_ascii_app (l1 l2 : list ascii) :
  string_of_list_ascii (l1 ++ l2) = string_of_list_ascii l1 +:+ string_of_list_ascii l2.
Proof. induction l1 as [|c l1 IH]; [done|]. cbn. by rewrite IH. Qed.

Lemma Forall_all_chars (p : ascii -> bool) (l : list ascii) :
  Forall (fun c => p c = true) l -> Line.all_chars p (string_of_list_ascii l).
Proof. induction 1; cbn; auto. Qed.

Variable env : Env.

(** X9. On the fallback path every recorded name ends in [.yaml] or
    [.yml] after a stem that is not empty, and holds no white space, no
    [#] and no [/]. *)
Theorem fallback_names_are_yaml_files (kustomization_path : Path) (content x : string) :
  env_read_text env kustomization_path = ReadOk content ->
  env_safe_load env content = LoadYAMLError ->
  x ∈ (get_referenced_files env kustomization_path).1 ->
  exists stem ext,
    x = stem +:+ "." +:+ ext /\ stem <> EmptyString /\
    (ext = "yaml" \/ ext = "yml") /\
    Line.all_chars name_char x.
Proof.
  intros Hread Hload. unfold get_referenced_files. rewrite Hread, Hload.
  destruct (parse_regex_references_spec content ∅) as (refs & -> & Hiff).
  cbn. intros [Hx|(m & Hin & Hg)]%Hiff; [by apply not_elem_of_empty in Hx|].
  set (T := list_ascii_of_string content) in *.
  pose proof (finditer_group_name_chars T m _ Hin Hg) as Hchars.
  apply Forall_all_chars in Hchars. rewrite string_of_list_ascii_of_string in Hchars.
  destruct (scan_sound _ _ _ _ _ Hin) as [i Hi%match_at_sem].
  apply pattern_sound_group in Hi
    as (a & b' & b & ext & Hg1 & Hab & Hrun & Hdot & Hocc & -> & Hext).
  unfold group in Hg. rewrite Hg1 in Hg. injection Hg as Hg.
  assert (length (list_ascii_of_string ext) = String.length ext) as Hlen
    by (destruct Hext as [-> | ->]; reflexivity).
  rewrite <- Hlen in Hg.
  change (S (b' + length (list_ascii_of_string ext)))
    with (S b' + length (list_ascii_of_string ext))%nat in Hg.
  rewrite group_text_shape in Hg by (done || lia).
  exists (string_of_list_ascii (take (b' - a) (drop a T))), ext.
  split; [|split; [|done]].
  - rewrite <- (string_of_list_ascii_of_string x), <- Hg.
    rewrite string_of_list_ascii_app. cbn [string_of_list_ascii].
    by rewrite string_of_list_ascii_of_string.
  - pose proof (lookup_lt_Some _ _ _ Hdot) as Hlt.
    destruct (take (b' - a) (drop a T)) as [|c l] eqn:E; [|done].
    apply (f_equal length) in E. rewrite length_take, length_drop in E.
    cbn in E. lia.
Qed.

End FallbackNames.

Lemma fallback_names_are_yaml_files_witness :
  exists stem ext,
    "sidecar.yaml" = stem +:+ "." +:+ ext /\ stem <> EmptyString /\
    (ext = "yaml" \/ ext = "yml") /\
    Line.all_chars name_char "sidecar.yaml".
Proof.
  apply (fallback_names_are_yaml_files Examples.env_malformed Examples.kustomization
           Examples.malformed "sidecar.yaml").
  - reflexivity.
  - reflexivity.
  - by vm_compute.
Defined.

(** * Further properties of the structured extraction *)

Section GeneratorEntries.

(** X10. An entry that is a mapping with a [files] key: when the value
    can be run through (a list, a string, a mapping), its elements that are
    strings are recorded like direct references, every other element is
    passed over, and the [path] key of the entry is not consulted; when it
    cannot (a number, a boolean, [None]), the extraction raises and the
    set is left as it was. *)
Theorem files_entry_is_iterated (entries : list (yaml * yaml)) (files : yaml)
    (refs : gset string) :
  Py.dict_get "files" entries = Some files ->
  match Py.iterate files with
  | Some elems =>
      exists refs',
        _extract_file_reference (YDict entries) refs = (refs', Done tt) /\
        forall x, x ∈ refs' <->
          x ∈ refs \/
          exists s, In (YStr s) elems /\ accepted s = true /\ x = PyPath.basename s
  | None =>
      _extract_file_reference (YDict entries) refs = (refs, Raised (NotIterable files))
  end.
Proof.
  intros Hfiles. unfold _extract_file_reference. rewrite Hfiles.
  destruct (Py.iterate files) as [elems|]; [|done].
  match goal with |- context [for_each elems ?b refs] =>
    destruct (for_each_union elems b
                (fun v x => exists s, v = YStr s /\ accepted s = true /\
                                      x = PyPath.basename s))
      with (refs := refs) as (refs' & Heq & Hiff)
  end.
  { intros v r _. destruct v as [| | |s| | |];
      try (exists r; split; [done|]; intros x; split; [auto|];
           by intros [?|(s' & ? & _)]).
    rewrite add_local_file_plain. destruct (accepted s) eqn:Hacc.
    - eexists. split; [done|]. intros x.
      rewrite elem_of_union, elem_of_singleton. split.
      + intros [->|Hx]; [right; by exists s | by left].
      + intros [Hx|(s' & [= <-] & _ & ->)]; auto.
    - eexists. split; [done|]. intros x. split; [auto|].
      intros [Hx|(s' & [= <-] & Hacc' & _)]; [done | congruence]. }
  exists refs'. split; [done|]. intros x. rewrite Hiff. split.
  - intros [Hx|(v & Hin & s & -> & Hacc & ->)]; [by left | right; by exists s].
  - intros [Hx|(s & Hin & Hacc & ->)]; [by left|]. right. exists (YStr s).
    split; [done|]. by exists s.
Qed.

Lemma for_each_done_elem {A} (l : list A) (body : A -> M unit) (m : A)
    (refs refs' : gset string) (x : string) :
  (forall a, keeps (body a)) ->
  In m l ->
  (forall r r', body m r = (r', Done tt) -> x ∈ r') ->
  for_each l body refs = (refs', Done tt) -> x ∈ refs'.
Proof.
  intros Hkeeps Hin Hm. revert refs. induction l as [|a l IH]; [done|].
  intros refs. cbn [for_each]. unfold bind.
  destruct (body a refs) as [r1 [[]|e]] eqn:Ha; [|done]. intros Hrest.
  destruct Hin as [->|Hin]; [|by eapply IH].
  pose proof (keeps_for_each l body Hkeeps r1 x (Hm _ _ Ha)) as Hk.
  by rewrite Hrest in Hk.
Qed.

Lemma for_each_ext {A} (l : list A) (body body' : A -> M unit) (refs : gset string) :
  (forall a r, In a l -> body a r = body' a r) ->
  for_each l body refs = for_each l body' refs.
Proof.
  revert refs. induction l as [|a l IH]; intros refs Hext; [done|].
  cbn [for_each]. unfold bind. rewrite Hext by (by left).
  destruct (body' a refs) as [r1 [[]|e]]; [|done].
  apply IH. intros a' r Hin. apply Hext. by right.
Qed.

Variable env : Env.

(** X11. A patch with a target is recorded: when the extraction ends
    without a diagnostic, the [path] of every mapping of the [patches]
    list that is a string passing the tests of [_add_local_file] has its
    basename in the result, whatever else the mapping holds. *)
Theorem patch_path_is_recorded (kustomization_path : Path) (content : string)
    (data : list (yaml * yaml)) (patches : list yaml)
    (entries : list (yaml * yaml)) (s : string) (refs : gset string) :
  env_read_text env kustomization_path = ReadOk content ->
  env_safe_load env content = Loaded (YDict data) ->
  Py.dict_get "patches" data = Some (YList patches) ->
  In (YDict entries) patches ->
  Py.dict_get "path" entries = Some (YStr s) -> accepted s = true ->
  get_referenced_files env kustomization_path = (refs, []) ->
  PyPath.basename s ∈ refs.
Proof.
  intros Hread Hload Hpatches Hin Hpath Hacc. unfold get_referenced_files.
  rewrite Hread, Hload.
  destruct (_parse_yaml_references data ∅) as [refs' [[]|e]] eqn:Hparse; [|done].
  intros [= <-]. revert Hparse. unfold _parse_yaml_references, bind.
  destruct (for_each FILE_REFERENCE_FIELDS _ ∅) as [refs1 [[]|e]]; [|done].
  rewrite Hpatches. apply for_each_done_elem with (m := YDict entries); [|done|].
  - intros patch. repeat case_match; try apply keeps_ret. apply add_local_file_keeps.
  - intros r r'. rewrite Hpath, add_local_file_plain, Hacc. intros [= <-].
    set_solver.
Qed.

(** X12. The extraction reads the recognised fields only: two documents
    that agree on every field of [FILE_REFERENCE_FIELDS] give the same
    set and the same outcome, whatever else they hold. *)
Theorem unrecognised_fields_are_ignored (data data' : list (yaml * yaml))
    (refs : gset string) :
  (forall field, In field FILE_REFERENCE_FIELDS ->
     Py.dict_get field data = Py.dict_get field data') ->
  _parse_yaml_references data refs = _parse_yaml_references data' refs.
Proof.
  intros Hsame. unfold _parse_yaml_references, bind.
  rewrite (for_each_ext FILE_REFERENCE_FIELDS _
             (fun field =>
                match Py.dict_get field data' with
                | Some v =>
                    if Py.truthy v then
                      match v with
                      | YList items => for_each items _extract_file_reference
                      | _ => ret tt
                      end
                    else ret tt
                | None => ret tt
                end)).
  - rewrite (Hsame "patches") by (simpl; tauto). done.
  - intros field r Hin. by rewrite (Hsame field Hin).
Qed.

End GeneratorEntries.

Lemma files_entry_is_iterated_witness :
  (exists refs',
     _extract_file_reference (YDict Samples.generator_entry) ∅ = (refs', Done tt) /\
     forall x, x ∈ refs' <->
       x ∈ (∅ : gset string) \/
       exists s,
         In (YStr s) [YStr "app.properties"; YInt 3; YStr "./conf/extra.properties"] /\
         accepted s = true /\ x = PyPath.basename s) /\
  _extract_file_reference (YDict Samples.generator_entry_number) ∅
    = (∅, Raised (NotIterable (YInt 3))).
Proof.
  split.
  - exact (files_entry_is_iterated Samples.generator_entry
             (YList [YStr "app.properties"; YInt 3; YStr "./conf/extra.properties"])
             ∅ eq_refl).
  - exact (files_entry_is_iterated Samples.generator_entry_number (YInt 3) ∅ eq_refl).
Defined.

Lemma patch_path_is_recorded_witness :
  PyPath.basename "patch.yaml"
    ∈ (get_referenced_files Samples.env_patch Examples.kustomization).1.
Proof.
  apply (patch_path_is_recorded Samples.env_patch Examples.kustomization
           "patches: [{path: patch.yaml, target: ...}]" Samples.patch_doc
           [YDict Samples.patch_entry] Samples.patch_entry "patch.yaml").
  - reflexivity.
  - reflexivity.
  - reflexivity.
  - by left.
  - reflexivity.
  - reflexivity.
  - by vm_compute.
Defined.

Lemma unrecognised_fields_are_ignored_witness :
  _parse_yaml_references Samples.mixed_doc ∅ =
  _parse_yaml_references [(YStr "resources", YList Samples.mixed_resources)] ∅.
Proof.
  apply (unrecognised_fields_are_ignored Samples.mixed_doc
           [(YStr "resources", YList Samples.mixed_resources)] ∅).
  intros field Hfield. simpl in Hfield.
  repeat (destruct Hfield as [<-|Hfield]; [reflexivity|]). done.
Defined.

(** * Where the fallback finds its names *)

Section FallbackPlaces.

Lemma run_take_drop (T : list ascii) (p : ascii -> bool) (u v : nat) :
  run T p u v -> Forall (fun c => p c = true) (take (v - u) (drop u T)).
Proof.
  intros Hrun. apply Forall_lookup_2. intros k c Hk.
  apply lookup_take_Some in Hk as [Hk Hlt]. rewrite lookup_drop in Hk.
  destruct (run_at T _ _ _ (u + k)%nat Hrun) as (c' & Hc' & Hp); [lia|].
  by simplify_eq.
Qed.

Lemma drop_segment {A} (T : list A) (u v : nat) :
  (u <= v)%nat -> drop u T = take (v - u) (drop u T) ++ drop v T.
Proof.
  intros Hle. rewrite <- (take_drop (v - u) (drop u T)) at 1.
  rewrite drop_drop. by replace (u + (v - u))%nat with v by lia.
Qed.

Lemma at_bol_starts_line (T : list ascii) (i : nat) :
  at_bol T i = true -> Line.starts_line_after (string_of_list_ascii (take i T)).
Proof.
  destruct i as [|j]; [by left|]. intros Hj%at_bol_newline. right.
  exists (string_of_list_ascii (take j T)).
  by rewrite (take_S_r _ _ _ Hj), string_of_list_ascii_app.
Qed.

Lemma at_eol_ends_line (T : list ascii) (e : nat) :
  at_eol T e = true -> Line.ends_line_before (string_of_list_ascii (drop e T)).
Proof.
  intros [Hnone|Hnl]%at_eol_cases.
  - left. apply lookup_ge_None in Hnone. by rewrite drop_ge.
  - right. exists (string_of_list_ascii (drop (S e) T)).
    by rewrite (drop_S _ _ _ Hnl).
Qed.

Variable env : Env.

(** X13. On the fallback path every recorded name stands in the text
    after a dash that is the first character other than white space since
    the start of a line, with white space only between the dash and the
    name, and is followed by white space, an optional comment from [#] to
    the end of its line, and the end of a line. White space may hold line
    breaks here: the name need not stand on the line of its dash. *)
Theorem fallback_names_stand_on_item_lines (kustomization_path : Path)
    (content x : string) :
  env_read_text env kustomization_path = ReadOk content ->
  env_safe_load env content = LoadYAMLError ->
  x ∈ (get_referenced_files env kustomization_path).1 ->
  exists before indent gap trail remark after,
    content = before +:+ indent +:+ "-" +:+ gap +:+ x +:+ trail +:+ remark +:+ after /\
    Line.starts_line_after before /\
    Line.all_chars is_space indent /\
    Line.all_chars is_space gap /\
    Line.all_chars is_space trail /\
    Line.comment remark /\
    Line.ends_line_before after.
Proof.
  intros Hread Hload. unfold get_referenced_files. rewrite Hread, Hload.
  destruct (parse_regex_references_spec content ∅) as (refs & -> & Hiff).
  cbn. intros [Hx|(m & Hin & Hg)]%Hiff; [by apply not_elem_of_empty in Hx|].
  set (T := list_ascii_of_string content) in *.
  destruct (scan_sound _ _ _ _ _ Hin) as [i Hi%match_at_sem].
  apply pattern_sound in Hi
    as (d & a & b & c1 & Hbol & Hind & Hdash & Hgap & Hname & Hlt & Htrail
        & Hrem & Heol & Hg1).
  unfold group in Hg. rewrite Hg1 in Hg. injection Hg as Hg.
  pose proof (run_le _ _ _ _ Hind) as Hle1.
  pose proof (run_le _ _ _ _ Hgap) as Hle2.
  pose proof (run_le _ _ _ _ Htrail) as Hle3.
  assert (c1 <= pos m)%nat as Hle4.
  { destruct Hrem as [->|[_ Hr]]; [done|]. apply run_le in Hr. lia. }
  exists (string_of_list_ascii (take i T)),
         (string_of_list_ascii (take (d - i) (drop i T))),
         (string_of_list_ascii (take (a - S d) (drop (S d) T))),
         (string_of_list_ascii (take (c1 - b) (drop b T))),
         (string_of_list_ascii (take (pos m - c1) (drop c1 T))),
         (string_of_list_ascii (drop (pos m) T)).
  split; [|split; [|split; [|split; [|split; [|split]]]]].
  - rewrite <- (string_of_list_ascii_of_string content) at 1. fold T.
    rewrite <- (string_of_list_ascii_of_string x), <- Hg.
    change "-" with (string_of_list_ascii ["-"%char]).
    rewrite <- !string_of_list_ascii_app. f_equal.
    rewrite <- (take_drop i T) at 1. f_equal.
    rewrite (drop_segment T i d) at 1 by done. f_equal.
    rewrite (drop_S _ _ _ Hdash). cbn [app]. f_equal.
    rewrite (drop_segment T (S d) a) at 1 by done. f_equal.
    rewrite (drop_segment T a b) at 1 by lia. f_equal.
    rewrite (drop_segment T b c1) at 1 by done. f_equal.
    by apply drop_segment.
  - by apply at_bol_starts_line.
  - by apply Forall_all_chars, run_take_drop.
  - by apply Forall_all_chars, run_take_drop.
  - by apply Forall_all_chars, run_take_drop.
  - destruct Hrem as [->|[Hhash Hdots]].
    + left. by rewrite Nat.sub_diag.
    + right. pose proof (run_le _ _ _ _ Hdots) as Hle5.
      exists (string_of_list_ascii (take (pos m - S c1) (drop (S c1) T))). split.
      * rewrite (drop_S _ _ _ Hhash).
        replace (pos m - c1)%nat with (S (pos m - S c1)) by lia. done.
      * by apply Forall_all_chars, run_take_drop.
  - by apply at_eol_ends_line.
Qed.

End FallbackPlaces.

Lemma fallback_names_stand_on_item_lines_witness :
  exists before indent gap trail remark after,
    Examples.malformed
      = before +:+ indent +:+ "-" +:+ gap +:+ "sidecar.yaml" +:+ trail +:+ remark +:+ after /\
    Line.starts_line_after before /\
    Line.all_chars is_space indent /\
    Line.all_chars is_space gap /\
    Line.all_chars is_space trail /\
    Line.comment remark /\
    Line.ends_line_before after.
Proof.
  apply (fallback_names_stand_on_item_lines Examples.env_malformed
           Examples.kustomization Examples.malformed "sidecar.yaml").
  - reflexivity.
  - reflexivity.
  - by vm_compute.
Defined.

(** * Further properties of the finder *)

Section Suffix.

Lemma has_char_app (c : ascii) (a b : string) :
  PyStr.has_char c (a +:+ b) = PyStr.has_char c a || PyStr.has_char c b.
Proof.
  induction a as [|x a IH]; [by destruct b|].
  rewrite str_app_cons. cbn [PyStr.has_char]. by rewrite IH, orb_assoc.
Qed.

Lemma rfind_range (c : ascii) (s : string) :
  (-1 <= PyStr.rfind c s < Z.of_nat (String.length s))%Z.
Proof.
  induction s as [|a s IH]; cbn [PyStr.rfind String.length]; [lia|].
  destruct (0 <=? PyStr.rfind c s)%Z eqn:E.
  - apply Z.leb_le in E. lia.
  - destruct (Ascii.eqb a c); lia.
Qed.

Lemma rfind_split (c : ascii) (s : string) :
  (0 <= PyStr.rfind c s)%Z ->
  exists pre t,
    s = pre +:+ String c t /\ PyStr.has_char c t = false /\
    PyStr.rfind c s = Z.of_nat (String.length pre).
Proof.
  induction s as [|a s IH]; cbn [PyStr.rfind]; [lia|].
  destruct (0 <=? PyStr.rfind c s)%Z eqn:E.
  - apply Z.leb_le in E. destruct (IH E) as (pre & t & -> & Ht & Hr). intros _.
    exists (String a pre), t. rewrite str_app_cons. split; [done|]. split; [done|].
    rewrite Hr. cbn [String.length]. lia.
  - apply Z.leb_gt in E. destruct (Ascii.eqb_spec a c) as [->|Hne]; [|lia].
    intros _. exists EmptyString, s. split; [done|]. split; [|done].
    pose proof (rfind_range c s) as Hrange.
    destruct (PyStr.has_char c s) eqn:Hh; [|done]. exfalso.
    clear -Hh E. induction s as [|b s IH]; [done|]. cbn [PyStr.has_char PyStr.rfind] in *.
    destruct (0 <=? PyStr.rfind c s)%Z eqn:E'.
    + apply Z.leb_le in E'. lia.
    + apply Z.leb_gt in E'. destruct (Ascii.eqb_spec b c) as [->|Hne]; [lia|].
      cbn in Hh. by apply IH.
Qed.

Lemma str_length_app (a b : string) :
  String.length (a +:+ b) = (String.length a + String.length b)%nat.
Proof.
  induction a as [|x a IH]; [by destruct b|].
  rewrite str_app_cons. cbn [String.length]. by rewrite IH.
Qed.

(** [path.suffix] is [.ext], for an extension [ext] that is not empty and
    has no dot, exactly when the name is a stem that is not empty
    followed by [.ext]. *)
Lemma suffix_iff (p : Path) (ext : string) :
  ext <> EmptyString -> PyStr.has_char "."%char ext = false ->
  PyPath.suffix p = "." +:+ ext <->
  exists stem, stem <> EmptyString /\ PyPath.name p = stem +:+ "." +:+ ext.
Proof.
  intros Hne Hdot. unfold PyPath.suffix. set (nm := PyPath.name p). split.
  - destruct ((0 <? PyStr.rfind "." nm)%Z && _) eqn:E; [|done].
    apply andb_true_iff in E as [E1%Z.ltb_lt E2%Z.ltb_lt].
    destruct (rfind_split "."%char nm) as (pre & t & Hnm & Ht & Hr); [lia|].
    rewrite Hr in *. unfold PyStr.slice_from. rewrite Nat2Z.id.
    rewrite Hnm at 1. rewrite str_drop_app_length.
    change ("." +:+ ext) with (String "."%char ext). intros [= ->].
    exists pre. split; [|done]. intros ->. cbn in E1. lia.
  - intros (stem & Hstem & Hnm).
    change ("." +:+ ext) with (String "."%char ext) in *.
    rewrite Hnm, (rfind_last _ stem ext Hdot).
    unfold PyStr.len. rewrite str_length_app. cbn [String.length].
    assert (0 < String.length stem)%nat by (destruct stem; [done | cbn; lia]).
    assert (0 < String.length ext)%nat by (destruct ext; [done | cbn; lia]).
    destruct (_ && _) eqn:E.
    + unfold PyStr.slice_from. by rewrite Nat2Z.id, str_drop_app_length.
    + apply andb_false_iff in E as [E%Z.ltb_ge|E%Z.ltb_ge]; lia.
Qed.

End Suffix.

Section FinderShape.
Import UnreferencedFileAnalyzer.

Lemma nodup_map_in {A B} (f : A -> B) (l : list A) :
  (forall x y, In x l -> In y l -> f x = f y -> x = y) ->
  List.NoDup l -> List.NoDup (map f l).
Proof.
  intros Hinj Hl. induction Hl as [|x l Hx Hl IH]; cbn [map]; constructor.
  - intros (y & Heq & Hy)%in_map_iff. apply Hx.
    rewrite (Hinj x y); [done|by left|by right|done].
  - apply IH. intros a b Ha Hb. apply Hinj; by right.
Qed.

Lemma nodup_concat_map {A B} (f : A -> list B) (l : list A) :
  List.NoDup l ->
  (forall a, In a l -> List.NoDup (f a)) ->
  (forall a b x, In a l -> In b l -> In x (f a) -> In x (f b) -> a = b) ->
  List.NoDup (concat (map f l)).
Proof.
  intros Hl Hf Hdisj. induction Hl as [|a l Ha Hl IH]; cbn [map concat].
  - constructor.
  - apply List.NoDup_app.
    + apply Hf. by left.
    + apply IH.
      * intros b Hb. apply Hf. by right.
      * intros b c x Hb Hc. apply Hdisj; by right.
    + intros x Hx (lb & (b & <- & Hb)%in_map_iff & Hxb)%in_concat.
      apply Ha. rewrite (Hdisj a b x); [done|by left|by right|done|done].
Qed.

Variable env : Env.

(** X14. The entries the loop over a directory keeps are the regular
    files named [stem.yaml] or [stem.yml] with a stem that is not empty,
    [kustomization.yaml] excepted. *)
Theorem yaml_sibling_by_name (directory : Path) (name : string) :
  yaml_sibling env (PyPath.joinpath directory name) = true <->
  env_is_file env (PyPath.joinpath directory name) = true /\
  name <> "kustomization.yaml" /\
  exists stem ext,
    stem <> EmptyString /\ (ext = "yaml" \/ ext = "yml") /\
    name = stem +:+ "." +:+ ext.
Proof.
  unfold yaml_sibling.
  rewrite !andb_true_iff, orb_true_iff, negb_true_iff, !String.eqb_eq, String.eqb_neq.
  rewrite (suffix_iff _ "yaml"), (suffix_iff _ "yml") by done.
  rewrite name_joinpath. split.
  - intros [[Hfile [(stem & Hs & Hn)|(stem & Hs & Hn)]] Hk];
      (split; [done|]; split; [done|]); [exists stem, "yaml" | exists stem, "yml"];
      auto.
  - intros (Hfile & Hk & stem & ext & Hs & [-> | ->] & Hn);
      (split; [split; [done|]|done]); [left | right]; by exists stem.
Qed.

Lemma find_unreferenced_in_directory_nodup (directory : Path) :
  List.NoDup (env_iterdir env directory) ->
  List.NoDup (_find_unreferenced_in_directory env directory).1.
Proof.
  intros Hl. unfold _find_unreferenced_in_directory.
  destruct (env_exists env _); cbn [negb]; [|constructor].
  destruct (get_referenced_files env _) as [referenced diags]. cbn [fst].
  assert (forall a b : string,
            PyPath.joinpath directory a = PyPath.joinpath directory b -> a = b)
    as Hinj.
  { intros a b H. by apply app_inj_tail in H as [_ ->]. }
  apply nodup_map_in; [intros a b _ _; apply Hinj|].
  apply List.NoDup_filter. apply nodup_map_in.
  - intros x y (Hx & _)%filter_In (Hy & _)%filter_In.
    apply in_map_iff in Hx as (a & <- & _). apply in_map_iff in Hy as (b & <- & _).
    rewrite !name_joinpath. by intros ->.
  - apply List.NoDup_filter. apply nodup_map_in; [intros a b _ _; apply Hinj | done].
Qed.

(** X15. No file is reported twice: when [rglob] lists each directory
    once and [iterdir] lists each entry of a directory once, the list
    returned by [find_all_unreferenced] has no duplicates. *)
Theorem no_file_reported_twice (project_root : Path) :
  let root := manifests_dir project_root in
  List.NoDup (env_rglob env root "kustomization.yaml") ->
  (forall d, In d (env_rglob env root "kustomization.yaml") ->
     List.NoDup (env_iterdir env (root ++ d))) ->
  List.NoDup (find_all_unreferenced env project_root).1.
Proof.
  intros root Hdirs Hlists. unfold find_all_unreferenced. cbn [fst]. fold root.
  eapply Permutation_NoDup; [symmetry; apply sorted_perm|].
  rewrite map_map. apply nodup_concat_map; [done| |].
  - intros d Hd. cbv zeta. rewrite parent_joinpath.
    by apply find_unreferenced_in_directory_nodup, Hlists.
  - intros d d' x _ _. cbv zeta. rewrite !parent_joinpath.
    intros (_ & n & _ & _ & _ & ->)%find_unreferenced_in_directory_elem
           (_ & n' & _ & _ & _ & Heq)%find_unreferenced_in_directory_elem.
    by apply joinpath_inj in Heq as [-> _].
Qed.

Lemma get_referenced_files_diags (kustomization_path : Path) :
  (get_referenced_files env kustomization_path).2 = [] \/
  exists e, (get_referenced_files env kustomization_path).2
            = [ErrorReading kustomization_path e].
Proof.
  unfold get_referenced_files.
  repeat case_match; cbn [snd]; (by left) || (right; by eexists).
Qed.

Lemma find_unreferenced_in_directory_diags (directory : Path) :
  (_find_unreferenced_in_directory env directory).2 = [] \/
  exists e, (_find_unreferenced_in_directory env directory).2
            = [ErrorReading (PyPath.joinpath directory "kustomization.yaml") e].
Proof.
  unfold _find_unreferenced_in_directory.
  destruct (env_exists env _); cbn [negb]; [|by left].
  pose proof (get_referenced_files_diags (PyPath.joinpath directory "kustomization.yaml"))
    as H.
  by destruct (get_referenced_files env _) as [referenced diags].
Qed.

(** X16. Every line the scan writes to the diagnostic stream is about
    the [kustomization.yaml] of a directory found by [rglob], and there is
    at most one line for each directory found. *)
Theorem diagnostics_name_kustomization_files (project_root : Path) :
  let root := manifests_dir project_root in
  let diags := (find_all_unreferenced env project_root).2 in
  (forall diag, In diag diags ->
     exists d e,
       In d (env_rglob env root "kustomization.yaml") /\
       diag = ErrorReading (PyPath.joinpath (root ++ d) "kustomization.yaml") e) /\
  (length diags <= length (env_rglob env root "kustomization.yaml"))%nat.
Proof.
  intros root diags. subst diags. unfold find_all_unreferenced. cbn [snd]. fold root.
  rewrite map_map. cbv zeta.
  induction (env_rglob env root "kustomization.yaml") as [|d l [IH1 IH2]];
    cbn [map concat]; [split; [done | cbn; lia]|].
  rewrite parent_joinpath.
  destruct (find_unreferenced_in_directory_diags (root ++ d)) as [-> | [e ->]];
    cbn [app length].
  - split; [|lia]. intros diag Hin. destruct (IH1 diag Hin) as (d' & e & Hd & ->).
    exists d', e. split; [by right | done].
  - split; [|lia]. intros diag [<-|Hin].
    + exists d, e. split; [by left | done].
    + destruct (IH1 diag Hin) as (d' & e' & Hd & ->).
      exists d', e'. split; [by right | done].
Qed.

End FinderShape.

Lemma no_file_reported_twice_witness :
  List.NoDup (UnreferencedFileAnalyzer.find_all_unreferenced
                Examples.env_tree Examples.project_root).1.
Proof.
  apply (no_file_reported_twice Examples.env_tree Examples.project_root).
  - apply NoDup_ListNoDup. by apply (bool_decide_unpack _).
  - intros d [<-|[]]. apply NoDup_ListNoDup. by apply (bool_decide_unpack _).
Defined.

(** * What the program prints *)

Section Report.
Import Main UnreferencedFileAnalyzer.

Lemma filter_map_comm {A B} (f : A -> B) (p : B -> bool) (l : list A) :
  List.filter p (map f l) = map f (List.filter (fun x => p (f x)) l).
Proof.
  induction l as [|x l IH]; [done|]. cbn [map List.filter].
  destruct (p (f x)); cbn [map]; by rewrite IH.
Qed.

Lemma filter_split_length {A} (p : A -> bool) (l : list A) :
  (length (List.filter p l) + length (List.filter (fun x => negb (p x)) l)
   = length l)%nat.
Proof.
  induction l as [|x l IH]; [done|]. cbn [List.filter].
  destruct (p x); cbn [negb length]; lia.
Qed.

Variable env : Env.

Lemma main_out (project_root : Path) :
  nothing_raises env ->
  env_exists env (manifests_dir project_root) = true ->
  (find_all_unreferenced env project_root).1 <> [] ->
  stdout (main env project_root) =
    "Scanning for unreferenced YAML files..." ::
    (report env project_root
       (map (analyze_file env) (find_all_unreferenced env project_root).1)).1.
Proof.
  intros Hquiet Hex Hne. rewrite (main_quiet env _ Hquiet Hex). cbn [stdout].
  by destruct (find_all_unreferenced env project_root).1.
Qed.

(** X17. In a run in which no call raises, with a [manifests] directory,
    [main] prints exactly the two texts
    [Scanning for unreferenced YAML files...] and
    [No unreferenced files found!] if and only if, in every directory
    found whose [kustomization.yaml] exists, every regular YAML file other
    than [kustomization.yaml] is in the reference set. *)
Theorem nothing_to_report (project_root : Path) :
  let root := manifests_dir project_root in
  nothing_raises env ->
  env_exists env root = true ->
  (stdout (main env project_root) =
     ["Scanning for unreferenced YAML files..."; "No unreferenced files found!"]
   <->
   forall d name,
     In d (env_rglob env root "kustomization.yaml") ->
     env_exists env (PyPath.joinpath (root ++ d) "kustomization.yaml") = true ->
     In name (env_iterdir env (root ++ d)) ->
     yaml_sibling env (PyPath.joinpath (root ++ d) name) = true ->
     name ∈ (get_referenced_files env
               (PyPath.joinpath (root ++ d) "kustomization.yaml")).1).
Proof.
  intros root Hquiet Hex. split.
  - intros Hout d name Hd Hk Hn Hy.
    destruct (decide (name ∈ (get_referenced_files env
                (PyPath.joinpath (root ++ d) "kustomization.yaml")).1))
      as [|Hnot]; [done|]. exfalso.
    assert (In (PyPath.joinpath (root ++ d) name)
               (find_all_unreferenced env project_root).1) as Hin.
    { apply find_all_unreferenced_elem. by exists d, name. }
    assert ((find_all_unreferenced env project_root).1 <> []) as Hne.
    { intros E. by rewrite E in Hin. }
    rewrite (main_out _ Hquiet Hex Hne) in Hout.
    rewrite (report_out env _ _ Hquiet (results_under_root env project_root)) in Hout.
    cbn [fst] in Hout. by injection Hout.
  - intros Hall. rewrite (main_quiet env _ Hquiet Hex). cbn [stdout].
    destruct (find_all_unreferenced env project_root).1 as [|file files] eqn:Hfind;
      [done|]. exfalso.
    assert (In file (find_all_unreferenced env project_root).1) as Hin
      by (rewrite Hfind; by left).
    apply find_all_unreferenced_elem in Hin as (d & name & Hd & Hk & Hn & Hy & Hnot & _).
    apply Hnot. by apply Hall.
Qed.

(** X18. In a run in which no call raises and files are reported, the two
    counts of the summary add up to the number of unreferenced files, and
    the first is the number of files classified safe to remove. *)
Theorem summary_counts (project_root : Path) :
  let files := (find_all_unreferenced env project_root).1 in
  let out := stdout (main env project_root) in
  nothing_raises env ->
  env_exists env (manifests_dir project_root) = true ->
  files <> [] ->
  exists safe review : nat,
    safe = length (List.filter (fun p => is_safe (analyze_file env p)) files) /\
    (safe + review = length files)%nat /\
    In ("- Safe to remove: " +:+ pretty safe +:+ " files") out /\
    In ("- Needs review: " +:+ pretty review +:+ " files") out.
Proof.
  intros files out Hquiet Hex Hne. subst out. rewrite (main_out _ Hquiet Hex Hne).
  rewrite (report_out env _ _ Hquiet (results_under_root env project_root)).
  cbn [fst]. fold files.
  set (results := map (analyze_file env) files).
  exists (length (List.filter (fun r => is_safe r) results)),
         (length (List.filter (fun r => negb (is_safe r)) results)).
  split; [|split; [|split]].
  - subst results. by rewrite filter_map_comm, length_map.
  - rewrite filter_split_length. subst results. by rewrite length_map.
  - right. right. apply in_or_app. right. right. by left.
  - right. right. apply in_or_app. right. right. right. by left.
Qed.

(** X19. In a run in which no call raises, every unreferenced file gets
    its texts: its status text, with the mark of its classification and
    its path relative to the project root, the text of its reason, and a
    text in one of the two closing lists. *)
Theorem every_file_gets_its_lines (project_root rel_path : Path) :
  let file := project_root ++ rel_path in
  let result := analyze_file env file in
  let out := stdout (main env project_root) in
  nothing_raises env ->
  env_exists env (manifests_dir project_root) = true ->
  In file (find_all_unreferenced env project_root).1 ->
  In ((if is_safe result then CHECK_MARK +:+ " SAFE TO REMOVE: "
       else WARNING_SIGN +:+ " NEEDS REVIEW: ") +:+ rel_str rel_path) out /\
  In ("  Reason: " +:+ reason result) out /\
  In ("  " +:+ rel_str rel_path) out.
Proof.
  intros file result out Hquiet Hex Hin. subst out.
  assert ((find_all_unreferenced env project_root).1 <> []) as Hne.
  { intros E. by rewrite E in Hin. }
  rewrite (main_out _ Hquiet Hex Hne).
  rewrite (report_out env _ _ Hquiet (results_under_root env project_root)).
  cbn [fst].
  set (results := map (analyze_file env) (find_all_unreferenced env project_root).1).
  assert (In result results) as Hres by (by apply in_map).
  assert (shown project_root (filepath result) = rel_str rel_path) as Hshown.
  { unfold shown, result. rewrite analyze_file_filepath. unfold file.
    by rewrite drop_app_length. }
  assert (forall line, In line (status_lines project_root result) ->
            In line (concat (map (status_lines project_root) results))) as Hlines.
  { intros line Hl. apply in_concat. eexists. split; [|exact Hl]. by apply in_map. }
  split; [|split].
  - right. right. apply in_or_app. left. apply Hlines.
    unfold status_lines. rewrite Hshown. by left.
  - right. right. apply in_or_app. left. apply Hlines.
    unfold status_lines. right. by left.
  - right. right. apply in_or_app. right. do 3 right.
    destruct (is_safe result) eqn:Hsafe.
    + apply in_or_app. left.
      assert (In result (List.filter (fun r => is_safe r) results)) as Hf
        by (by apply filter_In).
      destruct (List.filter (fun r => is_safe r) results) as [|r l] eqn:E; [done|].
      right. rewrite <- Hshown.
      exact (in_map (fun r => "  " +:+ shown project_root (filepath r)) _ _ Hf).
    + apply in_or_app. right. apply in_or_app. left.
      assert (In result (List.filter (fun r => negb (is_safe r)) results)) as Hf
        by (apply filter_In; by rewrite Hsafe).
      destruct (List.filter (fun r => negb (is_safe r)) results) as [|r l] eqn:E;
        [done|].
      right. rewrite <- Hshown.
      exact (in_map (fun r => "  " +:+ shown project_root (filepath r)) _ _ Hf).
Qed.

End Report.

Lemma nothing_to_report_witness :
  stdout (Main.main Samples.env_clean Examples.project_root) =
    ["Scanning for unreferenced YAML files..."; "No unreferenced files found!"].
Proof.
  apply (nothing_to_report Samples.env_clean Examples.project_root);
    [intros c; reflexivity | reflexivity |].
  intros d name [<-|[]] _ Hname Hsibling. vm_compute in Hname.
  destruct Hname as [<-|[<-|[<-|[]]]].
  - by vm_compute in Hsibling.
  - by vm_compute.
  - by vm_compute in Hsibling.
Defined.

Lemma summary_counts_witness :
  exists safe review : nat,
    safe = length (List.filter
                     (fun p => Main.is_safe
                                 (UnreferencedFileAnalyzer.analyze_file Examples.env_tree p))
                     (UnreferencedFileAnalyzer.find_all_unreferenced
                        Examples.env_tree Examples.project_root).1) /\
    (safe + review =
     length (UnreferencedFileAnalyzer.find_all_unreferenced
               Examples.env_tree Examples.project_root).1)%nat /\
    In ("- Safe to remove: " +:+ pretty safe +:+ " files")
       (stdout (Main.main Examples.env_tree Examples.project_root)) /\
    In ("- Needs review: " +:+ pretty review +:+ " files")
       (stdout (Main.main Examples.env_tree Examples.project_root)).
Proof.
  apply (summary_counts Examples.env_tree Examples.project_root).
  - intros c. reflexivity.
  - reflexivity.
  - by vm_compute.
Defined.

Lemma every_file_gets_its_lines_witness :
  In (Main.CHECK_MARK +:+ " SAFE TO REMOVE: " +:+ "manifests/app/old-job.yaml")
     (stdout (Main.main Examples.env_tree Examples.project_root)) /\
  In ("  Reason: " +:+ "Old Job file (likely replaced by workflow)")
     (stdout (Main.main Examples.env_tree Examples.project_root)) /\
  In ("  " +:+ "manifests/app/old-job.yaml")
     (stdout (Main.main Examples.env_tree Examples.project_root)).
Proof.
  apply (every_file_gets_its_lines Examples.env_tree Examples.project_root
           ["manifests"; "app"; "old-job.yaml"]).
  - intros c. reflexivity.
  - reflexivity.
  - vm_compute. tauto.
Defined.

Section Removal.
Import Main UnreferencedFileAnalyzer.

Lemma last_app_nonempty {A} (l1 l2 : list A) (d : A) :
  l2 <> [] -> List.last (l1 ++ l2) d = List.last l2 d.
Proof.
  intros Hne. induction l1 as [|a l1 IH]; [done|].
  cbn [app]. rewrite <- IH. cbn [List.last].
  destruct (l1 ++ l2) eqn:E; [|done]. by apply app_eq_nil in E as [_ ->].
Qed.

Lemma rel_str_prefix (c : string) (rest : list string) :
  exists tail, rel_str (c :: rest) = c +:+ tail.
Proof.
  cbn [rel_str]. revert c. induction rest as [|x rest IH]; intros c; cbn [fold_left].
  - exists EmptyString. by rewrite str_app_nil_r.
  - destruct (IH (c +:+ "/" +:+ x)) as [tail ->].
    exists ("/" +:+ x +:+ tail). by rewrite !str_app_assoc.
Qed.

Variable env : Env.

Lemma shown_manifests (project_root file : Path) :
  In file (find_all_unreferenced env project_root).1 ->
  exists tail, shown project_root file = "manifests" +:+ tail.
Proof.
  intros (d & name & _ & _ & _ & _ & _ & ->)%find_all_unreferenced_elem.
  unfold shown, manifests_dir, PyPath.joinpath. rewrite <- !app_assoc.
  rewrite drop_app_length. cbn [app]. apply rel_str_prefix.
Qed.

(** X20. In a run in which no call raises and files are reported: when
    some file is safe to remove, the text of the last [print] is the
    removal command, which names, each between double quotes and one blank
    apart, exactly the files classified safe to remove, in the order of
    the sorted list; when no file is safe to remove, no text passed to
    [print] begins with the command. A text is one argument of [print]: it
    holds a line break where a file name or an error message does. *)
Theorem removal_command (project_root : Path) :
  let files := (find_all_unreferenced env project_root).1 in
  let safe := List.filter (fun p => is_safe (analyze_file env p)) files in
  let out := stdout (main env project_root) in
  nothing_raises env ->
  env_exists env (manifests_dir project_root) = true ->
  files <> [] ->
  (safe <> [] ->
   List.last out EmptyString =
     "  rm " +:+ String.concat " "
                 (map (fun p => quoted (shown project_root p)) safe)) /\
  (safe = [] -> forall args, ~ In ("  rm " +:+ args) out).
Proof.
  intros files safe out Hquiet Hex Hne. subst out.
  rewrite (main_out env _ Hquiet Hex Hne).
  rewrite (report_out env _ _ Hquiet (results_under_root env project_root)).
  cbn [fst].
  fold files. rewrite (filter_map_comm (analyze_file env) (fun r => is_safe r)).
  fold safe. rewrite !map_map.
  rewrite (map_ext (fun x => quoted (shown project_root (filepath (analyze_file env x))))
                   (fun p => quoted (shown project_root p)))
    by (intros p; by rewrite analyze_file_filepath).
  split.
  - intros Hsafe. destruct safe as [|p safe']; [done|]. cbn [map].
    etransitivity;
      [refine (last_app_nonempty (_ :: _ :: concat _) _ _ _); done|].
    etransitivity;
      [eapply (last_app_nonempty (_ :: _ :: _ :: _) (_ ++ _))|].
    { intros E. by apply app_eq_nil in E as [_ E]. }
    by rewrite last_app_nonempty.
  - intros -> args. cbn [map app]. rewrite app_nil_r.
    change ("  rm " +:+ args)
      with (String " " (String " " (String "r" (String "m" (String " " args))))).
    intros [Hin|[Hin|Hin]]; [done|done|].
    apply in_app_or in Hin as [Hin|Hin].
    + apply in_concat in Hin as (lines & (r & <- & _)%in_map_iff & Hin).
      unfold status_lines in Hin. destruct Hin as [Hin|[Hin|[Hin|[]]]]; [|done|done].
      unfold CHECK_MARK, WARNING_SIGN in Hin.
      destruct (is_safe _); by rewrite !str_app_cons in Hin.
    + destruct Hin as [Hin|[Hin|[Hin|Hin]]]; [done|done|done|].
      destruct (List.filter _ _) as [|r l] eqn:E; [done|]. rewrite <- E in Hin.
      destruct Hin as [Hin|Hin]; [done|].
      apply in_map_iff in Hin as (r' & Heq & (Hr' & _)%filter_In).
      apply in_map_iff in Hr' as (p & <- & Hp).
      rewrite analyze_file_filepath in Heq.
      destruct (shown_manifests _ _ Hp) as [tail Htail]. rewrite Htail in Heq.
      by rewrite !str_app_cons in Heq.
Qed.

End Removal.

Lemma removal_command_witness :
  List.last (stdout (Main.main Examples.env_tree Examples.project_root)) EmptyString =
    "  rm " +:+ quoted "manifests/app/config-test.yaml" +:+ " "
            +:+ quoted "manifests/app/old-job.yaml".
Proof.
  destruct (removal_command Examples.env_tree Examples.project_root) as [Hlast _].
  - intros c. reflexivity.
  - reflexivity.
  - by vm_compute.
  - apply Hlast. by vm_compute.
Defined.
